(** * Access groups of the UtxoView: a shallow embedding

    The staged view ([UtxoView]) keeps four overlay maps on top of a read-only
    durable store: the access-group registry, the membership index and the two
    attribute indexes for groups and members.  The connect and disconnect
    functions of the three transaction kinds (CreateAccessGroup,
    AccessGroupMembers, AccessGroupAttributes) are embedded as state-passing
    functions over that record.  Names follow lib/block_view_access_group.go,
    lib/block_view_access_group_member_attributes.go and
    lib/block_view_access_group_entry_attributes.go; the older
    [_connectMessagingGroup] of lib/block_view_message.go lives in
    [Module Messaging]. *)

From Stdlib Require Import Strings.Byte Strings.String NArith Lia.
From stdpp Require Import base option gmap list strings.

(** ** Bytes, keys and names *)

#[global] Instance byte_eq_dec : EqDecision byte := Byte.byte_eq_dec.
#[global] Instance byte_countable : Countable byte :=
  inj_countable Byte.to_N Byte.of_N Byte.of_to_N.

(** [PublicKey] is the array type [[33]byte] and [GroupKeyName] the array
    type [[32]byte]; both are kept as their byte contents. *)
Definition PublicKey : Type := list byte.
Definition GroupKeyName : Type := list byte.

#[global] Instance PublicKey_eq_dec : EqDecision PublicKey := _.
#[global] Instance PublicKey_countable : Countable PublicKey := _.
#[global] Instance GroupKeyName_eq_dec : EqDecision GroupKeyName := _.
#[global] Instance GroupKeyName_countable : Countable GroupKeyName := _.

(** Modelled from the spec: the constants are not among the sources; a group
    key name has "1 to 32" bytes. *)
Definition MaxAccessKeyNameCharacters : nat := 32.
Definition MinAccessKeyNameCharacters : nat := 1.
(** Modelled from the spec: btcec.PrivKeyBytesLen, the least length of an
    encrypted key ("encryptedKey.len ≥ 32"). *)
Definition PrivKeyBytesLen : nat := 32.

(** Modelled from the spec: NewPublicKey is not among the sources; a public
    key is the 33 bytes it is built from. *)
Definition NewPublicKey (publicKey : list byte) : PublicKey := publicKey.

(** Modelled from the spec: NewGroupKeyName is not among the sources; a group
    key name is "right-padded with zero bytes to a fixed 32-byte form". *)
Definition NewGroupKeyName (groupKeyName : list byte) : GroupKeyName :=
  take MaxAccessKeyNameCharacters
       (groupKeyName ++ replicate (MaxAccessKeyNameCharacters - length groupKeyName) x00).

(** Modelled from the spec: BaseGroupKeyName is not among the sources; the
    base name is the "all-zero name". *)
Definition BaseGroupKeyName : GroupKeyName := NewGroupKeyName [].

(** Modelled from the spec: DefaultGroupKeyName is not among the sources; it
    is the ASCII bytes of "default-key", padded. *)
Definition DefaultGroupKeyName : GroupKeyName :=
  NewGroupKeyName (list_byte_of_string "default-key").

(** Modelled from the spec: EqualGroupKeyName is not among the sources; two
    names are equal when their 32 bytes are. *)
Definition EqualGroupKeyName (a b : GroupKeyName) : bool := bool_decide (a = b).

Record AccessGroupKey := {
  OwnerPublicKey : PublicKey;
  agkGroupKeyName : GroupKeyName
}.

Record GroupMembershipKey := {
  gmkGroupMemberPublicKey : PublicKey;
  gmkGroupOwnerPublicKey : PublicKey;
  gmkGroupKeyName : GroupKeyName
}.

Record GroupEnumerationKey := {
  gekGroupOwnerPublicKey : PublicKey;
  gekGroupKeyName : GroupKeyName;
  gekGroupMemberPublicKey : PublicKey
}.

#[global] Instance AccessGroupKey_eq_dec : EqDecision AccessGroupKey.
Proof. solve_decision. Defined.
#[global] Instance GroupMembershipKey_eq_dec : EqDecision GroupMembershipKey.
Proof. solve_decision. Defined.
#[global] Instance GroupEnumerationKey_eq_dec : EqDecision GroupEnumerationKey.
Proof. solve_decision. Defined.

Definition AccessGroupKey_to_pair (k : AccessGroupKey) : PublicKey * GroupKeyName :=
  (OwnerPublicKey k, agkGroupKeyName k).
Definition AccessGroupKey_of_pair (p : PublicKey * GroupKeyName) : AccessGroupKey :=
  {| OwnerPublicKey := p.1; agkGroupKeyName := p.2 |}.
#[global] Instance AccessGroupKey_countable : Countable AccessGroupKey.
Proof.
  apply (inj_countable' AccessGroupKey_to_pair AccessGroupKey_of_pair).
  by intros [].
Defined.

Definition GroupMembershipKey_to_tuple (k : GroupMembershipKey)
  : PublicKey * PublicKey * GroupKeyName :=
  (gmkGroupMemberPublicKey k, gmkGroupOwnerPublicKey k, gmkGroupKeyName k).
Definition GroupMembershipKey_of_tuple (p : PublicKey * PublicKey * GroupKeyName)
  : GroupMembershipKey :=
  {| gmkGroupMemberPublicKey := p.1.1; gmkGroupOwnerPublicKey := p.1.2;
     gmkGroupKeyName := p.2 |}.
#[global] Instance GroupMembershipKey_countable : Countable GroupMembershipKey.
Proof.
  apply (inj_countable' GroupMembershipKey_to_tuple GroupMembershipKey_of_tuple).
  by intros [].
Defined.

Definition GroupEnumerationKey_to_tuple (k : GroupEnumerationKey)
  : PublicKey * GroupKeyName * PublicKey :=
  (gekGroupOwnerPublicKey k, gekGroupKeyName k, gekGroupMemberPublicKey k).
Definition GroupEnumerationKey_of_tuple (p : PublicKey * GroupKeyName * PublicKey)
  : GroupEnumerationKey :=
  {| gekGroupOwnerPublicKey := p.1.1; gekGroupKeyName := p.1.2;
     gekGroupMemberPublicKey := p.2 |}.
#[global] Instance GroupEnumerationKey_countable : Countable GroupEnumerationKey.
Proof.
  apply (inj_countable' GroupEnumerationKey_to_tuple GroupEnumerationKey_of_tuple).
  by intros [].
Defined.

(** Modelled from the spec: NewAccessGroupKey is not among the sources; it
    takes the name as a byte slice and stores its padded form. *)
Definition NewAccessGroupKey (ownerPublicKey : PublicKey) (groupKeyName : list byte)
  : AccessGroupKey :=
  {| OwnerPublicKey := ownerPublicKey; agkGroupKeyName := NewGroupKeyName groupKeyName |}.

(** Modelled from the spec: NewGroupMembershipKey is not among the sources;
    the name is padded as in [NewAccessGroupKey]. *)
Definition NewGroupMembershipKey (groupMemberPublicKey groupOwnerPublicKey : PublicKey)
    (groupKeyName : list byte) : GroupMembershipKey :=
  {| gmkGroupMemberPublicKey := groupMemberPublicKey;
     gmkGroupOwnerPublicKey := groupOwnerPublicKey;
     gmkGroupKeyName := NewGroupKeyName groupKeyName |}.

(** Modelled from the spec: NewGroupEnumerationKey is not among the sources;
    the name is padded as in [NewAccessGroupKey]. *)
Definition NewGroupEnumerationKey (groupOwnerPublicKey : PublicKey)
    (groupKeyName : list byte) (groupMemberPublicKey : PublicKey) : GroupEnumerationKey :=
  {| gekGroupOwnerPublicKey := groupOwnerPublicKey;
     gekGroupKeyName := NewGroupKeyName groupKeyName;
     gekGroupMemberPublicKey := groupMemberPublicKey |}.

(** ** Entries *)

(** A member record.  Where the source holds a [*AccessGroupMember] that it
    tests against nil, or a slice of them, the pointer is an
    [option AccessGroupMember] and [None] is nil. *)
Record AccessGroupMember := {
  GroupMemberPublicKey : PublicKey;
  GroupMemberKeyName : GroupKeyName;
  EncryptedKey : list byte;
  IsMuted : bool;
  agmIsDeleted : bool
}.

Record AccessGroupEntry := {
  GroupOwnerPublicKey : PublicKey;
  AccessPublicKey : PublicKey;
  AccessGroupKeyName : GroupKeyName;
  DEPRECATED_AccessGroupMembers : list (option AccessGroupMember);
  ExtraData : gmap string (list byte);
  BlockHeightCreated : N;
  ageIsDeleted : bool
}.

Record AttributeEntry := {
  IsSet : bool;
  Value : list byte;
  attrIsDeleted : bool
}.

#[global] Instance AccessGroupMember_eq_dec : EqDecision AccessGroupMember.
Proof. solve_decision. Defined.
#[global] Instance AccessGroupEntry_eq_dec : EqDecision AccessGroupEntry.
Proof. solve_decision. Defined.
#[global] Instance AttributeEntry_eq_dec : EqDecision AttributeEntry.
Proof. solve_decision. Defined.

(** Modelled from the spec: NewAccessGroupEntry is not among the sources; it
    fills the record of section 3 from its six arguments. *)
Definition NewAccessGroupEntry (groupOwnerPublicKey accessPublicKey : PublicKey)
    (accessGroupKeyName : GroupKeyName) (accessGroupMembers : list (option AccessGroupMember))
    (extraData : gmap string (list byte)) (blockHeight : N) : AccessGroupEntry :=
  {| GroupOwnerPublicKey := groupOwnerPublicKey;
     AccessPublicKey := accessPublicKey;
     AccessGroupKeyName := accessGroupKeyName;
     DEPRECATED_AccessGroupMembers := accessGroupMembers;
     ExtraData := extraData;
     BlockHeightCreated := blockHeight;
     ageIsDeleted := false |}.

(** Modelled from the spec: NewAttributeEntry is not among the sources; an
    attribute entry is [(isSet, value, tombstone)]. *)
Definition NewAttributeEntry (isSet : bool) (value : list byte) : AttributeEntry :=
  {| IsSet := isSet; Value := value; attrIsDeleted := false |}.

(** Modelled from the spec: mergeExtraData is not among the sources; the
    merge "is key-wise right-biased". *)
Definition mergeExtraData (existing new : gmap string (list byte))
  : gmap string (list byte) := new ∪ existing.

(** The attribute types are [uint16] codes; [IsMuted] is the canonical member
    attribute. *)
Definition AccessGroupMemberAttributeIsMuted : N := 0.

(** ** Transactions and operation records *)

(** CreateAccessGroup carries one of these (read from the transaction by
    GetAccessGroupOperation). *)
Inductive AccessGroupOperation :=
| AccessGroupOperationAddMembers
| AccessGroupOperationRemoveMembers
| AccessGroupOperationMuteMembers
| AccessGroupOperationUnmuteMembers
| AccessGroupOperationOther (code : N).

Inductive AccessGroupMemberOperationType :=
| AccessGroupMemberOperationTypeAdd
| AccessGroupMemberOperationTypeRemove
| AccessGroupMemberOperationTypeOther (code : N).

Inductive AccessGroupAttributeHolder :=
| AccessGroupAttributeHolderMember
| AccessGroupAttributeHolderGroup
| AccessGroupAttributeHolderOther (code : N).

Inductive AccessGroupAttributeOperationType :=
| AccessGroupAttributeOperationTypeAdd
| AccessGroupAttributeOperationTypeRemove
| AccessGroupAttributeOperationTypeOther (code : N).

(** The dynamic type of the [AttributeHolderKey] interface value. *)
Inductive AttributeHolderKey :=
| HolderGroupEnumerationKey (k : GroupEnumerationKey)
| HolderAccessGroupKey (k : AccessGroupKey)
| HolderOther.

#[global] Instance AccessGroupOperation_eq_dec : EqDecision AccessGroupOperation.
Proof. solve_decision. Defined.
#[global] Instance AccessGroupMemberOperationType_eq_dec :
  EqDecision AccessGroupMemberOperationType.
Proof. solve_decision. Defined.
#[global] Instance AccessGroupAttributeHolder_eq_dec : EqDecision AccessGroupAttributeHolder.
Proof. solve_decision. Defined.
#[global] Instance AccessGroupAttributeOperationType_eq_dec :
  EqDecision AccessGroupAttributeOperationType.
Proof. solve_decision. Defined.
#[global] Instance AttributeHolderKey_eq_dec : EqDecision AttributeHolderKey.
Proof. solve_decision. Defined.

Record CreateAccessGroupMetadata := {
  cagAccessPublicKey : list byte;
  cagAccessGroupKeyName : list byte;
  cagGroupOwnerSignature : list byte;
  cagAccessGroupMembers : list (option AccessGroupMember)
}.

Record AccessGroupMembersMetadata := {
  agmAccessPublicKey : list byte;
  agmAccessGroupKeyName : list byte;
  agmAccessGroupMembers : list (option AccessGroupMember);
  AccessGroupMemberOperationType_ : AccessGroupMemberOperationType
}.

Record AccessGroupAttributesMetadata := {
  AccessGroupAttributeHolder_ : AccessGroupAttributeHolder;
  AttributeHolderKey_ : AttributeHolderKey;
  AccessGroupAttributeOperationType_ : AccessGroupAttributeOperationType;
  AttributeType : N;
  AttributeValue : list byte
}.

(** [txn.TxnMeta] with its [GetTxnType()] tag.  [MessagingGroupTxnMeta] is the
    [TxnTypeMessagingGroup] spelling of lib/block_view_message.go, which
    carries the same fields as CreateAccessGroup. *)
Inductive DeSoTxnMetadata :=
| CreateAccessGroupTxnMeta (m : CreateAccessGroupMetadata)
| AccessGroupMembersTxnMeta (m : AccessGroupMembersMetadata)
| AccessGroupAttributesTxnMeta (m : AccessGroupAttributesMetadata)
| MessagingGroupTxnMeta (m : CreateAccessGroupMetadata)
| OtherTxnMeta (txnType : N).

Record MsgDeSoTxn := {
  txnPublicKey : list byte;
  TxnMeta : DeSoTxnMetadata;
  txnExtraData : gmap string (list byte)
}.

Inductive OperationType :=
| OperationTypeCreateAccessGroup
| OperationTypeAccessGroupMembers
| OperationTypeAccessGroupAttributes
| OperationTypeMessagingKey
| OperationTypeOther (code : N).

#[global] Instance OperationType_eq_dec : EqDecision OperationType.
Proof. solve_decision. Defined.

(** One record per mutation; a connect fills the fields of its kind and leaves
    the others at their zero value. *)
Record UtxoOperation := {
  Type_ : OperationType;
  PrevAccessKeyEntry : option AccessGroupEntry;
  PrevAccessGroupMembers : list (option AccessGroupMember);
  PrevAccessGroupAttributeHolder : AccessGroupAttributeHolder;
  PrevAttributeHolderKey : AttributeHolderKey;
  PrevAccessGroupAttributeOperationType : AccessGroupAttributeOperationType;
  PrevAttributeType : N;
  PrevAttributeValue : list byte
}.

(** [&UtxoOperation{Type: ty}]. *)
Definition zeroUtxoOperation (ty : OperationType) : UtxoOperation :=
  {| Type_ := ty;
     PrevAccessKeyEntry := None;
     PrevAccessGroupMembers := [];
     PrevAccessGroupAttributeHolder := AccessGroupAttributeHolderOther 0;
     PrevAttributeHolderKey := HolderOther;
     PrevAccessGroupAttributeOperationType := AccessGroupAttributeOperationTypeOther 0;
     PrevAttributeType := 0%N;
     PrevAttributeValue := [] |}.

(** ** Errors *)

Inductive RuleError :=
| RuleErrorAccessKeyBeforeBlockHeight
| RuleErrorAccessGroupsBeforeBlockHeight
| RuleErrorAccessKeyNameCannotBeZeros
| RuleErrorAccessKeyNameTooShort
| RuleErrorAccessKeyNameTooLong
| RuleErrorAccessPublicKeyCannotBeOwnerKey
| RuleErrorAccessPublicKeyCannotBeDifferent
| RuleErrorAccessKeyDoesntAddMembers
| RuleErrorAccessMemberAlreadyExists
| RuleErrorAccessMemberEncryptedKeyTooShort
| RuleErrorAccessMemberKeyDoesntExist
| RuleErrorAccessGroupDoesntExist
| RuleErrorAccessGroupOwnerMutingSelf
| RuleErrorAccessGroupOwnerUnmutingSelf
| RuleErrorAccessMemberNotInGroup
| RuleErrorAccessMemberAlreadyMuted
| RuleErrorAccessMemberAlreadyUnmuted
| RuleErrorAccessKeyDoesntExist
| RuleErrorAccessGroupMemberOperationTypeNotSupported
| RuleErrorAccessGroupAttributesInvalidAttributeHolder
| RuleErrorAccessGroupAttributesOperationDenied
| RuleErrorAccessGroupAttributesInvalidOperationType
| RuleErrorAccessGroupSignatureInvalid
| RuleErrorMessagingMemberIsMutedAlreadySetToTrue.

(** A Go [error] by its cause: [errors.Wrapf] keeps the cause and adds text.
    [ExternalError] is an error produced by a collaborator and passed up,
    [ExternalErrorNaming] the same with a rule error named in the added text,
    [FmtErrorf] an error made on the spot by [fmt.Errorf], and [GoPanic] a
    nil dereference or failed type assertion, which does not return. *)
Inductive error :=
| Rule (e : RuleError)
| ExternalError (cause : string)
| ExternalErrorNaming (cause : string) (named : RuleError)
| FmtErrorf (function : string)
| GoPanic.

#[global] Instance RuleError_eq_dec : EqDecision RuleError.
Proof. solve_decision. Defined.
#[global] Instance error_eq_dec : EqDecision error.
Proof. solve_decision. Defined.

(** What a function that ends in [..., err] hands back: its values with a nil
    error, or a non-nil error. *)
Inductive outcome (A : Type) :=
| Return (a : A)
| Fail (e : error).
Arguments Return {A} a.
Arguments Fail {A} e.

(** ** reflect.DeepEqual

    The source compares keys with [reflect.DeepEqual], whose arguments are
    [interface{}] values: "values of distinct types are never deeply equal".
    [GoValue] keeps the static Go type of each argument as it is written at
    the call: [x[:]] of an array is a [[]byte], [&k.OwnerPublicKey] is a
    [*PublicKey], [txn.PublicKey] is a [[]byte]. *)
Inductive GoValue :=
| ByteSlice (b : list byte)
| PublicKeyArray (p : PublicKey)
| PublicKeyPointer (p : PublicKey)
| GroupKeyNameArray (n : GroupKeyName)
| GroupKeyNamePointer (n : GroupKeyName).

Definition DeepEqual (x y : GoValue) : bool :=
  match x, y with
  | ByteSlice a, ByteSlice b => bool_decide (a = b)
  | PublicKeyArray a, PublicKeyArray b => bool_decide (a = b)
  | PublicKeyPointer a, PublicKeyPointer b => bool_decide (a = b)
  | GroupKeyNameArray a, GroupKeyNameArray b => bool_decide (a = b)
  | GroupKeyNamePointer a, GroupKeyNamePointer b => bool_decide (a = b)
  | _, _ => false
  end.

(** ** The collaborators and the view *)

(** What the access-group code consumes from the rest of the node: the fork
    heights of [bav.Params], the key and signature checks, the curve base point
    and the key derived from a name for unencrypted groups, the basic transfer,
    the codec used for the deep copy of an entry, the member sort, and the
    reads of the durable store behind [bav.Handle].  [B] is the part of the
    view that the basic transfer works on.  A collaborator that returns a Go
    [error] returns its text here ([None] is the nil error). *)
Record Collaborators (B : Type) := {
  DeSoV3MessagesBlockHeight : N;
  DeSoAccessGroupsBlockHeight : N;
  ExtraDataOnEntriesBlockHeight : N;
  IsByteArrayValidPublicKey : list byte → option string;
  _verifyBytesSignature : list byte → list byte → list byte → N → option string;
  GetS256BasePointCompressed : list byte;
  (** [btcec.PrivKeyFromBytes(btcec.S256(), Sha256DoubleHash(name)[:])], its
      public half serialized compressed. *)
  PublicKeyFromSha256DoubleHash : list byte → list byte;
  _connectBasicTransfer :
    MsgDeSoTxn → list byte → N → bool → B → B * (string + N * N * list UtxoOperation);
  _disconnectBasicTransfer :
    MsgDeSoTxn → list byte → list UtxoOperation → N → B → B * option string;
  GetAccessGroupOperation : MsgDeSoTxn → string + AccessGroupOperation;
  (** [DecodeFromBytes(&copy, bytes.NewReader(EncodeToBytes(height, entry)))]:
      the decoded copy, the [exists] flag and the error. *)
  EncodeThenDecode : N → AccessGroupEntry → AccessGroupEntry * bool * option string;
  sortAccessGroupMembers : list (option AccessGroupMember) → list (option AccessGroupMember);
  DBGetAccessGroupEntry : AccessGroupKey → option AccessGroupEntry;
  DBGetMemberFromMembershipIndex :
    PublicKey → PublicKey → GroupKeyName → option AccessGroupMember;
  DBGetAttributeEntryInGroupMemberAttributesIndex :
    PublicKey → GroupKeyName → PublicKey → N → string + option AttributeEntry;
  DBGetAttributeEntryInGroupEntryAttributesIndex :
    PublicKey → GroupKeyName → N → string + option AttributeEntry
}.
Arguments DeSoV3MessagesBlockHeight {B} _.
Arguments DeSoAccessGroupsBlockHeight {B} _.
Arguments ExtraDataOnEntriesBlockHeight {B} _.
Arguments IsByteArrayValidPublicKey {B} _ _.
Arguments _verifyBytesSignature {B} _ _ _ _ _.
Arguments GetS256BasePointCompressed {B} _.
Arguments PublicKeyFromSha256DoubleHash {B} _ _.
Arguments _connectBasicTransfer {B} _ _ _ _ _ _.
Arguments _disconnectBasicTransfer {B} _ _ _ _ _ _.
Arguments GetAccessGroupOperation {B} _ _.
Arguments EncodeThenDecode {B} _ _ _.
Arguments sortAccessGroupMembers {B} _ _.
Arguments DBGetAccessGroupEntry {B} _ _.
Arguments DBGetMemberFromMembershipIndex {B} _ _ _ _.
Arguments DBGetAttributeEntryInGroupMemberAttributesIndex {B} _ _ _ _ _.
Arguments DBGetAttributeEntryInGroupEntryAttributesIndex {B} _ _ _ _.

(** The overlay maps of the view.  A Go map from a key to a pointer is a
    [gmap] to the record pointed at: the setters never store nil and no
    function below writes through a stored pointer. *)
Record UtxoView (B : Type) := {
  AccessGroupKeyToAccessGroupEntry : gmap AccessGroupKey AccessGroupEntry;
  GroupMembershipKeyToAccessGroupMember : gmap GroupMembershipKey AccessGroupMember;
  GroupMemberAttributes : gmap GroupEnumerationKey (gmap N AttributeEntry);
  GroupEntryAttributes : gmap AccessGroupKey (gmap N AttributeEntry);
  BasicTransferView : B
}.
Arguments AccessGroupKeyToAccessGroupEntry {B} _.
Arguments GroupMembershipKeyToAccessGroupMember {B} _.
Arguments GroupMemberAttributes {B} _.
Arguments GroupEntryAttributes {B} _.
Arguments BasicTransferView {B} _.

(** A method of the view that can fail: it runs on the view, leaves its
    mutations there (also when it fails) and hands back an [outcome]. *)
Definition View (B A : Type) : Type := UtxoView B → UtxoView B * outcome A.

#[global] Instance View_ret {B} : MRet (View B) := λ A a bav, (bav, Return a).
#[global] Instance View_bind {B} : MBind (View B) := λ A A' f c bav,
  match c bav with
  | (bav', Return a) => f a bav'
  | (bav', Fail e) => (bav', Fail e)
  end.

(** [return ..., err] with a non-nil error. *)
Definition fail {B A} (e : error) : View B A := λ bav, (bav, Fail e).

(** A method that cannot fail, as a step of one that can. *)
Definition call {B A} (f : UtxoView B → UtxoView B * A) : View B A :=
  λ bav, let '(bav', a) := f bav in (bav', Return a).

(** A setter, as a step. *)
Definition update {B} (f : UtxoView B → UtxoView B) : View B unit :=
  λ bav, (f bav, Return tt).

(** [if cond { return ..., err }]. *)
Definition failIf {B} (cond : bool) (e : error) : View B unit :=
  if cond then fail e else mret tt.

(** [if err := f(); err != nil { return ..., errors.Wrapf(err, ...) }] for a
    collaborator [f]. *)
Definition failOn {B} (err : option string) : View B unit :=
  match err with
  | Some cause => fail (ExternalError cause)
  | None => mret tt
  end.

(** [p.field] on a pointer that the source does not test: nil panics. *)
Definition deref {B A} (p : option A) : View B A :=
  match p with
  | Some a => mret a
  | None => fail GoPanic
  end.

(** Writing one field of the view. *)
Definition withAccessGroupKeyToAccessGroupEntry {B}
    (m : gmap AccessGroupKey AccessGroupEntry) (bav : UtxoView B) : UtxoView B :=
  {| AccessGroupKeyToAccessGroupEntry := m;
     GroupMembershipKeyToAccessGroupMember := GroupMembershipKeyToAccessGroupMember bav;
     GroupMemberAttributes := GroupMemberAttributes bav;
     GroupEntryAttributes := GroupEntryAttributes bav;
     BasicTransferView := BasicTransferView bav |}.

Definition withGroupMembershipKeyToAccessGroupMember {B}
    (m : gmap GroupMembershipKey AccessGroupMember) (bav : UtxoView B) : UtxoView B :=
  {| AccessGroupKeyToAccessGroupEntry := AccessGroupKeyToAccessGroupEntry bav;
     GroupMembershipKeyToAccessGroupMember := m;
     GroupMemberAttributes := GroupMemberAttributes bav;
     GroupEntryAttributes := GroupEntryAttributes bav;
     BasicTransferView := BasicTransferView bav |}.

Definition withGroupMemberAttributes {B}
    (m : gmap GroupEnumerationKey (gmap N AttributeEntry)) (bav : UtxoView B) : UtxoView B :=
  {| AccessGroupKeyToAccessGroupEntry := AccessGroupKeyToAccessGroupEntry bav;
     GroupMembershipKeyToAccessGroupMember := GroupMembershipKeyToAccessGroupMember bav;
     GroupMemberAttributes := m;
     GroupEntryAttributes := GroupEntryAttributes bav;
     BasicTransferView := BasicTransferView bav |}.

Definition withGroupEntryAttributes {B}
    (m : gmap AccessGroupKey (gmap N AttributeEntry)) (bav : UtxoView B) : UtxoView B :=
  {| AccessGroupKeyToAccessGroupEntry := AccessGroupKeyToAccessGroupEntry bav;
     GroupMembershipKeyToAccessGroupMember := GroupMembershipKeyToAccessGroupMember bav;
     GroupMemberAttributes := GroupMemberAttributes bav;
     GroupEntryAttributes := m;
     BasicTransferView := BasicTransferView bav |}.

Definition withBasicTransferView {B} (b : B) (bav : UtxoView B) : UtxoView B :=
  {| AccessGroupKeyToAccessGroupEntry := AccessGroupKeyToAccessGroupEntry bav;
     GroupMembershipKeyToAccessGroupMember := GroupMembershipKeyToAccessGroupMember bav;
     GroupMemberAttributes := GroupMemberAttributes bav;
     GroupEntryAttributes := GroupEntryAttributes bav;
     BasicTransferView := b |}.

(** ** The registry, the membership index and the attribute indexes *)

Section Registry.
Context {B : Type} (env : Collaborators B).

Definition _setGroupMembershipKeyToAccessGroupMemberMapping
    (accessGroupMember : option AccessGroupMember)
    (groupOwnerPublicKey : PublicKey) (groupKeyName : GroupKeyName)
    (bav : UtxoView B) : UtxoView B :=
  match accessGroupMember with
  | None => bav
  | Some member =>
      let groupMembershipKey :=
        NewGroupMembershipKey (GroupMemberPublicKey member) groupOwnerPublicKey groupKeyName in
      withGroupMembershipKeyToAccessGroupMember
        (<[groupMembershipKey := member]> (GroupMembershipKeyToAccessGroupMember bav)) bav
  end.

Definition GetAccessGroupMember (memberPublicKey groupOwnerPublicKey : option PublicKey)
    (groupKeyName : option GroupKeyName) (blockHeight : N)
    (bav : UtxoView B) : UtxoView B * option AccessGroupMember :=
  match memberPublicKey, groupOwnerPublicKey, groupKeyName with
  | Some memberPublicKey, Some groupOwnerPublicKey, Some groupKeyName =>
      let groupMembershipKey :=
        NewGroupMembershipKey memberPublicKey groupOwnerPublicKey groupKeyName in
      match GroupMembershipKeyToAccessGroupMember bav !! groupMembershipKey with
      | Some mapValue => (bav, Some mapValue)
      | None =>
          match DBGetMemberFromMembershipIndex env memberPublicKey groupOwnerPublicKey
                  groupKeyName with
          | Some accessGroupMember =>
              (_setGroupMembershipKeyToAccessGroupMemberMapping (Some accessGroupMember)
                 groupOwnerPublicKey groupKeyName bav,
               Some accessGroupMember)
          | None => (bav, None)
          end
      end
  | _, _, _ => (bav, None)
  end.

Definition _setAccessGroupMember (groupOwnerPublicKey : option PublicKey)
    (groupKeyName : option GroupKeyName) (accessGroupMember : option AccessGroupMember)
    (blockHeight : N) (bav : UtxoView B) : UtxoView B :=
  match accessGroupMember, groupOwnerPublicKey, groupKeyName with
  | Some member, Some groupOwnerPublicKey, Some groupKeyName =>
      _setGroupMembershipKeyToAccessGroupMemberMapping (Some member)
        groupOwnerPublicKey groupKeyName bav
  | _, _, _ => bav
  end.

(** [tombstoneAccessGroupMember := *accessGroupMember] with [isDeleted] set. *)
Definition tombstoneAccessGroupMember (member : AccessGroupMember) : AccessGroupMember :=
  {| GroupMemberPublicKey := GroupMemberPublicKey member;
     GroupMemberKeyName := GroupMemberKeyName member;
     EncryptedKey := EncryptedKey member;
     IsMuted := IsMuted member;
     agmIsDeleted := true |}.

Definition _deleteAccessGroupMember (accessGroupMember : option AccessGroupMember)
    (groupOwnerPublicKey : option PublicKey) (groupKeyName : option GroupKeyName)
    (bav : UtxoView B) : UtxoView B :=
  match accessGroupMember, groupOwnerPublicKey, groupKeyName with
  | Some member, Some groupOwnerPublicKey, Some groupKeyName =>
      _setGroupMembershipKeyToAccessGroupMemberMapping
        (Some (tombstoneAccessGroupMember member)) groupOwnerPublicKey groupKeyName bav
  | _, _, _ => bav
  end.

Definition _setAccessGroupKeyToAccessGroupEntryMapping (ownerPublicKey : PublicKey)
    (accessGroupEntry : option AccessGroupEntry) (bav : UtxoView B) : UtxoView B :=
  match accessGroupEntry with
  | None => bav
  | Some entry =>
      let accessKey :=
        {| OwnerPublicKey := ownerPublicKey;
           agkGroupKeyName := AccessGroupKeyName entry |} in
      withAccessGroupKeyToAccessGroupEntry
        (<[accessKey := entry]> (AccessGroupKeyToAccessGroupEntry bav)) bav
  end.

(** [tombstoneAccessGroupEntry := *accessGroupEntry] with [isDeleted] set. *)
Definition tombstoneAccessGroupEntry (accessGroupEntry : AccessGroupEntry) : AccessGroupEntry :=
  {| GroupOwnerPublicKey := GroupOwnerPublicKey accessGroupEntry;
     AccessPublicKey := AccessPublicKey accessGroupEntry;
     AccessGroupKeyName := AccessGroupKeyName accessGroupEntry;
     DEPRECATED_AccessGroupMembers := DEPRECATED_AccessGroupMembers accessGroupEntry;
     ExtraData := ExtraData accessGroupEntry;
     BlockHeightCreated := BlockHeightCreated accessGroupEntry;
     ageIsDeleted := true |}.

Definition _deleteAccessGroupKeyToAccessGroupEntryMapping (ownerPublicKey : PublicKey)
    (accessGroupEntry : AccessGroupEntry) (bav : UtxoView B) : UtxoView B :=
  _setAccessGroupKeyToAccessGroupEntryMapping ownerPublicKey
    (Some (tombstoneAccessGroupEntry accessGroupEntry)) bav.

(** [&AccessGroupEntry{GroupOwnerPublicKey: pk, AccessPublicKey: pk,
    AccessGroupKeyName: BaseGroupKeyName()}]: the entry that every owner has
    under the base name. *)
Definition baseGroupEntry (ownerPublicKey : PublicKey) : AccessGroupEntry :=
  {| GroupOwnerPublicKey := NewPublicKey ownerPublicKey;
     AccessPublicKey := NewPublicKey ownerPublicKey;
     AccessGroupKeyName := BaseGroupKeyName;
     DEPRECATED_AccessGroupMembers := [];
     ExtraData := ∅;
     BlockHeightCreated := 0%N;
     ageIsDeleted := false |}.

Definition GetAccessGroupKeyToAccessGroupEntryMapping (accessGroupKey : AccessGroupKey)
    (bav : UtxoView B) : UtxoView B * option AccessGroupEntry :=
  if EqualGroupKeyName (agkGroupKeyName accessGroupKey) BaseGroupKeyName then
    (bav, Some (baseGroupEntry (OwnerPublicKey accessGroupKey)))
  else
    match AccessGroupKeyToAccessGroupEntry bav !! accessGroupKey with
    | Some mapValue => (bav, Some mapValue)
    | None =>
        match DBGetAccessGroupEntry env accessGroupKey with
        | Some accessGroupEntry =>
            (_setAccessGroupKeyToAccessGroupEntryMapping (OwnerPublicKey accessGroupKey)
               (Some accessGroupEntry) bav,
             Some accessGroupEntry)
        | None => (bav, None)
        end
    end.

Definition GetAccessGroupEntry (memberPublicKey groupOwnerPublicKey : option PublicKey)
    (groupKeyName : option GroupKeyName) (blockHeight : N)
    (bav : UtxoView B) : UtxoView B * option AccessGroupEntry :=
  match memberPublicKey, groupOwnerPublicKey, groupKeyName with
  | Some memberPublicKey, Some groupOwnerPublicKey, Some groupKeyName =>
      let accessGroupKey := NewAccessGroupKey groupOwnerPublicKey groupKeyName in
      match AccessGroupKeyToAccessGroupEntry bav !! accessGroupKey with
      | Some mapValue => (bav, Some mapValue)
      | None => GetAccessGroupKeyToAccessGroupEntryMapping accessGroupKey bav
      end
  | _, _, _ => (bav, None)
  end.

Definition GetAccessGroupForAccessGroupKeyExistence (accessGroupKey : option AccessGroupKey)
    (blockHeight : N) (bav : UtxoView B) : UtxoView B * option AccessGroupEntry :=
  match accessGroupKey with
  | None => (bav, None)
  | Some accessGroupKey =>
      let ownerPublicKey := OwnerPublicKey accessGroupKey in
      let groupKeyName := agkGroupKeyName accessGroupKey in
      let '(bav', entry) :=
        GetAccessGroupEntry (Some ownerPublicKey) (Some ownerPublicKey)
          (Some groupKeyName) blockHeight bav in
      match entry with
      | None => (bav', None)
      | Some e => if ageIsDeleted e then (bav', None) else (bav', Some e)
      end
  end.

Definition ValidateGroupPublicKeyAndName (accessPublicKey keyName : list byte)
  : option error :=
  match IsByteArrayValidPublicKey env accessPublicKey with
  | Some cause => Some (ExternalError cause)
  | None =>
      if Nat.ltb (length keyName) MinAccessKeyNameCharacters then
        Some (Rule RuleErrorAccessKeyNameTooShort)
      else if Nat.ltb MaxAccessKeyNameCharacters (length keyName) then
        Some (Rule RuleErrorAccessKeyNameTooLong)
      else None
  end.

(** lib/block_view_access_group_member_attributes.go *)

(** [bav.GroupMemberAttributes[*enumerationKey][attributeType]]: a missing
    inner map reads as empty. *)
Definition memberAttribute (bav : UtxoView B) (enumerationKey : GroupEnumerationKey)
    (attributeType : N) : option AttributeEntry :=
  GroupMemberAttributes bav !! enumerationKey ≫= (λ inner, inner !! attributeType).

Definition GetGroupMemberAttributeEntry (enumerationKey : GroupEnumerationKey)
    (attributeType : N) (bav : UtxoView B) : outcome (option AttributeEntry) :=
  match memberAttribute bav enumerationKey attributeType with
  | Some attributeEntry => Return (Some attributeEntry)
  | None =>
      match DBGetAttributeEntryInGroupMemberAttributesIndex env
              (gekGroupOwnerPublicKey enumerationKey) (gekGroupKeyName enumerationKey)
              (gekGroupMemberPublicKey enumerationKey) attributeType with
      | inl cause => Fail (ExternalError cause)
      | inr attributeEntry => Return attributeEntry
      end
  end.

Definition _setGroupMemberAttributeMapping (enumerationKey : GroupEnumerationKey)
    (attributeType : N) (attributeEntry : AttributeEntry)
    (bav : UtxoView B) : UtxoView B :=
  let inner := default ∅ (GroupMemberAttributes bav !! enumerationKey) in
  withGroupMemberAttributes
    (<[enumerationKey := <[attributeType := attributeEntry]> inner]>
       (GroupMemberAttributes bav)) bav.

Definition _deleteGroupMemberAttributeMapping (enumerationKey : option GroupEnumerationKey)
    (attributeType : N) (attributeEntry : option AttributeEntry)
    (bav : UtxoView B) : UtxoView B :=
  match enumerationKey, attributeEntry with
  | Some enumerationKey, Some attributeEntry =>
      let tombstoneEntry :=
        {| IsSet := IsSet attributeEntry; Value := Value attributeEntry;
           attrIsDeleted := true |} in
      _setGroupMemberAttributeMapping enumerationKey attributeType tombstoneEntry bav
  | _, _ => bav
  end.

(** lib/block_view_access_group_entry_attributes.go *)

(** [bav.GroupEntryAttributes[*accessGroupKey][attributeType]]. *)
Definition groupAttribute (bav : UtxoView B) (accessGroupKey : AccessGroupKey)
    (attributeType : N) : option AttributeEntry :=
  GroupEntryAttributes bav !! accessGroupKey ≫= (λ inner, inner !! attributeType).

Definition GetGroupEntryAttributeEntry (groupOwnerPublicKey : PublicKey)
    (groupKeyName : GroupKeyName) (attributeType : N)
    (bav : UtxoView B) : outcome (option AttributeEntry) :=
  let accessGroupKey := NewAccessGroupKey groupOwnerPublicKey groupKeyName in
  match groupAttribute bav accessGroupKey attributeType with
  | Some attributeEntry => Return (Some attributeEntry)
  | None =>
      match DBGetAttributeEntryInGroupEntryAttributesIndex env groupOwnerPublicKey
              groupKeyName attributeType with
      | inl cause => Fail (ExternalError cause)
      | inr attributeEntry => Return attributeEntry
      end
  end.

Definition _setGroupEntryAttributeMapping (accessGroupKey : AccessGroupKey)
    (attributeType : N) (attributeEntry : AttributeEntry)
    (bav : UtxoView B) : UtxoView B :=
  let inner := default ∅ (GroupEntryAttributes bav !! accessGroupKey) in
  withGroupEntryAttributes
    (<[accessGroupKey := <[attributeType := attributeEntry]> inner]>
       (GroupEntryAttributes bav)) bav.

Definition _deleteGroupEntryAttributeMapping (accessGroupKey : AccessGroupKey)
    (attributeType : N) (attributeEntry : option AttributeEntry)
    (bav : UtxoView B) : UtxoView B :=
  match attributeEntry with
  | Some attributeEntry =>
      let tombstoneEntry :=
        {| IsSet := IsSet attributeEntry; Value := Value attributeEntry;
           attrIsDeleted := true |} in
      _setGroupEntryAttributeMapping accessGroupKey attributeType tombstoneEntry bav
  | None => bav
  end.

End Registry.

(** ** Connect and disconnect *)

Section Connect.
Context {B : Type} (env : Collaborators B).

(** [bav._connectBasicTransfer(txn, txHash, blockHeight, verifySignatures)] on
    its part of the view. *)
Definition connectBasicTransfer (txn : MsgDeSoTxn) (txHash : list byte) (blockHeight : N)
    (verifySignatures : bool) : View B (N * N * list UtxoOperation) :=
  λ bav,
    let '(b, r) := _connectBasicTransfer env txn txHash blockHeight verifySignatures
                     (BasicTransferView bav) in
    (withBasicTransferView b bav,
     match r with
     | inl cause => Fail (ExternalError cause)
     | inr totals => Return totals
     end).

Definition disconnectBasicTransfer (currentTxn : MsgDeSoTxn) (txnHash : list byte)
    (utxoOpsForTxn : list UtxoOperation) (blockHeight : N) : View B unit :=
  λ bav,
    let '(b, err) := _disconnectBasicTransfer env currentTxn txnHash utxoOpsForTxn blockHeight
                       (BasicTransferView bav) in
    (withBasicTransferView b bav,
     match err with
     | Some cause => Fail (ExternalError cause)
     | None => Return tt
     end).

(** *** AccessGroupAttributes *)

(** The operation record of an attribute transaction. *)
Definition attributesUtxoOperation (holder : AccessGroupAttributeHolder)
    (holderKey : AttributeHolderKey) (operationType : AccessGroupAttributeOperationType)
    (attributeType : N) (attributeValue : list byte) : UtxoOperation :=
  {| Type_ := OperationTypeAccessGroupAttributes;
     PrevAccessKeyEntry := None;
     PrevAccessGroupMembers := [];
     PrevAccessGroupAttributeHolder := holder;
     PrevAttributeHolderKey := holderKey;
     PrevAccessGroupAttributeOperationType := operationType;
     PrevAttributeType := attributeType;
     PrevAttributeValue := attributeValue |}.

(** The switch on [txMeta.AccessGroupAttributeOperationType] in the member
    case of [_connectAccessGroupAttributes], behind the owner check: the write
    and the operation record appended to the records of the basic transfer. *)
Definition connectMemberAttributeOperation (txMeta : AccessGroupAttributesMetadata)
    (enumerationKey : GroupEnumerationKey) (utxoOpsForTxn : list UtxoOperation)
  : View B (list UtxoOperation) :=
  match AccessGroupAttributeOperationType_ txMeta with
  | AccessGroupAttributeOperationTypeAdd =>
      update (_setGroupMemberAttributeMapping enumerationKey (AttributeType txMeta)
                (NewAttributeEntry true (AttributeValue txMeta)));;
      mret (utxoOpsForTxn ++
            [attributesUtxoOperation AccessGroupAttributeHolderMember
               (HolderGroupEnumerationKey enumerationKey)
               AccessGroupAttributeOperationTypeAdd
               (AttributeType txMeta) (AttributeValue txMeta)])
  | AccessGroupAttributeOperationTypeRemove =>
      update (_setGroupMemberAttributeMapping enumerationKey (AttributeType txMeta)
                (NewAttributeEntry false (AttributeValue txMeta)));;
      mret (utxoOpsForTxn ++
            [attributesUtxoOperation AccessGroupAttributeHolderMember
               (HolderGroupEnumerationKey enumerationKey)
               AccessGroupAttributeOperationTypeRemove
               (AttributeType txMeta) (AttributeValue txMeta)])
  | AccessGroupAttributeOperationTypeOther _ =>
      fail (Rule RuleErrorAccessGroupAttributesInvalidOperationType)
  end.

(** The same switch in the group case. *)
Definition connectGroupAttributeOperation (txMeta : AccessGroupAttributesMetadata)
    (accessGroupKey : AccessGroupKey) (utxoOpsForTxn : list UtxoOperation)
  : View B (list UtxoOperation) :=
  match AccessGroupAttributeOperationType_ txMeta with
  | AccessGroupAttributeOperationTypeAdd =>
      update (_setGroupEntryAttributeMapping accessGroupKey (AttributeType txMeta)
                (NewAttributeEntry true (AttributeValue txMeta)));;
      mret (utxoOpsForTxn ++
            [attributesUtxoOperation AccessGroupAttributeHolderGroup
               (HolderAccessGroupKey accessGroupKey)
               AccessGroupAttributeOperationTypeAdd
               (AttributeType txMeta) (AttributeValue txMeta)])
  | AccessGroupAttributeOperationTypeRemove =>
      update (_setGroupEntryAttributeMapping accessGroupKey (AttributeType txMeta)
                (NewAttributeEntry false (AttributeValue txMeta)));;
      mret (utxoOpsForTxn ++
            [attributesUtxoOperation AccessGroupAttributeHolderGroup
               (HolderAccessGroupKey accessGroupKey)
               AccessGroupAttributeOperationTypeRemove
               (AttributeType txMeta) (AttributeValue txMeta)])
  | AccessGroupAttributeOperationTypeOther _ =>
      fail (Rule RuleErrorAccessGroupAttributesInvalidOperationType)
  end.

(** The owner check takes the address of the owner field of the holder key,
    [groupOwnerPublicKey := &key.GroupOwnerPublicKey] (for a group,
    [&key.OwnerPublicKey]), and tests
    [!reflect.DeepEqual(groupOwnerPublicKey, txn.PublicKey)]: a [*PublicKey]
    against the [[]byte] of the transaction. *)
Definition _connectAccessGroupAttributes (txn : MsgDeSoTxn) (txHash : list byte)
    (blockHeight : N) (verifySignatures : bool) : View B (N * N * list UtxoOperation) :=
  failIf (blockHeight <? DeSoV3MessagesBlockHeight env)%N
         (Rule RuleErrorAccessGroupsBeforeBlockHeight);;
  match TxnMeta txn with
  | AccessGroupAttributesTxnMeta txMeta =>
      '(totalInput, totalOutput, utxoOpsForTxn) ←
        connectBasicTransfer txn txHash blockHeight verifySignatures;
      match AttributeHolderKey_ txMeta with
      | HolderGroupEnumerationKey enumerationKey =>
          failIf (negb (bool_decide (AccessGroupAttributeHolder_ txMeta
                                     = AccessGroupAttributeHolderMember)))
                 (Rule RuleErrorAccessGroupAttributesInvalidAttributeHolder);;
          let groupOwnerPublicKey :=
            PublicKeyPointer (gekGroupOwnerPublicKey enumerationKey) in
          failIf (negb (DeepEqual groupOwnerPublicKey (ByteSlice (txnPublicKey txn))))
                 (Rule RuleErrorAccessGroupAttributesOperationDenied);;
          utxoOpsForTxn ← connectMemberAttributeOperation txMeta enumerationKey utxoOpsForTxn;
          mret (totalInput, totalOutput, utxoOpsForTxn)
      | HolderAccessGroupKey accessGroupKey =>
          failIf (negb (bool_decide (AccessGroupAttributeHolder_ txMeta
                                     = AccessGroupAttributeHolderGroup)))
                 (Rule RuleErrorAccessGroupAttributesInvalidAttributeHolder);;
          let groupOwnerPublicKey := PublicKeyPointer (OwnerPublicKey accessGroupKey) in
          failIf (negb (DeepEqual groupOwnerPublicKey (ByteSlice (txnPublicKey txn))))
                 (Rule RuleErrorAccessGroupAttributesOperationDenied);;
          utxoOpsForTxn ← connectGroupAttributeOperation txMeta accessGroupKey utxoOpsForTxn;
          mret (totalInput, totalOutput, utxoOpsForTxn)
      | HolderOther => fail (FmtErrorf "_connectAccessGroupAttributes")
      end
  | _ => fail (FmtErrorf "_connectAccessGroupAttributes")
  end.

(** The type assertions of [txMeta.AttributeHolderKey] to a
    [*GroupEnumerationKey] and to an [*AccessGroupKey]: a failed assertion
    panics. *)
Definition assertGroupEnumerationKey (k : AttributeHolderKey) : View B GroupEnumerationKey :=
  match k with
  | HolderGroupEnumerationKey enumerationKey => mret enumerationKey
  | _ => fail GoPanic
  end.

Definition assertAccessGroupKey (k : AttributeHolderKey) : View B AccessGroupKey :=
  match k with
  | HolderAccessGroupKey accessGroupKey => mret accessGroupKey
  | _ => fail GoPanic
  end.

Definition _disconnectAccessGroupAttributes (operationType : OperationType)
    (currentTxn : MsgDeSoTxn) (txnHash : list byte) (utxoOpsForTxn : list UtxoOperation)
    (blockHeight : N) : View B unit :=
  match last utxoOpsForTxn with
  | None => fail (FmtErrorf "_disconnectAccessGroupAttributes")
  | Some prevUtxoOp =>
      failIf (negb (bool_decide (Type_ prevUtxoOp = OperationTypeAccessGroupAttributes))
              || negb (bool_decide (operationType = OperationTypeAccessGroupAttributes)))
             (FmtErrorf "_disconnectAccessGroupAttributes");;
      match TxnMeta currentTxn with
      | AccessGroupAttributesTxnMeta txMeta =>
          failIf (negb (bool_decide (AccessGroupAttributeHolder_ txMeta
                                     = PrevAccessGroupAttributeHolder prevUtxoOp)))
                 (FmtErrorf "_disconnectAccessGroupAttributes");;
          failIf (negb (bool_decide (AccessGroupAttributeOperationType_ txMeta
                                     = PrevAccessGroupAttributeOperationType prevUtxoOp)))
                 (FmtErrorf "_disconnectAccessGroupAttributes");;
          failIf (negb (bool_decide (AttributeType txMeta = PrevAttributeType prevUtxoOp)))
                 (FmtErrorf "_disconnectAccessGroupAttributes");;
          failIf (negb (bool_decide (AttributeValue txMeta = PrevAttributeValue prevUtxoOp)))
                 (FmtErrorf "_disconnectAccessGroupAttributes");;
          match PrevAttributeHolderKey prevUtxoOp with
          | HolderGroupEnumerationKey prevEnumerationKey =>
              failIf (negb (bool_decide (PrevAccessGroupAttributeHolder prevUtxoOp
                                         = AccessGroupAttributeHolderMember)))
                     (FmtErrorf "_disconnectAccessGroupAttributes");;
              txKey ← assertGroupEnumerationKey (AttributeHolderKey_ txMeta);
              failIf (negb (DeepEqual
                              (PublicKeyArray (gekGroupOwnerPublicKey prevEnumerationKey))
                              (PublicKeyArray (gekGroupOwnerPublicKey txKey))))
                     (FmtErrorf "_disconnectAccessGroupAttributes");;
              failIf (negb (DeepEqual
                              (GroupKeyNameArray (gekGroupKeyName prevEnumerationKey))
                              (GroupKeyNameArray (gekGroupKeyName txKey))))
                     (FmtErrorf "_disconnectAccessGroupAttributes");;
              failIf (negb (DeepEqual
                              (PublicKeyArray (gekGroupMemberPublicKey prevEnumerationKey))
                              (PublicKeyArray (gekGroupMemberPublicKey txKey))))
                     (FmtErrorf "_disconnectAccessGroupAttributes");;
              match PrevAccessGroupAttributeOperationType prevUtxoOp with
              | AccessGroupAttributeOperationTypeAdd =>
                  let attributeEntry :=
                    NewAttributeEntry true (PrevAttributeValue prevUtxoOp) in
                  update (_deleteGroupMemberAttributeMapping (Some prevEnumerationKey)
                            (PrevAttributeType prevUtxoOp) (Some attributeEntry))
              | AccessGroupAttributeOperationTypeRemove =>
                  let attributeEntry :=
                    NewAttributeEntry true (PrevAttributeValue prevUtxoOp) in
                  let attributeEntry :=
                    {| IsSet := IsSet attributeEntry; Value := Value attributeEntry;
                       attrIsDeleted := false |} in
                  update (_setGroupMemberAttributeMapping prevEnumerationKey
                            (PrevAttributeType prevUtxoOp) attributeEntry)
              | AccessGroupAttributeOperationTypeOther _ =>
                  fail (FmtErrorf "_disconnectAccessGroupAttributes")
              end
          | HolderAccessGroupKey prevAccessGroupKey =>
              failIf (negb (bool_decide (PrevAccessGroupAttributeHolder prevUtxoOp
                                         = AccessGroupAttributeHolderGroup)))
                     (FmtErrorf "_disconnectAccessGroupAttributes");;
              txKey ← assertAccessGroupKey (AttributeHolderKey_ txMeta);
              failIf (negb (DeepEqual
                              (PublicKeyArray (OwnerPublicKey prevAccessGroupKey))
                              (PublicKeyArray (OwnerPublicKey txKey))))
                     (FmtErrorf "_disconnectAccessGroupAttributes");;
              failIf (negb (DeepEqual
                              (GroupKeyNameArray (agkGroupKeyName prevAccessGroupKey))
                              (GroupKeyNameArray (agkGroupKeyName txKey))))
                     (FmtErrorf "_disconnectAccessGroupAttributes");;
              match PrevAccessGroupAttributeOperationType prevUtxoOp with
              | AccessGroupAttributeOperationTypeAdd =>
                  let attributeEntry :=
                    NewAttributeEntry true (PrevAttributeValue prevUtxoOp) in
                  update (_deleteGroupEntryAttributeMapping prevAccessGroupKey
                            (PrevAttributeType prevUtxoOp) (Some attributeEntry))
              | AccessGroupAttributeOperationTypeRemove =>
                  let attributeEntry :=
                    NewAttributeEntry true (PrevAttributeValue prevUtxoOp) in
                  let attributeEntry :=
                    {| IsSet := IsSet attributeEntry; Value := Value attributeEntry;
                       attrIsDeleted := false |} in
                  update (_setGroupEntryAttributeMapping prevAccessGroupKey
                            (PrevAttributeType prevUtxoOp) attributeEntry)
              | AccessGroupAttributeOperationTypeOther _ =>
                  fail (FmtErrorf "_disconnectAccessGroupAttributes")
              end
          | HolderOther => fail (FmtErrorf "_disconnectAccessGroupAttributes")
          end;;
          let operationIndex := (length utxoOpsForTxn - 1)%nat in
          disconnectBasicTransfer currentTxn txnHash (take operationIndex utxoOpsForTxn)
            blockHeight
      | _ => fail GoPanic
      end
  end.

(** *** The member checks shared by the connects *)

(** [if err := f(); err != nil { return ..., errors.Wrapf(err, ...) }] for a
    check of this file. *)
Definition failWith (err : option error) : View B unit :=
  match err with
  | Some e => fail e
  | None => mret tt
  end.

(** [e != nil && !e.isDeleted], handing the entry on when it holds. *)
Definition notDeleted (e : option AccessGroupEntry) : option AccessGroupEntry :=
  match e with
  | Some entry => if ageIsDeleted entry then None else Some entry
  | None => None
  end.

(** The body of the loop "Validate all members" as it stands in the branch at
    or above the access-groups height of [_connectAccessGroupCreate] and in
    [_connectAccessGroupMembers]: key length, key and name format, and the
    member's own access group; the member is appended to [newAccessMembers]. *)
Fixpoint validateAccessMembers (accessGroupMembers newAccessMembers : list (option AccessGroupMember))
  : View B (list (option AccessGroupMember)) :=
  match accessGroupMembers with
  | [] => mret newAccessMembers
  | accessMember :: rest =>
      member ← deref accessMember;
      failIf (Nat.ltb (length (EncryptedKey member)) PrivKeyBytesLen)
             (Rule RuleErrorAccessMemberEncryptedKeyTooShort);;
      failWith (ValidateGroupPublicKeyAndName env (GroupMemberPublicKey member)
                  (GroupMemberKeyName member));;
      let memberAccessGroupKey :=
        NewAccessGroupKey (GroupMemberPublicKey member) (GroupMemberKeyName member) in
      memberGroupEntry ← call (GetAccessGroupKeyToAccessGroupEntryMapping env memberAccessGroupKey);
      match notDeleted memberGroupEntry with
      | None => fail (Rule RuleErrorAccessMemberKeyDoesntExist)
      | Some _ => validateAccessMembers rest (newAccessMembers ++ [accessMember])
      end
  end.

(** The loop over [existingEntry.DEPRECATED_AccessGroupMembers] below the
    access-groups height: no existing member may repeat, nor be the access
    public key, which [existingMembers] holds from the start. *)
Fixpoint collectExistingMembers (existing : list (option AccessGroupMember))
    (existingMembers : gmap PublicKey bool) (newAccessMembers : list (option AccessGroupMember))
  : View B (gmap PublicKey bool * list (option AccessGroupMember)) :=
  match existing with
  | [] => mret (existingMembers, newAccessMembers)
  | existingMember :: rest =>
      member ← deref existingMember;
      match existingMembers !! GroupMemberPublicKey member with
      | Some _ => fail (Rule RuleErrorAccessMemberAlreadyExists)
      | None =>
          collectExistingMembers rest
            (<[GroupMemberPublicKey member := true]> existingMembers)
            (newAccessMembers ++ [existingMember])
      end
  end.

(** "Validate all members" below the access-groups height: the checks of
    [validateAccessMembers] and then the test against [existingMembers]. *)
Fixpoint validateAccessMembersLegacy (accessGroupMembers : list (option AccessGroupMember))
    (existingMembers : gmap PublicKey bool) (newAccessMembers : list (option AccessGroupMember))
  : View B (list (option AccessGroupMember)) :=
  match accessGroupMembers with
  | [] => mret newAccessMembers
  | accessMember :: rest =>
      member ← deref accessMember;
      failIf (Nat.ltb (length (EncryptedKey member)) PrivKeyBytesLen)
             (Rule RuleErrorAccessMemberEncryptedKeyTooShort);;
      failWith (ValidateGroupPublicKeyAndName env (GroupMemberPublicKey member)
                  (GroupMemberKeyName member));;
      let memberAccessGroupKey :=
        NewAccessGroupKey (GroupMemberPublicKey member) (GroupMemberKeyName member) in
      memberGroupEntry ← call (GetAccessGroupKeyToAccessGroupEntryMapping env memberAccessGroupKey);
      match notDeleted memberGroupEntry with
      | None => fail (Rule RuleErrorAccessMemberKeyDoesntExist)
      | Some _ =>
          match existingMembers !! GroupMemberPublicKey member with
          | Some _ => fail (Rule RuleErrorAccessMemberAlreadyExists)
          | None =>
              validateAccessMembersLegacy rest
                (<[GroupMemberPublicKey member := true]> existingMembers)
                (newAccessMembers ++ [accessMember])
          end
      end
  end.

(** The owner and the access public key that index the group: the curve base
    point as access public key marks an unencrypted group, owned by the base
    point, with the access public key derived from the name. *)
Definition accessGroupKeyAndPublicKey (txnPublicKey' accessPublicKey accessGroupKeyName : list byte)
  : AccessGroupKey * PublicKey :=
  if DeepEqual (ByteSlice accessPublicKey) (ByteSlice (GetS256BasePointCompressed env)) then
    (NewAccessGroupKey (NewPublicKey (GetS256BasePointCompressed env)) accessGroupKeyName,
     NewPublicKey (PublicKeyFromSha256DoubleHash env accessGroupKeyName))
  else
    (NewAccessGroupKey (NewPublicKey txnPublicKey') accessGroupKeyName,
     NewPublicKey accessPublicKey).

(** *** AccessGroupMembers *)

Definition _connectAccessGroupMembers (txn : MsgDeSoTxn) (txHash : list byte)
    (blockHeight : N) (verifySignatures : bool) : View B (N * N * list UtxoOperation) :=
  failIf (blockHeight <? DeSoV3MessagesBlockHeight env)%N
         (Rule RuleErrorAccessGroupsBeforeBlockHeight);;
  match TxnMeta txn with
  | AccessGroupMembersTxnMeta txMeta =>
      failIf (EqualGroupKeyName (NewGroupKeyName (agmAccessGroupKeyName txMeta))
                BaseGroupKeyName)
             (Rule RuleErrorAccessKeyNameCannotBeZeros);;
      failWith (ValidateGroupPublicKeyAndName env (agmAccessPublicKey txMeta)
                  (agmAccessGroupKeyName txMeta));;
      failOn (IsByteArrayValidPublicKey env (txnPublicKey txn));;
      failIf (DeepEqual (ByteSlice (agmAccessPublicKey txMeta)) (ByteSlice (txnPublicKey txn)))
             (Rule RuleErrorAccessPublicKeyCannotBeOwnerKey);;
      '(totalInput, totalOutput, utxoOpsForTxn) ←
        connectBasicTransfer txn txHash blockHeight verifySignatures;
      let '(accessGroupKey, accessPublicKey) :=
        accessGroupKeyAndPublicKey (txnPublicKey txn) (agmAccessPublicKey txMeta)
          (agmAccessGroupKeyName txMeta) in
      existingEntry ← call (GetAccessGroupKeyToAccessGroupEntryMapping env accessGroupKey);
      match notDeleted existingEntry with
      | None => fail (Rule RuleErrorAccessKeyDoesntExist)
      | Some existingEntry =>
          failIf (negb (DeepEqual (ByteSlice (AccessPublicKey existingEntry))
                                  (ByteSlice accessPublicKey)))
                 (Rule RuleErrorAccessPublicKeyCannotBeDifferent);;
          newAccessMembers ←
            match AccessGroupMemberOperationType_ txMeta with
            | AccessGroupMemberOperationTypeAdd =>
                validateAccessMembers (agmAccessGroupMembers txMeta) []
            | AccessGroupMemberOperationTypeRemove =>
                fail (Rule RuleErrorAccessGroupMemberOperationTypeNotSupported)
            | AccessGroupMemberOperationTypeOther _ =>
                fail (Rule RuleErrorAccessGroupMemberOperationTypeNotSupported)
            end;
          update (λ bav,
            foldl (λ bav accessMember,
                     _setAccessGroupMember (Some (GroupOwnerPublicKey existingEntry))
                       (Some (AccessGroupKeyName existingEntry)) accessMember blockHeight bav)
                  bav newAccessMembers);;
          mret (totalInput, totalOutput,
                utxoOpsForTxn ++
                [{| Type_ := OperationTypeAccessGroupMembers;
                    PrevAccessKeyEntry := None;
                    PrevAccessGroupMembers := newAccessMembers;
                    PrevAccessGroupAttributeHolder := AccessGroupAttributeHolderOther 0;
                    PrevAttributeHolderKey := HolderOther;
                    PrevAccessGroupAttributeOperationType :=
                      AccessGroupAttributeOperationTypeOther 0;
                    PrevAttributeType := 0%N;
                    PrevAttributeValue := [] |}])
      end
  | _ => fail (FmtErrorf "_connectAccessGroupMembers")
  end.

(** The loop of [_disconnectAccessGroupMembers] over the sorted members of the
    transaction, [prevAccessGroupMembers] being the sorted members of the
    operation record, of the same length. *)
Fixpoint disconnectAccessGroupMembersLoop (groupOwnerPublicKey accessGroupKeyName : list byte)
    (blockHeight : N)
    (accessGroupMembers prevAccessGroupMembers : list (option AccessGroupMember))
  : View B unit :=
  match accessGroupMembers, prevAccessGroupMembers with
  | accessMember :: rest, prevMember :: prevRest =>
      match accessMember with
      | None => fail (FmtErrorf "_disconnectAccessGroupMembers")
      | Some member =>
          failIf (agmIsDeleted member) (FmtErrorf "_disconnectAccessGroupMembers");;
          match prevMember with
          | Some prev =>
              failIf (negb (DeepEqual (PublicKeyPointer (GroupMemberPublicKey member))
                                      (PublicKeyPointer (GroupMemberPublicKey prev)))
                      || negb (DeepEqual (GroupKeyNamePointer (GroupMemberKeyName member))
                                         (GroupKeyNamePointer (GroupMemberKeyName prev)))
                      || negb (bool_decide (EncryptedKey member = EncryptedKey prev)))
                     (FmtErrorf "_disconnectAccessGroupMembers")
          | None => mret tt
          end;;
          update (_deleteAccessGroupMember accessMember
                    (Some (NewPublicKey groupOwnerPublicKey))
                    (Some (NewGroupKeyName accessGroupKeyName)));;
          match prevMember with
          | Some _ =>
              update (_setAccessGroupMember (Some (NewPublicKey groupOwnerPublicKey))
                        (Some (NewGroupKeyName accessGroupKeyName)) prevMember blockHeight)
          | None => mret tt
          end;;
          disconnectAccessGroupMembersLoop groupOwnerPublicKey accessGroupKeyName blockHeight
            rest prevRest
      end
  | _, _ => mret tt
  end.

Definition _disconnectAccessGroupMembers (operationType : OperationType)
    (currentTxn : MsgDeSoTxn) (txnHash : list byte) (utxoOpsForTxn : list UtxoOperation)
    (blockHeight : N) : View B unit :=
  match last utxoOpsForTxn with
  | None => fail (FmtErrorf "_disconnectAccessGroupMembers")
  | Some accessGroupMembersOp =>
      failIf (negb (bool_decide (Type_ accessGroupMembersOp = OperationTypeAccessGroupMembers))
              || negb (bool_decide (operationType = OperationTypeAccessGroupMembers)))
             (FmtErrorf "_disconnectAccessGroupMembers");;
      match TxnMeta currentTxn with
      | AccessGroupMembersTxnMeta txMeta =>
          let groupOwnerPublicKey := txnPublicKey currentTxn in
          failWith (ValidateGroupPublicKeyAndName env (agmAccessPublicKey txMeta)
                      (agmAccessGroupKeyName txMeta));;
          let accessGroupMembers :=
            sortAccessGroupMembers env (agmAccessGroupMembers txMeta) in
          let prevAccessGroupMembers :=
            sortAccessGroupMembers env (PrevAccessGroupMembers accessGroupMembersOp) in
          failIf (negb (bool_decide (length accessGroupMembers = length prevAccessGroupMembers)))
                 (FmtErrorf "_disconnectAccessGroupMembers");;
          disconnectAccessGroupMembersLoop groupOwnerPublicKey (agmAccessGroupKeyName txMeta)
            blockHeight accessGroupMembers prevAccessGroupMembers;;
          let operationIndex := (length utxoOpsForTxn - 1)%nat in
          disconnectBasicTransfer currentTxn txnHash (take operationIndex utxoOpsForTxn)
            blockHeight
      | _ => fail (FmtErrorf "_disconnectAccessGroupMembers")
      end
  end.

(** *** CreateAccessGroup *)

(** [GetGroupMemberAttributeEntry] as a step: it reads the view only. *)
Definition getGroupMemberAttributeEntry (enumerationKey : GroupEnumerationKey)
    (attributeType : N) : View B (option AttributeEntry) :=
  λ bav, (bav, GetGroupMemberAttributeEntry env enumerationKey attributeType bav).

(** The loop of the case [AccessGroupOperationMuteMembers]. *)
Fixpoint muteMembersLoop (existingEntry : AccessGroupEntry) (blockHeight : N)
    (accessGroupMembers newMuteList : list (option AccessGroupMember))
  : View B (list (option AccessGroupMember)) :=
  match accessGroupMembers with
  | [] => mret newMuteList
  | newlyMutedMember :: rest =>
      target ← deref newlyMutedMember;
      failIf (DeepEqual (ByteSlice (GroupMemberPublicKey target))
                        (ByteSlice (GroupOwnerPublicKey existingEntry)))
             (Rule RuleErrorAccessGroupOwnerMutingSelf);;
      member ← call (GetAccessGroupMember env (Some (GroupMemberPublicKey target))
                       (Some (GroupOwnerPublicKey existingEntry))
                       (Some (AccessGroupKeyName existingEntry)) blockHeight);
      match member with
      | None => fail (Rule RuleErrorAccessMemberNotInGroup)
      | Some member =>
          let enumerationKey :=
            NewGroupEnumerationKey (GroupOwnerPublicKey existingEntry)
              (AccessGroupKeyName existingEntry) (GroupMemberPublicKey member) in
          attributeEntry ←
            getGroupMemberAttributeEntry enumerationKey AccessGroupMemberAttributeIsMuted;
          failIf (match attributeEntry with
                  | Some attributeEntry => IsSet attributeEntry
                  | None => false
                  end)
                 (Rule RuleErrorAccessMemberAlreadyMuted);;
          muteMembersLoop existingEntry blockHeight rest (newMuteList ++ [newlyMutedMember])
      end
  end.

(** The loop of the case [AccessGroupOperationUnmuteMembers]. *)
Fixpoint unmuteMembersLoop (existingEntry : AccessGroupEntry) (blockHeight : N)
    (accessGroupMembers newUnmuteList : list (option AccessGroupMember))
  : View B (list (option AccessGroupMember)) :=
  match accessGroupMembers with
  | [] => mret newUnmuteList
  | newlyUnmutedMember :: rest =>
      target ← deref newlyUnmutedMember;
      member ← call (GetAccessGroupMember env (Some (GroupMemberPublicKey target))
                       (Some (GroupOwnerPublicKey existingEntry))
                       (Some (AccessGroupKeyName existingEntry)) blockHeight);
      match member with
      | None => fail (Rule RuleErrorAccessMemberNotInGroup)
      | Some _ =>
          failIf (DeepEqual (ByteSlice (GroupMemberPublicKey target))
                            (ByteSlice (GroupOwnerPublicKey existingEntry)))
                 (Rule RuleErrorAccessGroupOwnerUnmutingSelf);;
          let enumerationKey :=
            NewGroupEnumerationKey (GroupOwnerPublicKey existingEntry)
              (AccessGroupKeyName existingEntry) (GroupMemberPublicKey target) in
          attributeEntry ←
            getGroupMemberAttributeEntry enumerationKey AccessGroupMemberAttributeIsMuted;
          failIf (match attributeEntry with
                  | Some attributeEntry => negb (IsSet attributeEntry)
                  | None => true
                  end)
                 (Rule RuleErrorAccessMemberAlreadyUnmuted);;
          unmuteMembersLoop existingEntry blockHeight rest
            (newUnmuteList ++ [newlyUnmutedMember])
      end
  end.

(** What the switch on the operation leaves behind: the three lists, or the
    values of a [return] out of the function with a nil error. *)
Record memberLists := {
  newAccessMembers : list (option AccessGroupMember);
  newMuteList : list (option AccessGroupMember);
  newUnmuteList : list (option AccessGroupMember)
}.

(** The switch on [accessGroupOperation].  Its default case returns
    [errors.Wrapf(err, ...)] where [err] is nil at that point, and Wrapf of a
    nil error is nil: the function returns [0, 0, nil] and a nil error. *)
Definition accessGroupOperationSwitch (txMeta : CreateAccessGroupMetadata) (blockHeight : N)
    (accessGroupOperation : AccessGroupOperation)
    (existingEntry : option AccessGroupEntry) (accessPublicKey : PublicKey)
  : View B (N * N * list UtxoOperation + memberLists) :=
  match accessGroupOperation with
  | AccessGroupOperationAddMembers =>
      if (blockHeight <? DeSoAccessGroupsBlockHeight env)%N then
        let existingMembers : gmap PublicKey bool := {[ accessPublicKey := true ]} in
        '(existingMembers, members) ←
          match notDeleted existingEntry with
          | Some existingEntry =>
              failIf (bool_decide (length (cagAccessGroupMembers txMeta) = 0%nat))
                     (Rule RuleErrorAccessKeyDoesntAddMembers);;
              collectExistingMembers (DEPRECATED_AccessGroupMembers existingEntry)
                existingMembers []
          | None => mret (existingMembers, [])
          end;
        members ← validateAccessMembersLegacy (cagAccessGroupMembers txMeta)
                    existingMembers members;
        mret (inr {| newAccessMembers := members; newMuteList := []; newUnmuteList := [] |})
      else
        members ← validateAccessMembers (cagAccessGroupMembers txMeta) [];
        mret (inr {| newAccessMembers := members; newMuteList := []; newUnmuteList := [] |})
  | AccessGroupOperationMuteMembers =>
      match notDeleted existingEntry with
      | None => fail (Rule RuleErrorAccessGroupDoesntExist)
      | Some existingEntry =>
          muted ← muteMembersLoop existingEntry blockHeight (cagAccessGroupMembers txMeta) [];
          mret (inr {| newAccessMembers := []; newMuteList := muted; newUnmuteList := [] |})
      end
  | AccessGroupOperationUnmuteMembers =>
      match notDeleted existingEntry with
      | None => fail (Rule RuleErrorAccessGroupDoesntExist)
      | Some existingEntry =>
          unmuted ← unmuteMembersLoop existingEntry blockHeight
                      (cagAccessGroupMembers txMeta) [];
          mret (inr {| newAccessMembers := []; newMuteList := []; newUnmuteList := unmuted |})
      end
  | _ => mret (inl (0%N, 0%N, []))
  end.

(** The two loops "Set mappings for newlyMutedMembers" and "... for
    newlyUnmutedMembers". *)
Fixpoint setIsMutedMappings (accessGroupEntry : AccessGroupEntry) (isSet : bool)
    (members : list (option AccessGroupMember)) : View B unit :=
  match members with
  | [] => mret tt
  | newlyMutedMember :: rest =>
      member ← deref newlyMutedMember;
      let enumerationKey :=
        NewGroupEnumerationKey (GroupOwnerPublicKey accessGroupEntry)
          (AccessGroupKeyName accessGroupEntry) (GroupMemberPublicKey member) in
      update (_setGroupMemberAttributeMapping enumerationKey
                AccessGroupMemberAttributeIsMuted (NewAttributeEntry isSet []));;
      setIsMutedMappings accessGroupEntry isSet rest
  end.

(** The deep copy of the existing entry for the operation record: encoded
    and decoded again.  A decode that reports no entry and no error leaves
    [errors.Wrapf(nil, ...)], a nil error, to return. *)
Definition copyOfExistingEntry (blockHeight : N) (existingEntry : option AccessGroupEntry)
  : option string + option AccessGroupEntry :=
  match notDeleted existingEntry with
  | Some existingEntry =>
      let '(copy, exists_, err) := EncodeThenDecode env blockHeight existingEntry in
      if negb exists_ || bool_decide (is_Some err)
      then inl err
      else inr (Some copy)
  | None => inr None
  end.

(** [_connectAccessGroupCreate] from "merge extra data" to its end: the new
    entry, the copy of the previous one, the mute mappings, the registry
    write and the operation record. *)
Definition storeAccessGroupEntry (txn : MsgDeSoTxn) (txMeta : CreateAccessGroupMetadata)
    (blockHeight : N) (accessGroupKey : AccessGroupKey) (accessPublicKey : PublicKey)
    (existingEntry : option AccessGroupEntry) (lists : memberLists)
    (totalInput totalOutput : N) (utxoOpsForTxn : list UtxoOperation)
  : View B (N * N * list UtxoOperation) :=
  let extraData : gmap string (list byte) :=
    if (ExtraDataOnEntriesBlockHeight env <=? blockHeight)%N then
      let existingExtraData :=
        match notDeleted existingEntry with
        | Some existingEntry => ExtraData existingEntry
        | None => ∅
        end in
      mergeExtraData existingExtraData (txnExtraData txn)
    else ∅ in
  let accessGroupEntry :=
    NewAccessGroupEntry (OwnerPublicKey accessGroupKey) accessPublicKey
      (NewGroupKeyName (cagAccessGroupKeyName txMeta))
      (newAccessMembers lists) extraData blockHeight in
  match copyOfExistingEntry blockHeight existingEntry with
  | inl (Some cause) => fail (ExternalError cause)
  | inl None => mret (0%N, 0%N, [])
  | inr prevAccessGroupEntry =>
      (if (DeSoAccessGroupsBlockHeight env <=? blockHeight)%N then
         setIsMutedMappings accessGroupEntry true (newMuteList lists);;
         setIsMutedMappings accessGroupEntry false (newUnmuteList lists)
       else mret tt);;
      update (_setAccessGroupKeyToAccessGroupEntryMapping
                (OwnerPublicKey accessGroupKey) (Some accessGroupEntry));;
      mret (totalInput, totalOutput,
            utxoOpsForTxn ++
            [{| Type_ := OperationTypeCreateAccessGroup;
                PrevAccessKeyEntry := prevAccessGroupEntry;
                PrevAccessGroupMembers := [];
                PrevAccessGroupAttributeHolder := AccessGroupAttributeHolderOther 0;
                PrevAttributeHolderKey := HolderOther;
                PrevAccessGroupAttributeOperationType :=
                  AccessGroupAttributeOperationTypeOther 0;
                PrevAttributeType := 0%N;
                PrevAttributeValue := [] |}])
  end.

Definition _connectAccessGroupCreate (txn : MsgDeSoTxn) (txHash : list byte)
    (blockHeight : N) (verifySignatures : bool) : View B (N * N * list UtxoOperation) :=
  failIf (blockHeight <? DeSoV3MessagesBlockHeight env)%N
         (Rule RuleErrorAccessKeyBeforeBlockHeight);;
  match TxnMeta txn with
  | CreateAccessGroupTxnMeta txMeta =>
      failIf (EqualGroupKeyName (NewGroupKeyName (cagAccessGroupKeyName txMeta))
                BaseGroupKeyName)
             (Rule RuleErrorAccessKeyNameCannotBeZeros);;
      failWith (ValidateGroupPublicKeyAndName env (cagAccessPublicKey txMeta)
                  (cagAccessGroupKeyName txMeta));;
      failOn (IsByteArrayValidPublicKey env (txnPublicKey txn));;
      failIf (DeepEqual (ByteSlice (cagAccessPublicKey txMeta)) (ByteSlice (txnPublicKey txn)))
             (Rule RuleErrorAccessPublicKeyCannotBeOwnerKey);;
      (* The signature check of the default key stands commented out here. *)
      '(totalInput, totalOutput, utxoOpsForTxn) ←
        connectBasicTransfer txn txHash blockHeight verifySignatures;
      let '(accessGroupKey, accessPublicKey) :=
        accessGroupKeyAndPublicKey (txnPublicKey txn) (cagAccessPublicKey txMeta)
          (cagAccessGroupKeyName txMeta) in
      existingEntry ← call (GetAccessGroupKeyToAccessGroupEntryMapping env accessGroupKey);
      accessGroupOperation ←
        (if (blockHeight <? DeSoAccessGroupsBlockHeight env)%N
         then mret AccessGroupOperationAddMembers
         else match GetAccessGroupOperation env txn with
              | inl cause => fail (ExternalError cause)
              | inr operation => mret operation
              end);
      failIf (match notDeleted existingEntry with
              | Some existingEntry =>
                  negb (DeepEqual (ByteSlice (AccessPublicKey existingEntry))
                                  (ByteSlice accessPublicKey))
              | None => false
              end)
             (Rule RuleErrorAccessPublicKeyCannotBeDifferent);;
      lists ← accessGroupOperationSwitch txMeta blockHeight accessGroupOperation
                existingEntry accessPublicKey;
      match lists with
      | inl returned => mret returned
      | inr lists =>
          storeAccessGroupEntry txn txMeta blockHeight accessGroupKey accessPublicKey
            existingEntry lists totalInput totalOutput utxoOpsForTxn
      end
  | _ => fail (FmtErrorf "_connectAccessGroupCreate")
  end.

Definition _disconnectAccessGroupCreate (operationType : OperationType)
    (currentTxn : MsgDeSoTxn) (txnHash : list byte) (utxoOpsForTxn : list UtxoOperation)
    (blockHeight : N) : View B unit :=
  match last utxoOpsForTxn with
  | None => fail (FmtErrorf "_disconnectAccessGroupCreate")
  | Some utxoOp =>
      failIf (negb (bool_decide (Type_ utxoOp = OperationTypeCreateAccessGroup)))
             (FmtErrorf "_disconnectAccessGroupCreate");;
      match TxnMeta currentTxn with
      | CreateAccessGroupTxnMeta txMeta =>
          failWith (ValidateGroupPublicKeyAndName env (cagAccessPublicKey txMeta)
                      (cagAccessGroupKeyName txMeta));;
          let accessKey :=
            if DeepEqual (ByteSlice (cagAccessPublicKey txMeta))
                         (ByteSlice (GetS256BasePointCompressed env))
            then NewAccessGroupKey (NewPublicKey (GetS256BasePointCompressed env))
                   (cagAccessGroupKeyName txMeta)
            else NewAccessGroupKey (NewPublicKey (txnPublicKey currentTxn))
                   (cagAccessGroupKeyName txMeta) in
          accessKeyEntry ← call (GetAccessGroupKeyToAccessGroupEntryMapping env accessKey);
          match notDeleted accessKeyEntry with
          | None => fail (FmtErrorf "_disconnectAccessGroupCreate")
          | Some accessKeyEntry =>
              let prevAccessKeyEntry := PrevAccessKeyEntry utxoOp in
              failIf (match prevAccessKeyEntry with
                      | Some prev =>
                          negb (DeepEqual (ByteSlice (AccessPublicKey accessKeyEntry))
                                          (ByteSlice (AccessPublicKey prev)))
                          || negb (DeepEqual (ByteSlice (GroupOwnerPublicKey accessKeyEntry))
                                             (ByteSlice (GroupOwnerPublicKey prev)))
                          || negb (EqualGroupKeyName (AccessGroupKeyName accessKeyEntry)
                                     (AccessGroupKeyName prev))
                      | None => false
                      end)
                     (FmtErrorf "_disconnectAccessGroupCreate");;
              update (_deleteAccessGroupKeyToAccessGroupEntryMapping
                        (OwnerPublicKey accessKey) accessKeyEntry);;
              match prevAccessKeyEntry with
              | Some _ =>
                  update (_setAccessGroupKeyToAccessGroupEntryMapping
                            (OwnerPublicKey accessKey) prevAccessKeyEntry)
              | None => mret tt
              end;;
              let operationIndex := (length utxoOpsForTxn - 1)%nat in
              disconnectBasicTransfer currentTxn txnHash (take operationIndex utxoOpsForTxn)
                blockHeight
          end
      | _ => fail (FmtErrorf "_disconnectAccessGroupCreate")
      end
  end.

End Connect.

(** ** The older connect of lib/block_view_message.go

    The same transaction under its older name, MessagingGroup.  The file names
    its rule errors RuleErrorMessaging... where the newer one has
    RuleErrorAccess...; they are the same errors here.  The previous entry of
    its operation record, [PrevMessagingKeyEntry], is [PrevAccessKeyEntry], and
    its read of the durable store, [DBGetMessagingGroupEntry], is
    [DBGetAccessGroupEntry]. *)
Module Messaging.
Section Messaging.
Context {B : Type} (env : Collaborators B).

Definition GetMessagingMember (memberPublicKey groupOwnerPublicKey : option PublicKey)
    (groupKeyName : option GroupKeyName) (blockHeight : N)
    (bav : UtxoView B) : option AccessGroupMember :=
  match memberPublicKey, groupOwnerPublicKey, groupKeyName with
  | Some memberPublicKey, Some groupOwnerPublicKey, Some groupKeyName =>
      let groupMembershipKey :=
        NewGroupMembershipKey memberPublicKey groupOwnerPublicKey groupKeyName in
      match GroupMembershipKeyToAccessGroupMember bav !! groupMembershipKey with
      | Some mapValue => Some mapValue
      | None =>
          DBGetMemberFromMembershipIndex env memberPublicKey groupOwnerPublicKey groupKeyName
      end
  | _, _, _ => None
  end.

Definition _setGroupMembershipKeyToMessagingGroupMemberMapping
    (entry : option AccessGroupEntry) (member : option AccessGroupMember)
    (bav : UtxoView B) : UtxoView B :=
  match entry, member with
  | Some entry, Some member =>
      let groupMembershipKey :=
        NewGroupMembershipKey (GroupMemberPublicKey member) (GroupOwnerPublicKey entry)
          (AccessGroupKeyName entry) in
      withGroupMembershipKeyToAccessGroupMember
        (<[groupMembershipKey := member]> (GroupMembershipKeyToAccessGroupMember bav)) bav
  | _, _ => bav
  end.

Definition SetMessagingMember (messagingGroupEntry : option AccessGroupEntry)
    (messagingGroupMember : option AccessGroupMember) (blockHeight : N)
    (bav : UtxoView B) : UtxoView B :=
  _setGroupMembershipKeyToMessagingGroupMemberMapping messagingGroupEntry
    messagingGroupMember bav.

(** Same body as [GetAccessGroupKeyToAccessGroupEntryMapping]. *)
Definition GetMessagingGroupKeyToMessagingGroupEntryMapping
    (messagingGroupKey : AccessGroupKey) (bav : UtxoView B)
  : UtxoView B * option AccessGroupEntry :=
  GetAccessGroupKeyToAccessGroupEntryMapping env messagingGroupKey bav.

(** [member.IsMuted = muted] through the pointer. *)
Definition withIsMuted (muted : bool) (member : AccessGroupMember) : AccessGroupMember :=
  {| GroupMemberPublicKey := GroupMemberPublicKey member;
     GroupMemberKeyName := GroupMemberKeyName member;
     EncryptedKey := EncryptedKey member;
     IsMuted := muted;
     agmIsDeleted := agmIsDeleted member |}.

Fixpoint muteMembersLoop (existingEntry : AccessGroupEntry) (blockHeight : N)
    (accessGroupMembers newMuteList : list (option AccessGroupMember))
  : View B (list (option AccessGroupMember)) :=
  match accessGroupMembers with
  | [] => mret newMuteList
  | newlyMutedMember :: rest =>
      target ← deref newlyMutedMember;
      failIf (IsMuted target) (Rule RuleErrorMessagingMemberIsMutedAlreadySetToTrue);;
      failIf (DeepEqual (ByteSlice (GroupMemberPublicKey target))
                        (ByteSlice (GroupOwnerPublicKey existingEntry)))
             (Rule RuleErrorAccessGroupOwnerMutingSelf);;
      member ← call (λ bav, (bav, GetMessagingMember (Some (GroupMemberPublicKey target))
                                    (Some (GroupOwnerPublicKey existingEntry))
                                    (Some (AccessGroupKeyName existingEntry)) blockHeight bav));
      match member with
      | None => fail (Rule RuleErrorAccessMemberNotInGroup)
      | Some _ =>
          muteMembersLoop existingEntry blockHeight rest
            (newMuteList ++ [Some (withIsMuted true target)])
      end
  end.

Fixpoint unmuteMembersLoop (existingEntry : AccessGroupEntry) (blockHeight : N)
    (accessGroupMembers newUnmuteList : list (option AccessGroupMember))
  : View B (list (option AccessGroupMember)) :=
  match accessGroupMembers with
  | [] => mret newUnmuteList
  | newlyUnmutedMember :: rest =>
      target ← deref newlyUnmutedMember;
      member ← call (λ bav, (bav, GetMessagingMember (Some (GroupMemberPublicKey target))
                                    (Some (GroupOwnerPublicKey existingEntry))
                                    (Some (AccessGroupKeyName existingEntry)) blockHeight bav));
      match member with
      | None => fail (Rule RuleErrorAccessMemberNotInGroup)
      | Some _ =>
          failIf (DeepEqual (ByteSlice (GroupMemberPublicKey target))
                            (ByteSlice (GroupOwnerPublicKey existingEntry)))
                 (Rule RuleErrorAccessGroupOwnerUnmutingSelf);;
          unmuteMembersLoop existingEntry blockHeight rest
            (newUnmuteList ++ [Some (withIsMuted false target)])
      end
  end.

(** The switch on [messagingGroupOperation]; the loops that validate added
    members are those of the newer file word for word. *)
Definition messagingGroupOperationSwitch (txMeta : CreateAccessGroupMetadata) (blockHeight : N)
    (messagingGroupOperation : AccessGroupOperation)
    (existingEntry : option AccessGroupEntry) (messagingPublicKey : PublicKey)
  : View B (N * N * list UtxoOperation + memberLists) :=
  match messagingGroupOperation with
  | AccessGroupOperationAddMembers =>
      if (blockHeight <? DeSoAccessGroupsBlockHeight env)%N then
        let existingMembers : gmap PublicKey bool := {[ messagingPublicKey := true ]} in
        '(existingMembers, members) ←
          match notDeleted existingEntry with
          | Some existingEntry =>
              failIf (bool_decide (length (cagAccessGroupMembers txMeta) = 0%nat))
                     (Rule RuleErrorAccessKeyDoesntAddMembers);;
              collectExistingMembers (DEPRECATED_AccessGroupMembers existingEntry)
                existingMembers []
          | None => mret (existingMembers, [])
          end;
        members ← validateAccessMembersLegacy env (cagAccessGroupMembers txMeta)
                    existingMembers members;
        mret (inr {| newAccessMembers := members; newMuteList := []; newUnmuteList := [] |})
      else
        members ← validateAccessMembers env (cagAccessGroupMembers txMeta) [];
        mret (inr {| newAccessMembers := members; newMuteList := []; newUnmuteList := [] |})
  | AccessGroupOperationMuteMembers =>
      match notDeleted existingEntry with
      | None => fail (Rule RuleErrorAccessGroupDoesntExist)
      | Some existingEntry =>
          muted ← muteMembersLoop existingEntry blockHeight (cagAccessGroupMembers txMeta) [];
          mret (inr {| newAccessMembers := []; newMuteList := muted; newUnmuteList := [] |})
      end
  | AccessGroupOperationUnmuteMembers =>
      match notDeleted existingEntry with
      | None => fail (Rule RuleErrorAccessGroupDoesntExist)
      | Some existingEntry =>
          unmuted ← unmuteMembersLoop existingEntry blockHeight
                      (cagAccessGroupMembers txMeta) [];
          mret (inr {| newAccessMembers := []; newMuteList := []; newUnmuteList := unmuted |})
      end
  | _ => mret (inl (0%N, 0%N, []))
  end.

(** The check that the newer file leaves commented out: below the
    access-groups height the default key name needs the owner's signature
    over [accessPublicKey || accessGroupKeyName]. *)
Definition verifyGroupOwnerSignature (txn : MsgDeSoTxn) (txMeta : CreateAccessGroupMetadata)
    (blockHeight : N) : View B unit :=
  if (blockHeight <? DeSoAccessGroupsBlockHeight env)%N then
    if EqualGroupKeyName (NewGroupKeyName (cagAccessGroupKeyName txMeta)) DefaultGroupKeyName
    then
      let bytes := cagAccessPublicKey txMeta ++ cagAccessGroupKeyName txMeta in
      match _verifyBytesSignature env (txnPublicKey txn) bytes
              (cagGroupOwnerSignature txMeta) blockHeight with
      | Some cause => fail (ExternalErrorNaming cause RuleErrorAccessGroupSignatureInvalid)
      | None => mret tt
      end
    else mret tt
  else mret tt.

Definition _connectMessagingGroup (txn : MsgDeSoTxn) (txHash : list byte)
    (blockHeight : N) (verifySignatures : bool) : View B (N * N * list UtxoOperation) :=
  failIf (blockHeight <? DeSoV3MessagesBlockHeight env)%N
         (Rule RuleErrorAccessKeyBeforeBlockHeight);;
  match TxnMeta txn with
  | MessagingGroupTxnMeta txMeta =>
      failIf (EqualGroupKeyName (NewGroupKeyName (cagAccessGroupKeyName txMeta))
                BaseGroupKeyName)
             (Rule RuleErrorAccessKeyNameCannotBeZeros);;
      failWith (ValidateGroupPublicKeyAndName env (cagAccessPublicKey txMeta)
                  (cagAccessGroupKeyName txMeta));;
      failOn (IsByteArrayValidPublicKey env (txnPublicKey txn));;
      failIf (DeepEqual (ByteSlice (cagAccessPublicKey txMeta)) (ByteSlice (txnPublicKey txn)))
             (Rule RuleErrorAccessPublicKeyCannotBeOwnerKey);;
      verifyGroupOwnerSignature txn txMeta blockHeight;;
      '(totalInput, totalOutput, utxoOpsForTxn) ←
        connectBasicTransfer env txn txHash blockHeight verifySignatures;
      let '(messagingGroupKey, messagingPublicKey) :=
        accessGroupKeyAndPublicKey env (txnPublicKey txn) (cagAccessPublicKey txMeta)
          (cagAccessGroupKeyName txMeta) in
      existingEntry ← call (GetMessagingGroupKeyToMessagingGroupEntryMapping messagingGroupKey);
      messagingGroupOperation ←
        (if (blockHeight <? DeSoAccessGroupsBlockHeight env)%N
         then mret AccessGroupOperationAddMembers
         else match GetAccessGroupOperation env txn with
              | inl cause => fail (ExternalError cause)
              | inr operation => mret operation
              end);
      failIf (match notDeleted existingEntry with
              | Some existingEntry =>
                  negb (DeepEqual (ByteSlice (AccessPublicKey existingEntry))
                                  (ByteSlice messagingPublicKey))
              | None => false
              end)
             (Rule RuleErrorAccessPublicKeyCannotBeDifferent);;
      lists ← messagingGroupOperationSwitch txMeta blockHeight messagingGroupOperation
                existingEntry messagingPublicKey;
      match lists with
      | inl returned => mret returned
      | inr lists =>
          let extraData : gmap string (list byte) :=
            if (ExtraDataOnEntriesBlockHeight env <=? blockHeight)%N then
              let existingExtraData :=
                match notDeleted existingEntry with
                | Some existingEntry => ExtraData existingEntry
                | None => ∅
                end in
              mergeExtraData existingExtraData (txnExtraData txn)
            else ∅ in
          let messagingGroupEntry :=
            NewAccessGroupEntry (OwnerPublicKey messagingGroupKey) messagingPublicKey
              (NewGroupKeyName (cagAccessGroupKeyName txMeta))
              (newAccessMembers lists) extraData blockHeight in
          match copyOfExistingEntry env blockHeight existingEntry with
          | inl (Some cause) => fail (ExternalError cause)
          | inl None => mret (0%N, 0%N, [])
          | inr prevMessagingGroupEntry =>
              (if (DeSoAccessGroupsBlockHeight env <=? blockHeight)%N then
                 update (λ bav,
                   foldl (λ bav member,
                            SetMessagingMember (Some messagingGroupEntry) member blockHeight bav)
                         bav (newMuteList lists));;
                 update (λ bav,
                   foldl (λ bav member,
                            SetMessagingMember (Some messagingGroupEntry) member blockHeight bav)
                         bav (newUnmuteList lists))
               else mret tt);;
              update (_setAccessGroupKeyToAccessGroupEntryMapping
                        (OwnerPublicKey messagingGroupKey) (Some messagingGroupEntry));;
              mret (totalInput, totalOutput,
                    utxoOpsForTxn ++
                    [{| Type_ := OperationTypeMessagingKey;
                        PrevAccessKeyEntry := prevMessagingGroupEntry;
                        PrevAccessGroupMembers := [];
                        PrevAccessGroupAttributeHolder := AccessGroupAttributeHolderOther 0;
                        PrevAttributeHolderKey := HolderOther;
                        PrevAccessGroupAttributeOperationType :=
                          AccessGroupAttributeOperationTypeOther 0;
                        PrevAttributeType := 0%N;
                        PrevAttributeValue := [] |}])
          end
      end
  | _ => fail (FmtErrorf "_connectMessagingGroup")
  end.

End Messaging.
End Messaging.

(** ** Views that agree with their keys *)

(** What the setters keep true of the registry and the store behind it: an
    entry sits under the name it carries. *)
Definition RegistryKeyed {B} (env : Collaborators B) (bav : UtxoView B) : Prop :=
  (∀ k e, AccessGroupKeyToAccessGroupEntry bav !! k = Some e →
          AccessGroupKeyName e = agkGroupKeyName k) ∧
  (∀ k e, DBGetAccessGroupEntry env k = Some e →
          AccessGroupKeyName e = agkGroupKeyName k).

(** The same for the membership index: a member record sits under its own
    public key, in the view and in the store. *)
Definition MembershipKeyed {B} (env : Collaborators B) (bav : UtxoView B) : Prop :=
  (∀ k m, GroupMembershipKeyToAccessGroupMember bav !! k = Some m →
          GroupMemberPublicKey m = gmkGroupMemberPublicKey k) ∧
  (∀ memberPublicKey groupOwnerPublicKey groupKeyName m,
     DBGetMemberFromMembershipIndex env memberPublicKey groupOwnerPublicKey groupKeyName
       = Some m →
     GroupMemberPublicKey m = memberPublicKey).

(** The codec gives back an entry it has just written. *)
Definition CodecRoundTrips {B} (env : Collaborators B) : Prop :=
  ∀ blockHeight e, ∃ copy, EncodeThenDecode env blockHeight e = (copy, true, None).

(** What a read of the membership index answers: the view first, then the
    store. *)
Definition memberRecord {B} (env : Collaborators B) (bav : UtxoView B)
    (memberPublicKey groupOwnerPublicKey : PublicKey) (groupKeyName : GroupKeyName)
  : option AccessGroupMember :=
  match GroupMembershipKeyToAccessGroupMember bav
          !! NewGroupMembershipKey memberPublicKey groupOwnerPublicKey groupKeyName with
  | Some m => Some m
  | None => DBGetMemberFromMembershipIndex env memberPublicKey groupOwnerPublicKey groupKeyName
  end.

(** Whether the [IsMuted] attribute of a member reads as set. *)
Definition isMutedSet {B} (env : Collaborators B) (bav : UtxoView B)
    (groupOwnerPublicKey : PublicKey) (groupKeyName : GroupKeyName)
    (memberPublicKey : PublicKey) : Prop :=
  ∃ attributeEntry,
    GetGroupMemberAttributeEntry env
      (NewGroupEnumerationKey groupOwnerPublicKey groupKeyName memberPublicKey)
      AccessGroupMemberAttributeIsMuted bav = Return (Some attributeEntry)
    ∧ IsSet attributeEntry = true.



(** ** Reading an outcome *)

(** The operation records a connect returned, or none when it failed. *)
Definition utxoOpsOf (r : outcome (N * N * list UtxoOperation)) : list UtxoOperation :=
  match r with
  | Return (_, _, utxoOps) => utxoOps
  | Fail _ => []
  end.

Definition recordsOf (r : outcome (list UtxoOperation)) : list UtxoOperation :=
  match r with
  | Return utxoOps => utxoOps
  | Fail _ => []
  end.

(** Whether the function returned with a nil error. *)
Definition returned {A} (r : outcome A) : bool :=
  match r with
  | Return _ => true
  | Fail _ => false
  end.

(** ** Frames and invariants of a step *)

(** [keeps field c]: running [c] leaves [field] of the view as it was,
    whether [c] returns or fails. *)
Definition keeps {B A X} (field : UtxoView B → X) (c : View B A) : Prop :=
  ∀ bav, field (c bav).1 = field bav.

(** [preserves P c]: running [c] on a view with [P] leaves a view with [P]. *)
Definition preserves {B A} (P : UtxoView B → Prop) (c : View B A) : Prop :=
  ∀ bav, P bav → P (c bav).1.

(** The membership index of the view holds a record under the key that is not
    a tombstone. *)
Definition liveMemberAt {B} (bav : UtxoView B) (k : GroupMembershipKey) : Prop :=
  ∃ member, GroupMembershipKeyToAccessGroupMember bav !! k = Some member
            ∧ agmIsDeleted member = false.

(** [ignoresMembership c]: [c] neither reads nor writes the membership index:
    it runs the same way on a view with any other index put in its place. *)
Definition ignoresMembership {B A} (c : View B A) : Prop :=
  ∀ (m : gmap GroupMembershipKey AccessGroupMember) (bav : UtxoView B),
    c (withGroupMembershipKeyToAccessGroupMember m bav)
    = (withGroupMembershipKeyToAccessGroupMember m (c bav).1, (c bav).2).

(** ** A small chain to run the functions on *)

Module Example.

Definition alicePK : PublicKey := x02 :: replicate 32 x0a.
Definition bobPK : PublicKey := x02 :: replicate 32 x0b.
Definition roomAccessPK : PublicKey := x03 :: replicate 32 x0c.
Definition basePoint : list byte := x02 :: replicate 32 x79.
Definition roomName : list byte := list_byte_of_string "room".
Definition defaultName : list byte := list_byte_of_string "default-key".

(** Byte strings in lexicographic order, for the member sort. *)
Fixpoint bytesLeb (a b : list byte) : bool :=
  match a, b with
  | [], _ => true
  | _ :: _, [] => false
  | x :: a', y :: b' =>
      if (Byte.to_N x <? Byte.to_N y)%N then true
      else if (Byte.to_N y <? Byte.to_N x)%N then false
      else bytesLeb a' b'
  end.

Definition memberLeb (a b : option AccessGroupMember) : bool :=
  match a, b with
  | None, _ => true
  | Some _, None => false
  | Some x, Some y => bytesLeb (GroupMemberPublicKey x) (GroupMemberPublicKey y)
  end.

Fixpoint insertMember (m : option AccessGroupMember) (l : list (option AccessGroupMember))
  : list (option AccessGroupMember) :=
  match l with
  | [] => [m]
  | x :: l' => if memberLeb m x then m :: l else x :: insertMember m l'
  end.

Definition sortMembers (l : list (option AccessGroupMember))
  : list (option AccessGroupMember) :=
  foldr insertMember [] l.

(** The operation of a CreateAccessGroup transaction, read from its extra
    data. *)
Definition operationOf (txn : MsgDeSoTxn) : string + AccessGroupOperation :=
  match txnExtraData txn !! "AccessGroupOperationType"%string with
  | None => inr AccessGroupOperationAddMembers
  | Some [x00] => inr AccessGroupOperationAddMembers
  | Some [x01] => inr AccessGroupOperationRemoveMembers
  | Some [x02] => inr AccessGroupOperationMuteMembers
  | Some [x03] => inr AccessGroupOperationUnmuteMembers
  | Some _ => inl "unknown access group operation"%string
  end.

(** V3 messages from height 10, access groups from height 20; a public key is
    valid when it has 33 bytes, the only valid signature is the byte 01, the
    basic transfer moves nothing and the durable store is empty. *)
Definition node : Collaborators unit :=
  {| DeSoV3MessagesBlockHeight := 10;
     DeSoAccessGroupsBlockHeight := 20;
     ExtraDataOnEntriesBlockHeight := 15;
     IsByteArrayValidPublicKey := λ pk,
       if bool_decide (length pk = 33%nat) then None else Some "invalid public key"%string;
     _verifyBytesSignature := λ _ _ signature _,
       if bool_decide (signature = [x01]) then None else Some "invalid signature"%string;
     GetS256BasePointCompressed := basePoint;
     PublicKeyFromSha256DoubleHash := λ name, x03 :: take 32 (name ++ replicate 32 x55);
     _connectBasicTransfer := λ _ _ _ _ b, (b, inr (0%N, 0%N, []));
     _disconnectBasicTransfer := λ _ _ _ _ b, (b, None);
     GetAccessGroupOperation := operationOf;
     EncodeThenDecode := λ _ e, (e, true, None);
     sortAccessGroupMembers := sortMembers;
     DBGetAccessGroupEntry := λ _, None;
     DBGetMemberFromMembershipIndex := λ _ _ _, None;
     DBGetAttributeEntryInGroupMemberAttributesIndex := λ _ _ _ _, inr None;
     DBGetAttributeEntryInGroupEntryAttributesIndex := λ _ _ _, inr None |}.

(** The same node whose store already holds a group for Alice's room. *)
Definition storedRoom : AccessGroupEntry :=
  NewAccessGroupEntry alicePK roomAccessPK (NewGroupKeyName roomName) [] ∅ 21.

Definition nodeWithStoredRoom : Collaborators unit :=
  {| DeSoV3MessagesBlockHeight := 10;
     DeSoAccessGroupsBlockHeight := 20;
     ExtraDataOnEntriesBlockHeight := 15;
     IsByteArrayValidPublicKey := IsByteArrayValidPublicKey node;
     _verifyBytesSignature := _verifyBytesSignature node;
     GetS256BasePointCompressed := basePoint;
     PublicKeyFromSha256DoubleHash := PublicKeyFromSha256DoubleHash node;
     _connectBasicTransfer := _connectBasicTransfer node;
     _disconnectBasicTransfer := _disconnectBasicTransfer node;
     GetAccessGroupOperation := operationOf;
     EncodeThenDecode := λ _ e, (e, true, None);
     sortAccessGroupMembers := sortMembers;
     DBGetAccessGroupEntry := λ k,
       if bool_decide (k = NewAccessGroupKey alicePK roomName) then Some storedRoom else None;
     DBGetMemberFromMembershipIndex := λ _ _ _, None;
     DBGetAttributeEntryInGroupMemberAttributesIndex := λ _ _ _ _, inr None;
     DBGetAttributeEntryInGroupEntryAttributesIndex := λ _ _ _, inr None |}.

Definition emptyView : UtxoView unit :=
  {| AccessGroupKeyToAccessGroupEntry := ∅;
     GroupMembershipKeyToAccessGroupMember := ∅;
     GroupMemberAttributes := ∅;
     GroupEntryAttributes := ∅;
     BasicTransferView := tt |}.

(** Bob as a member: addressed at his base group, with a 32-byte key. *)
Definition bob : AccessGroupMember :=
  {| GroupMemberPublicKey := bobPK;
     GroupMemberKeyName := BaseGroupKeyName;
     EncryptedKey := replicate 32 x01;
     IsMuted := false;
     agmIsDeleted := false |}.

Definition createMeta (name signature : list byte)
    (members : list (option AccessGroupMember)) : CreateAccessGroupMetadata :=
  {| cagAccessPublicKey := roomAccessPK;
     cagAccessGroupKeyName := name;
     cagGroupOwnerSignature := signature;
     cagAccessGroupMembers := members |}.

Definition createTxn (name signature : list byte) (members : list (option AccessGroupMember))
    (extraData : gmap string (list byte)) : MsgDeSoTxn :=
  {| txnPublicKey := alicePK;
     TxnMeta := CreateAccessGroupTxnMeta (createMeta name signature members);
     txnExtraData := extraData |}.

(** Alice creates the group "room" with no members. *)
Definition createRoomTxn : MsgDeSoTxn := createTxn roomName [] [] ∅.

(** Alice creates the group "room" with Bob in it. *)
Definition createRoomWithBobTxn : MsgDeSoTxn := createTxn roomName [] [Some bob] ∅.

(** Alice registers the default key with an empty signature. *)
Definition createDefaultKeyTxn : MsgDeSoTxn := createTxn defaultName [] [] ∅.

(** The same transaction for [_connectMessagingGroup]. *)
Definition messagingDefaultKeyTxn : MsgDeSoTxn :=
  {| txnPublicKey := alicePK;
     TxnMeta := MessagingGroupTxnMeta
       {| cagAccessPublicKey := roomAccessPK;
          cagAccessGroupKeyName := defaultName;
          cagGroupOwnerSignature := [];
          cagAccessGroupMembers := [] |};
     txnExtraData := ∅ |}.

(** Alice mutes Bob in "room". *)
Definition muteBobTxn : MsgDeSoTxn :=
  createTxn roomName [] [Some bob] {[ "AccessGroupOperationType"%string := [x02] ]}.

(** Alice adds Bob to "room" with the dedicated transaction. *)
Definition addBobTxn : MsgDeSoTxn :=
  {| txnPublicKey := alicePK;
     TxnMeta := AccessGroupMembersTxnMeta
       {| agmAccessPublicKey := roomAccessPK;
          agmAccessGroupKeyName := roomName;
          agmAccessGroupMembers := [Some bob];
          AccessGroupMemberOperationType_ := AccessGroupMemberOperationTypeAdd |};
     txnExtraData := ∅ |}.

Definition roomKey : AccessGroupKey := NewAccessGroupKey alicePK roomName.
Definition bobInRoom : GroupEnumerationKey := NewGroupEnumerationKey alicePK roomName bobPK.

Definition attributesMeta (holder : AccessGroupAttributeHolder) (key : AttributeHolderKey)
    (operation : AccessGroupAttributeOperationType) (value : list byte)
  : AccessGroupAttributesMetadata :=
  {| AccessGroupAttributeHolder_ := holder;
     AttributeHolderKey_ := key;
     AccessGroupAttributeOperationType_ := operation;
     AttributeType := 7;
     AttributeValue := value |}.

Definition attributesTxn (meta : AccessGroupAttributesMetadata) : MsgDeSoTxn :=
  {| txnPublicKey := alicePK;
     TxnMeta := AccessGroupAttributesTxnMeta meta;
     txnExtraData := ∅ |}.

(** Alice, the owner, sets attribute 7 of her group "room" to "hello". *)
Definition groupAddMeta : AccessGroupAttributesMetadata :=
  attributesMeta AccessGroupAttributeHolderGroup (HolderAccessGroupKey roomKey)
    AccessGroupAttributeOperationTypeAdd (list_byte_of_string "hello").

(** Alice sets attribute 7 of Bob in "room" to "new", and removes it. *)
Definition memberAddMeta : AccessGroupAttributesMetadata :=
  attributesMeta AccessGroupAttributeHolderMember (HolderGroupEnumerationKey bobInRoom)
    AccessGroupAttributeOperationTypeAdd (list_byte_of_string "new").

Definition memberRemoveMeta : AccessGroupAttributesMetadata :=
  attributesMeta AccessGroupAttributeHolderMember (HolderGroupEnumerationKey bobInRoom)
    AccessGroupAttributeOperationTypeRemove (list_byte_of_string "new").

(** The view after Alice has created "room" at height 25. *)
Definition roomView : UtxoView unit :=
  (_connectAccessGroupCreate node createRoomTxn [] 25 true emptyView).1.

(** The view after Alice has then added Bob with the dedicated transaction. *)
Definition roomWithBobView : UtxoView unit :=
  (_connectAccessGroupMembers node addBobTxn [] 25 true roomView).1.

(** [roomView] in which attribute 7 of Bob in "room" is set to "old". *)
Definition oldAttribute : AttributeEntry := NewAttributeEntry true (list_byte_of_string "old").
Definition roomViewWithOldAttribute : UtxoView unit :=
  _setGroupMemberAttributeMapping bobInRoom 7 oldAttribute roomView.

End Example.

(** ** Validation of a group against the view *)

Section Validation.
Context {B : Type} (env : Collaborators B).

(** The key and the name are checked twice, once for the owner and once for
    the access public key; then the group must be there, carry that access
    public key and carry the padded name.  The three errors after the lookup
    are made by [fmt.Errorf]. *)
Definition ValidateAccessGroupPublicKeyAndNameAndAccessPublicKeyWithUtxoView
    (groupOwnerPublicKey accessPublicKey groupKeyName : list byte) (blockHeight : N)
  : View B unit :=
  failWith (ValidateGroupPublicKeyAndName env groupOwnerPublicKey groupKeyName);;
  failWith (ValidateGroupPublicKeyAndName env accessPublicKey groupKeyName);;
  let accessGroupKey := NewAccessGroupKey (NewPublicKey groupOwnerPublicKey) groupKeyName in
  accessGroupEntry ←
    call (GetAccessGroupForAccessGroupKeyExistence env (Some accessGroupKey) blockHeight);
  match notDeleted accessGroupEntry with
  | None =>
      fail (FmtErrorf "ValidateAccessGroupPublicKeyAndNameAndAccessPublicKeyWithUtxoView")
  | Some accessGroupEntry =>
      failIf (negb (DeepEqual (ByteSlice (AccessPublicKey accessGroupEntry))
                              (ByteSlice accessPublicKey)))
             (FmtErrorf "ValidateAccessGroupPublicKeyAndNameAndAccessPublicKeyWithUtxoView");;
      failIf (negb (EqualGroupKeyName (AccessGroupKeyName accessGroupEntry)
                      (NewGroupKeyName groupKeyName)))
             (FmtErrorf "ValidateAccessGroupPublicKeyAndNameAndAccessPublicKeyWithUtxoView")
  end.

Definition ValidateAccessGroupPublicKeyAndNameWithUtxoView
    (groupOwnerPublicKey groupKeyName : list byte) (blockHeight : N) : View B unit :=
  failWith (ValidateGroupPublicKeyAndName env groupOwnerPublicKey groupKeyName);;
  let accessGroupKey := NewAccessGroupKey (NewPublicKey groupOwnerPublicKey) groupKeyName in
  accessGroupEntry ←
    call (GetAccessGroupForAccessGroupKeyExistence env (Some accessGroupKey) blockHeight);
  match notDeleted accessGroupEntry with
  | None => fail (FmtErrorf "ValidateAccessGroupPublicKeyAndNameWithUtxoView")
  | Some accessGroupEntry =>
      failIf (negb (EqualGroupKeyName (AccessGroupKeyName accessGroupEntry)
                      (NewGroupKeyName groupKeyName)))
             (FmtErrorf "ValidateAccessGroupPublicKeyAndNameWithUtxoView")
  end.

End Validation.

(** ** What a failed connect may leave behind *)

(** The registry of [bav'] is that of [bav] with, at most, entries of the
    durable store added under their keys, where the view held nothing: what
    the reads of the registry cache. *)
Definition registryCachedFrom {B} (env : Collaborators B) (bav bav' : UtxoView B) : Prop :=
  ∀ k, AccessGroupKeyToAccessGroupEntry bav' !! k = AccessGroupKeyToAccessGroupEntry bav !! k
       ∨ (AccessGroupKeyToAccessGroupEntry bav !! k = None
          ∧ ∃ e, DBGetAccessGroupEntry env k = Some e
                 ∧ AccessGroupKeyToAccessGroupEntry bav' !! k = Some e).

(** The same for the membership index. *)
Definition membershipCachedFrom {B} (env : Collaborators B) (bav bav' : UtxoView B) : Prop :=
  ∀ k, GroupMembershipKeyToAccessGroupMember bav' !! k
       = GroupMembershipKeyToAccessGroupMember bav !! k
       ∨ (GroupMembershipKeyToAccessGroupMember bav !! k = None
          ∧ ∃ m o n record, k = NewGroupMembershipKey m o n
                            ∧ DBGetMemberFromMembershipIndex env m o n = Some record
                            ∧ GroupMembershipKeyToAccessGroupMember bav' !! k = Some record).

(** Nothing was written to the access groups between [bav] and [bav']: the
    attribute indexes are the same, and the registry and the membership index
    differ by cached reads of the store only. *)
Definition nothingWritten {B} (env : Collaborators B) (bav bav' : UtxoView B) : Prop :=
  registryCachedFrom env bav bav'
  ∧ membershipCachedFrom env bav bav'
  ∧ GroupMemberAttributes bav' = GroupMemberAttributes bav
  ∧ GroupEntryAttributes bav' = GroupEntryAttributes bav.

(** What a CreateAccessGroup of the group [accessGroupKey] may change between
    [bav] and [bav']: the registry at that key; the [IsMuted] attributes of
    the members of that group; and, everywhere, cached reads of the store.
    The membership index and the attributes of groups are not written. *)
Definition createFootprint {B} (env : Collaborators B) (accessGroupKey : AccessGroupKey)
    (bav bav' : UtxoView B) : Prop :=
  (∀ k, k ≠ accessGroupKey →
        AccessGroupKeyToAccessGroupEntry bav' !! k = AccessGroupKeyToAccessGroupEntry bav !! k
        ∨ (AccessGroupKeyToAccessGroupEntry bav !! k = None
           ∧ ∃ e, DBGetAccessGroupEntry env k = Some e
                  ∧ AccessGroupKeyToAccessGroupEntry bav' !! k = Some e))
  ∧ membershipCachedFrom env bav bav'
  ∧ GroupEntryAttributes bav' = GroupEntryAttributes bav
  ∧ ∀ k t, (t ≠ AccessGroupMemberAttributeIsMuted
            ∨ gekGroupOwnerPublicKey k ≠ OwnerPublicKey accessGroupKey
            ∨ gekGroupKeyName k ≠ agkGroupKeyName accessGroupKey) →
           memberAttribute bav' k t = memberAttribute bav k t.

(** A step that writes nothing, however it ends; and one that writes nothing
    when it fails. *)
Definition runsClean {B A} (env : Collaborators B) (c : View B A) : Prop :=
  ∀ bav, nothingWritten env bav (c bav).1.

Definition failsClean {B A} (env : Collaborators B) (c : View B A) : Prop :=
  ∀ bav bav' e, c bav = (bav', Fail e) → nothingWritten env bav bav'.

(** What "Validate all members" asks of a member of the transaction, on the
    view the transaction meets: it is there, its encrypted key has the length
    of a private key at least, its public key and key name are well formed,
    and the group of that key and name exists and is no tombstone. *)
Definition MemberAccepted {B} (env : Collaborators B) (bav : UtxoView B)
    (accessMember : option AccessGroupMember) : Prop :=
  ∃ member,
    accessMember = Some member
    ∧ (PrivKeyBytesLen ≤ length (EncryptedKey member))%nat
    ∧ ValidateGroupPublicKeyAndName env (GroupMemberPublicKey member)
        (GroupMemberKeyName member) = None
    ∧ is_Some (notDeleted
                 (GetAccessGroupKeyToAccessGroupEntryMapping env
                    (NewAccessGroupKey (GroupMemberPublicKey member)
                       (GroupMemberKeyName member)) bav).2).




(** What the unmute loop asks of one target of the transaction, on the view
    the transaction meets: it is there, the membership index has a record of
    it, it is not the owner of the group, and its [IsMuted] attribute reads as
    set. *)
Definition UnmuteChecksPass {B} (env : Collaborators B) (bav : UtxoView B)
    (existingEntry : AccessGroupEntry) (newlyUnmutedMember : option AccessGroupMember)
  : Prop :=
  ∃ target,
    newlyUnmutedMember = Some target
    ∧ is_Some (memberRecord env bav (GroupMemberPublicKey target)
                 (GroupOwnerPublicKey existingEntry) (AccessGroupKeyName existingEntry))
    ∧ GroupMemberPublicKey target ≠ GroupOwnerPublicKey existingEntry
    ∧ isMutedSet env bav (GroupOwnerPublicKey existingEntry)
        (AccessGroupKeyName existingEntry) (GroupMemberPublicKey target).

(** How the unmute loop can fail, in terms of the targets and the view. *)
Definition UnmuteFailure {B} (env : Collaborators B) (bav : UtxoView B)
    (existingEntry : AccessGroupEntry) (members : list (option AccessGroupMember))
    (e : error) : Prop :=
  (e = Rule RuleErrorAccessMemberNotInGroup →
   ∃ target, Some target ∈ members
     ∧ memberRecord env bav (GroupMemberPublicKey target)
         (GroupOwnerPublicKey existingEntry) (AccessGroupKeyName existingEntry) = None)
  ∧ (e = Rule RuleErrorAccessGroupOwnerUnmutingSelf →
     ∃ target, Some target ∈ members
       ∧ GroupMemberPublicKey target = GroupOwnerPublicKey existingEntry
       ∧ is_Some (memberRecord env bav (GroupMemberPublicKey target)
                    (GroupOwnerPublicKey existingEntry) (AccessGroupKeyName existingEntry)))
  ∧ (e = Rule RuleErrorAccessMemberAlreadyUnmuted →
     ∃ target, Some target ∈ members
       ∧ ¬ isMutedSet env bav (GroupOwnerPublicKey existingEntry)
             (AccessGroupKeyName existingEntry) (GroupMemberPublicKey target))
  ∧ e ≠ Rule RuleErrorAccessGroupDoesntExist.

(** The codec hands back the entry it was given: the copy in an operation
    record is the entry as it was. *)
Definition CodecFaithful {B} (env : Collaborators B) : Prop :=
  ∀ blockHeight e, EncodeThenDecode env blockHeight e = (e, true, None).

(** ** More of the chain: a store that holds records *)

Module Scenario.

(** The node of [Example] on top of a durable store that holds the given
    groups, members and member attributes. *)
Definition nodeWithStore
    (entries : AccessGroupKey → option AccessGroupEntry)
    (members : PublicKey → PublicKey → GroupKeyName → option AccessGroupMember)
    (memberAttributes : PublicKey → GroupKeyName → PublicKey → N → string + option AttributeEntry)
  : Collaborators unit :=
  {| DeSoV3MessagesBlockHeight := 10;
     DeSoAccessGroupsBlockHeight := 20;
     ExtraDataOnEntriesBlockHeight := 15;
     IsByteArrayValidPublicKey := IsByteArrayValidPublicKey Example.node;
     _verifyBytesSignature := _verifyBytesSignature Example.node;
     GetS256BasePointCompressed := Example.basePoint;
     PublicKeyFromSha256DoubleHash := PublicKeyFromSha256DoubleHash Example.node;
     _connectBasicTransfer := _connectBasicTransfer Example.node;
     _disconnectBasicTransfer := _disconnectBasicTransfer Example.node;
     GetAccessGroupOperation := Example.operationOf;
     EncodeThenDecode := λ _ e, (e, true, None);
     sortAccessGroupMembers := Example.sortMembers;
     DBGetAccessGroupEntry := entries;
     DBGetMemberFromMembershipIndex := members;
     DBGetAttributeEntryInGroupMemberAttributesIndex := memberAttributes;
     DBGetAttributeEntryInGroupEntryAttributesIndex := λ _ _ _, inr None |}.

(** The store holds Alice's room, and Bob as a member of it. *)
Definition storedEntries (k : AccessGroupKey) : option AccessGroupEntry :=
  if bool_decide (k = Example.roomKey) then Some Example.storedRoom else None.

Definition storedMembers (memberPublicKey groupOwnerPublicKey : PublicKey)
    (groupKeyName : GroupKeyName) : option AccessGroupMember :=
  if bool_decide (memberPublicKey = Example.bobPK ∧ groupOwnerPublicKey = Example.alicePK
                  ∧ groupKeyName = NewGroupKeyName Example.roomName)
  then Some Example.bob else None.

Definition nodeWithStoredBob : Collaborators unit :=
  nodeWithStore storedEntries storedMembers (λ _ _ _ _, inr None).


(** Carol, addressed at her default key, which she has not registered. *)
Definition carolPK : PublicKey := x02 :: replicate 32 x0d.

Definition carol : AccessGroupMember :=
  {| GroupMemberPublicKey := carolPK;
     GroupMemberKeyName := DefaultGroupKeyName;
     EncryptedKey := replicate 32 x01;
     IsMuted := false;
     agmIsDeleted := false |}.

(** Alice adds Carol to "room" with the dedicated transaction. *)
Definition addCarolTxn : MsgDeSoTxn :=
  {| txnPublicKey := Example.alicePK;
     TxnMeta := AccessGroupMembersTxnMeta
       {| agmAccessPublicKey := Example.roomAccessPK;
          agmAccessGroupKeyName := Example.roomName;
          agmAccessGroupMembers := [Some carol];
          AccessGroupMemberOperationType_ := AccessGroupMemberOperationTypeAdd |};
     txnExtraData := ∅ |}.

(** Alice mutes Bob and Carol in "room". *)
Definition muteBobAndCarolTxn : MsgDeSoTxn :=
  Example.createTxn Example.roomName [] [Some Example.bob; Some carol]
    {[ "AccessGroupOperationType"%string := [x02] ]}.

(** [roomWithBobView] in which Bob is muted in "room", and Alice unmuting
    him. *)
Definition mutedBobView : UtxoView unit :=
  _setGroupMemberAttributeMapping Example.bobInRoom AccessGroupMemberAttributeIsMuted
    (NewAttributeEntry true []) Example.roomWithBobView.

Definition unmuteBobTxn : MsgDeSoTxn :=
  Example.createTxn Example.roomName [] [Some Example.bob]
    {[ "AccessGroupOperationType"%string := [x03] ]}.

End Scenario.

(** * Properties *)

(** ** Names *)

Lemma NewGroupKeyName_length (groupKeyName : list byte) :
  length (NewGroupKeyName groupKeyName) = MaxAccessKeyNameCharacters.
Proof.
  unfold NewGroupKeyName. rewrite length_take, length_app, length_replicate.
  unfold MaxAccessKeyNameCharacters. lia.
Qed.

Lemma NewGroupKeyName_of_padded (groupKeyName : GroupKeyName) :
  length groupKeyName = MaxAccessKeyNameCharacters →
  NewGroupKeyName groupKeyName = groupKeyName.
Proof.
  intros Hlen. unfold NewGroupKeyName. rewrite Hlen, Nat.sub_diag. simpl.
  rewrite app_nil_r. apply take_ge. lia.
Qed.

Lemma NewGroupKeyName_idemp (groupKeyName : list byte) :
  NewGroupKeyName (NewGroupKeyName groupKeyName) = NewGroupKeyName groupKeyName.
Proof. apply NewGroupKeyName_of_padded, NewGroupKeyName_length. Qed.

Lemma EqualGroupKeyName_true (a b : GroupKeyName) : EqualGroupKeyName a b = true ↔ a = b.
Proof. unfold EqualGroupKeyName. apply bool_decide_eq_true. Qed.

Lemma EqualGroupKeyName_false (a b : GroupKeyName) : EqualGroupKeyName a b = false ↔ a ≠ b.
Proof. unfold EqualGroupKeyName. apply bool_decide_eq_false. Qed.

(** ** Running a method step by step *)

Lemma bind_run {B A A'} (c : View B A) (f : A → View B A') (bav : UtxoView B) :
  (c ≫= f) bav
  = match c bav with
    | (bav', Return a) => f a bav'
    | (bav', Fail e) => (bav', Fail e)
    end.
Proof. reflexivity. Qed.

Lemma bind_Return {B A A'} (c : View B A) (f : A → View B A') (bav bav' : UtxoView B) (a' : A') :
  (c ≫= f) bav = (bav', Return a') →
  ∃ bav1 a, c bav = (bav1, Return a) ∧ f a bav1 = (bav', Return a').
Proof.
  rewrite bind_run. destruct (c bav) as [bav1 [a|e]]; [|discriminate]. eauto.
Qed.

Lemma bind_Fail {B A A'} (c : View B A) (f : A → View B A') (bav bav' : UtxoView B) (e : error) :
  (c ≫= f) bav = (bav', Fail e) →
  c bav = (bav', Fail e) ∨ ∃ bav1 a, c bav = (bav1, Return a) ∧ f a bav1 = (bav', Fail e).
Proof.
  rewrite bind_run. destruct (c bav) as [bav1 [a|e1]]; [eauto|].
  intros [= <- <-]. by left.
Qed.

Lemma failIf_Return {B} (cond : bool) (e : error) (bav bav' : UtxoView B) (u : unit) :
  failIf cond e bav = (bav', Return u) → bav' = bav ∧ cond = false.
Proof. destruct cond; [discriminate|]. by intros [= <-]. Qed.

Lemma failIf_Fail {B} (cond : bool) (e e' : error) (bav bav' : UtxoView B) :
  failIf cond e bav = (bav', Fail e') → bav' = bav ∧ e' = e ∧ cond = true.
Proof. destruct cond; [|discriminate]. by intros [= <- <-]. Qed.

Lemma failWith_Return {B} (err : option error) (bav bav' : UtxoView B) (u : unit) :
  failWith err bav = (bav', Return u) → bav' = bav ∧ err = None.
Proof. destruct err; [discriminate|]. by intros [= <-]. Qed.

Lemma failWith_Fail {B} (err : option error) (e' : error) (bav bav' : UtxoView B) :
  failWith err bav = (bav', Fail e') → bav' = bav ∧ err = Some e'.
Proof. destruct err; [|discriminate]. by intros [= <- <-]. Qed.

Lemma failOn_Return {B} (err : option string) (bav bav' : UtxoView B) (u : unit) :
  failOn err bav = (bav', Return u) → bav' = bav ∧ err = None.
Proof. destruct err; [discriminate|]. by intros [= <-]. Qed.

Lemma failOn_Fail {B} (err : option string) (e' : error) (bav bav' : UtxoView B) :
  failOn err bav = (bav', Fail e') → bav' = bav ∧ ∃ cause, e' = ExternalError cause.
Proof. destruct err as [cause|]; [|discriminate]. intros [= <- <-]. eauto. Qed.

(** A check either passes or fails, and leaves the view as it is. *)
Lemma failIf_check {B} (cond : bool) (e : error) (bav : UtxoView B) :
  failIf cond e bav = (bav, Return tt) ∨ ∃ e', failIf cond e bav = (bav, Fail e').
Proof. destruct cond; [right; by eexists|by left]. Qed.

Lemma failWith_check {B} (err : option error) (bav : UtxoView B) :
  failWith err bav = (bav, Return tt) ∨ ∃ e', failWith err bav = (bav, Fail e').
Proof. destruct err; [right; by eexists|by left]. Qed.

Lemma failOn_check {B} (err : option string) (bav : UtxoView B) :
  failOn err bav = (bav, Return tt) ∨ ∃ e', failOn err bav = (bav, Fail e').
Proof. destruct err; [right; by eexists|by left]. Qed.

Lemma check_then_fails {B A} (c : View B unit) (k : View B A) (bav : UtxoView B) :
  c bav = (bav, Return tt) ∨ (∃ e, c bav = (bav, Fail e)) →
  (∃ e, k bav = (bav, Fail e)) →
  ∃ e, (c ≫= λ _, k) bav = (bav, Fail e).
Proof.
  intros [Hc | [e Hc]] [e' Hk]; rewrite bind_run, Hc; by eexists.
Qed.

(** ** Frames: the fields a step leaves alone *)

Section Frames.
Context {B X : Type} (field : UtxoView B → X).

Lemma keeps_ret {A} (a : A) : keeps field (mret a).
Proof. done. Qed.

Lemma keeps_fail {A} (e : error) : keeps field (fail e : View B A).
Proof. done. Qed.

Lemma keeps_bind {A A'} (c : View B A) (f : A → View B A') :
  keeps field c → (∀ a, keeps field (f a)) → keeps field (c ≫= f).
Proof.
  intros Hc Hf bav. rewrite bind_run. specialize (Hc bav).
  destruct (c bav) as [bav1 [a|e]]; simpl in *; [|done].
  by rewrite Hf.
Qed.

Lemma keeps_bind_ret {A A'} (a : A) (f : A → View B A') :
  keeps field (f a) → keeps field (mret a ≫= f).
Proof. intros Hf bav. apply Hf. Qed.

Lemma keeps_failIf (cond : bool) (e : error) : keeps field (failIf cond e).
Proof. by destruct cond. Qed.

Lemma keeps_failWith (err : option error) : keeps field (failWith err).
Proof. by destruct err. Qed.

Lemma keeps_failOn (err : option string) : keeps field (failOn err).
Proof. by destruct err. Qed.

Lemma keeps_deref {A} (p : option A) : keeps field (deref p).
Proof. by destruct p. Qed.

(** A field other than the part of the basic transfer. *)
Hypothesis field_basic : ∀ b bav, field (withBasicTransferView b bav) = field bav.

Lemma keeps_connectBasicTransfer (env : Collaborators B) txn txHash blockHeight verifySignatures :
  keeps field (connectBasicTransfer env txn txHash blockHeight verifySignatures).
Proof.
  intros bav. unfold connectBasicTransfer.
  destruct (_connectBasicTransfer _ _ _ _ _ _). apply field_basic.
Qed.

Lemma keeps_disconnectBasicTransfer (env : Collaborators B) txn txHash utxoOps blockHeight :
  keeps field (disconnectBasicTransfer env txn txHash utxoOps blockHeight).
Proof.
  intros bav. unfold disconnectBasicTransfer.
  destruct (_disconnectBasicTransfer _ _ _ _ _ _). apply field_basic.
Qed.

(** A field other than the registry. *)
Hypothesis field_registry :
  ∀ m bav, field (withAccessGroupKeyToAccessGroupEntry m bav) = field bav.

Lemma keeps_set_entry ownerPublicKey accessGroupEntry :
  keeps field (update (_setAccessGroupKeyToAccessGroupEntryMapping ownerPublicKey
                         accessGroupEntry)).
Proof. intros bav. destruct accessGroupEntry; [apply field_registry|done]. Qed.

Lemma keeps_get_entry (env : Collaborators B) (accessGroupKey : AccessGroupKey) :
  keeps field (call (GetAccessGroupKeyToAccessGroupEntryMapping env accessGroupKey)).
Proof.
  intros bav. unfold call, GetAccessGroupKeyToAccessGroupEntryMapping.
  destruct (EqualGroupKeyName _ _); [done|].
  destruct (AccessGroupKeyToAccessGroupEntry bav !! accessGroupKey); [done|].
  destruct (DBGetAccessGroupEntry env accessGroupKey); [|done].
  apply field_registry.
Qed.

(** A field other than the member attributes. *)
Hypothesis field_memberAttributes :
  ∀ m bav, field (withGroupMemberAttributes m bav) = field bav.

Lemma keeps_setIsMutedMappings accessGroupEntry isSet members :
  keeps field (setIsMutedMappings accessGroupEntry isSet members).
Proof.
  induction members as [|member rest IH]; simpl.
  - apply keeps_ret.
  - apply keeps_bind; [apply keeps_deref|intros ?].
    apply keeps_bind; [|intros _; apply IH].
    intros bav. apply field_memberAttributes.
Qed.

Lemma keeps_validateAccessMembers (env : Collaborators B) accessGroupMembers newAccessMembers :
  keeps field (validateAccessMembers env accessGroupMembers newAccessMembers).
Proof.
  revert newAccessMembers.
  induction accessGroupMembers as [|accessMember rest IH]; intros acc; simpl.
  - apply keeps_ret.
  - apply keeps_bind; [apply keeps_deref|intros member].
    apply keeps_bind; [apply keeps_failIf|intros _].
    apply keeps_bind; [apply keeps_failWith|intros _].
    apply keeps_bind; [apply keeps_get_entry|intros memberGroupEntry].
    destruct (notDeleted memberGroupEntry); [apply IH|apply keeps_fail].
Qed.

Lemma keeps_collectExistingMembers existing existingMembers newAccessMembers :
  keeps field (collectExistingMembers existing existingMembers newAccessMembers : View B _).
Proof.
  revert existingMembers newAccessMembers.
  induction existing as [|existingMember rest IH]; intros existingMembers acc; simpl.
  - apply keeps_ret.
  - apply keeps_bind; [apply keeps_deref|intros member].
    destruct (existingMembers !! _); [apply keeps_fail|apply IH].
Qed.

Lemma keeps_validateAccessMembersLegacy (env : Collaborators B) accessGroupMembers
    existingMembers newAccessMembers :
  keeps field (validateAccessMembersLegacy env accessGroupMembers existingMembers
                 newAccessMembers).
Proof.
  revert existingMembers newAccessMembers.
  induction accessGroupMembers as [|accessMember rest IH]; intros existingMembers acc; simpl.
  - apply keeps_ret.
  - apply keeps_bind; [apply keeps_deref|intros member].
    apply keeps_bind; [apply keeps_failIf|intros _].
    apply keeps_bind; [apply keeps_failWith|intros _].
    apply keeps_bind; [apply keeps_get_entry|intros memberGroupEntry].
    destruct (notDeleted memberGroupEntry); [|apply keeps_fail].
    destruct (existingMembers !! _); [apply keeps_fail|apply IH].
Qed.

End Frames.

Lemma preserves_bind {B A A'} (P : UtxoView B → Prop) (c : View B A) (f : A → View B A') :
  preserves P c → (∀ a, preserves P (f a)) → preserves P (c ≫= f).
Proof.
  intros Hc Hf bav HP. rewrite bind_run. specialize (Hc bav HP).
  destruct (c bav) as [bav1 [a|e]]; simpl in *; [|done].
  by apply Hf.
Qed.

Section IgnoresMembership.
Context {B : Type}.

Lemma ignores_ret {A} (a : A) : ignoresMembership (mret a : View B A).
Proof. done. Qed.

Lemma ignores_fail {A} (e : error) : ignoresMembership (fail e : View B A).
Proof. done. Qed.

Lemma ignores_bind {A A'} (c : View B A) (f : A → View B A') :
  ignoresMembership c → (∀ a, ignoresMembership (f a)) → ignoresMembership (c ≫= f).
Proof.
  intros Hc Hf m bav. rewrite !bind_run, Hc.
  destruct (c bav) as [bav1 [a|e]]; simpl; [apply Hf|done].
Qed.

Lemma ignores_failIf (cond : bool) (e : error) : ignoresMembership (failIf cond e : View B _).
Proof. by destruct cond. Qed.

Lemma ignores_failWith (err : option error) : ignoresMembership (failWith err : View B _).
Proof. by destruct err. Qed.

Lemma ignores_failOn (err : option string) : ignoresMembership (failOn err : View B _).
Proof. by destruct err. Qed.

Lemma ignores_deref {A} (p : option A) : ignoresMembership (deref p : View B A).
Proof. by destruct p. Qed.

Lemma ignores_connectBasicTransfer (env : Collaborators B) txn txHash blockHeight
    verifySignatures :
  ignoresMembership (connectBasicTransfer env txn txHash blockHeight verifySignatures).
Proof.
  intros m bav. unfold connectBasicTransfer. simpl.
  by destruct (_connectBasicTransfer _ _ _ _ _ _).
Qed.

Lemma ignores_get_entry (env : Collaborators B) (accessGroupKey : AccessGroupKey) :
  ignoresMembership (call (GetAccessGroupKeyToAccessGroupEntryMapping env accessGroupKey)).
Proof.
  intros m bav. unfold call, GetAccessGroupKeyToAccessGroupEntryMapping. simpl.
  destruct (EqualGroupKeyName _ _); [done|].
  destruct (AccessGroupKeyToAccessGroupEntry bav !! accessGroupKey); [done|].
  by destruct (DBGetAccessGroupEntry env accessGroupKey).
Qed.

Lemma ignores_validateAccessMembers (env : Collaborators B) accessGroupMembers
    newAccessMembers :
  ignoresMembership (validateAccessMembers env accessGroupMembers newAccessMembers).
Proof.
  revert newAccessMembers.
  induction accessGroupMembers as [|accessMember rest IH]; intros acc; simpl.
  - apply ignores_ret.
  - apply ignores_bind; [apply ignores_deref|intros member].
    apply ignores_bind; [apply ignores_failIf|intros _].
    apply ignores_bind; [apply ignores_failWith|intros _].
    apply ignores_bind; [apply ignores_get_entry|intros memberGroupEntry].
    destruct (notDeleted memberGroupEntry); [apply IH|apply ignores_fail].
Qed.

End IgnoresMembership.

(** ** The getters of the registry *)

(** C10: with a nil member public key, group owner public key or group key
    name, GetAccessGroupMember and GetAccessGroupEntry return nil whatever the
    view and the durable store hold, and leave the view as it is. *)
Theorem getters_nil_parameter {B} (env : Collaborators B) (bav : UtxoView B)
    (memberPublicKey groupOwnerPublicKey : option PublicKey)
    (groupKeyName : option GroupKeyName) (blockHeight : N) :
  memberPublicKey = None ∨ groupOwnerPublicKey = None ∨ groupKeyName = None →
  GetAccessGroupMember env memberPublicKey groupOwnerPublicKey groupKeyName blockHeight bav
    = (bav, None)
  ∧ GetAccessGroupEntry env memberPublicKey groupOwnerPublicKey groupKeyName blockHeight bav
    = (bav, None).
Proof.
  intros Hnil.
  destruct memberPublicKey, groupOwnerPublicKey, groupKeyName;
    try (split; reflexivity).
  destruct Hnil as [Hnil | [Hnil | Hnil]]; discriminate Hnil.
Qed.

Lemma getters_nil_parameter_witness :
  GetAccessGroupMember Example.nodeWithStoredRoom (Some Example.bobPK) None
      (Some (NewGroupKeyName Example.roomName)) 25 Example.roomWithBobView
    = (Example.roomWithBobView, None)
  ∧ GetAccessGroupEntry Example.nodeWithStoredRoom (Some Example.bobPK) None
      (Some (NewGroupKeyName Example.roomName)) 25 Example.roomWithBobView
    = (Example.roomWithBobView, None).
Proof.
  apply (getters_nil_parameter Example.nodeWithStoredRoom Example.roomWithBobView
           (Some Example.bobPK) None (Some (NewGroupKeyName Example.roomName)) 25).
  right. left. reflexivity.
Defined.

(** The registry stays keyed by name under its setter and its getter. *)
Lemma RegistryKeyed_set {B} (env : Collaborators B) (bav : UtxoView B)
    (ownerPublicKey : PublicKey) (accessGroupEntry : option AccessGroupEntry) :
  RegistryKeyed env bav →
  RegistryKeyed env (_setAccessGroupKeyToAccessGroupEntryMapping ownerPublicKey
                       accessGroupEntry bav).
Proof.
  intros [Hview Hstore]. split; [|exact Hstore].
  destruct accessGroupEntry as [entry|]; simpl; [|exact Hview].
  intros k e. rewrite lookup_insert. case_decide as Hk.
  - intros [= <-]. by subst k.
  - apply Hview.
Qed.

Lemma RegistryKeyed_get {B} (env : Collaborators B) (bav : UtxoView B) (k : AccessGroupKey) :
  RegistryKeyed env bav →
  RegistryKeyed env (GetAccessGroupKeyToAccessGroupEntryMapping env k bav).1.
Proof.
  intros Hkeyed. unfold GetAccessGroupKeyToAccessGroupEntryMapping.
  destruct (EqualGroupKeyName _ _); [done|].
  destruct (AccessGroupKeyToAccessGroupEntry bav !! k); [done|].
  destruct (DBGetAccessGroupEntry env k); [|done].
  by apply RegistryKeyed_set.
Qed.

(** C7: the group getter returns the synthesized base entry exactly when the
    key's name is the base name.  The synthesized entry is written out: the
    owner of the key is its group owner and its access public key, its name
    is the base name, it has no members, no extra data, height zero and is no
    tombstone.  Whatever else the getter returns carries another name, so an
    entry with the owner as owner and access key and with the base name is
    returned for the base name only.  For the base name the getter returns
    the synthesized entry whatever the view and the durable store hold, an
    entry under that very key included, and leaves the view as it is. *)
Theorem base_entry_iff_base_name {B} (env : Collaborators B) (bav : UtxoView B)
    (accessGroupKey : AccessGroupKey) :
  RegistryKeyed env bav →
  let synthesized :=
    {| GroupOwnerPublicKey := OwnerPublicKey accessGroupKey;
       AccessPublicKey := OwnerPublicKey accessGroupKey;
       AccessGroupKeyName := BaseGroupKeyName;
       DEPRECATED_AccessGroupMembers := [];
       ExtraData := ∅;
       BlockHeightCreated := 0%N;
       ageIsDeleted := false |} in
  ((GetAccessGroupKeyToAccessGroupEntryMapping env accessGroupKey bav).2 = Some synthesized
   ↔ agkGroupKeyName accessGroupKey = BaseGroupKeyName)
  ∧ ((∃ e, (GetAccessGroupKeyToAccessGroupEntryMapping env accessGroupKey bav).2 = Some e
           ∧ GroupOwnerPublicKey e = OwnerPublicKey accessGroupKey
           ∧ AccessPublicKey e = OwnerPublicKey accessGroupKey
           ∧ AccessGroupKeyName e = BaseGroupKeyName)
     ↔ agkGroupKeyName accessGroupKey = BaseGroupKeyName)
  ∧ (agkGroupKeyName accessGroupKey = BaseGroupKeyName →
     ∀ (env' : Collaborators B) (bav' : UtxoView B),
       GetAccessGroupKeyToAccessGroupEntryMapping env' accessGroupKey bav'
         = (bav', Some synthesized)).
Proof.
  intros [Hview Hstore] synthesized.
  assert (Hbase : agkGroupKeyName accessGroupKey = BaseGroupKeyName →
                  ∀ (env' : Collaborators B) (bav' : UtxoView B),
                    GetAccessGroupKeyToAccessGroupEntryMapping env' accessGroupKey bav'
                    = (bav', Some synthesized)).
  { intros Hname env' bav'. unfold GetAccessGroupKeyToAccessGroupEntryMapping.
    by rewrite (proj2 (EqualGroupKeyName_true _ _) Hname). }
  assert (Hnamed : ∀ e,
            (GetAccessGroupKeyToAccessGroupEntryMapping env accessGroupKey bav).2 = Some e →
            AccessGroupKeyName e = BaseGroupKeyName →
            agkGroupKeyName accessGroupKey = BaseGroupKeyName).
  { intros e. unfold GetAccessGroupKeyToAccessGroupEntryMapping.
    destruct (EqualGroupKeyName _ _) eqn:Hname; [by intros _ _; apply EqualGroupKeyName_true|].
    destruct (AccessGroupKeyToAccessGroupEntry bav !! accessGroupKey) as [e'|] eqn:Hlookup.
    - simpl. intros [= ->] He. apply Hview in Hlookup. congruence.
    - destruct (DBGetAccessGroupEntry env accessGroupKey) as [e'|] eqn:Hdb; simpl; [|done].
      intros [= ->] He. apply Hstore in Hdb. congruence. }
  split; [|split; [|exact Hbase]].
  - split.
    + intros Hget. by apply (Hnamed synthesized).
    + intros Hname. by rewrite (Hbase Hname env bav).
  - split.
    + intros (e & Hget & _ & _ & He). by apply (Hnamed e).
    + intros Hname. exists synthesized. by rewrite (Hbase Hname env bav).
Qed.

Lemma RegistryKeyed_example :
  RegistryKeyed Example.nodeWithStoredRoom
    (_setAccessGroupKeyToAccessGroupEntryMapping Example.alicePK
       (Some Example.storedRoom) Example.emptyView).
Proof.
  apply RegistryKeyed_set. split.
  - intros k e. simpl. by rewrite lookup_empty.
  - intros k e. simpl. case_bool_decide as Hk; [|done]. intros [= <-]. by subst k.
Qed.

(** Alice's base key, read on a view and a store that hold her group "room":
    the getter answers the synthesized entry with Alice as owner and access
    key. *)
Lemma base_entry_iff_base_name_witness :
  agkGroupKeyName (NewAccessGroupKey Example.alicePK []) = BaseGroupKeyName
  ∧ (GetAccessGroupKeyToAccessGroupEntryMapping Example.nodeWithStoredRoom
       (NewAccessGroupKey Example.alicePK [])
       (_setAccessGroupKeyToAccessGroupEntryMapping Example.alicePK
          (Some Example.storedRoom) Example.emptyView)).2
    = Some {| GroupOwnerPublicKey := Example.alicePK;
              AccessPublicKey := Example.alicePK;
              AccessGroupKeyName := BaseGroupKeyName;
              DEPRECATED_AccessGroupMembers := [];
              ExtraData := ∅;
              BlockHeightCreated := 0%N;
              ageIsDeleted := false |}
  ∧ ∀ (env' : Collaborators unit) (bav' : UtxoView unit),
      GetAccessGroupKeyToAccessGroupEntryMapping env' (NewAccessGroupKey Example.alicePK []) bav'
      = (bav', Some {| GroupOwnerPublicKey := Example.alicePK;
                       AccessPublicKey := Example.alicePK;
                       AccessGroupKeyName := BaseGroupKeyName;
                       DEPRECATED_AccessGroupMembers := [];
                       ExtraData := ∅;
                       BlockHeightCreated := 0%N;
                       ageIsDeleted := false |}).
Proof.
  pose proof (base_entry_iff_base_name Example.nodeWithStoredRoom
                (_setAccessGroupKeyToAccessGroupEntryMapping Example.alicePK
                   (Some Example.storedRoom) Example.emptyView)
                (NewAccessGroupKey Example.alicePK []) RegistryKeyed_example)
    as (Hexact & _ & Hbase).
  split; [reflexivity|]. split.
  - apply Hexact. reflexivity.
  - apply Hbase. reflexivity.
Defined.

(** C8 as stated fails: after set_group and delete_group the group getter
    hands back the tombstoned entry, not nil. *)
Lemma get_after_delete_is_not_nil :
  (GetAccessGroupKeyToAccessGroupEntryMapping Example.nodeWithStoredRoom Example.roomKey
     (_deleteAccessGroupKeyToAccessGroupEntryMapping Example.alicePK Example.storedRoom
        (_setAccessGroupKeyToAccessGroupEntryMapping Example.alicePK
           (Some Example.storedRoom) Example.emptyView))).2
  ≠ None.
Proof. vm_compute. discriminate. Qed.

(** C8, amended: after set_group(owner, e) and delete_group(owner, e) the
    group getter at (owner, name of e), for a name other than the base name,
    returns the tombstoned copy of e and does not read the durable store; the
    existence getter, which filters tombstones, returns nil for the key,
    whatever the durable store holds. *)
Theorem get_after_set_delete {B} (env : Collaborators B) (bav : UtxoView B)
    (ownerPublicKey : PublicKey) (e : AccessGroupEntry) (blockHeight : N) :
  length (AccessGroupKeyName e) = MaxAccessKeyNameCharacters →
  let k := {| OwnerPublicKey := ownerPublicKey; agkGroupKeyName := AccessGroupKeyName e |} in
  let bav' :=
    _deleteAccessGroupKeyToAccessGroupEntryMapping ownerPublicKey e
      (_setAccessGroupKeyToAccessGroupEntryMapping ownerPublicKey (Some e) bav) in
  (AccessGroupKeyName e ≠ BaseGroupKeyName →
   GetAccessGroupKeyToAccessGroupEntryMapping env k bav'
     = (bav', Some (tombstoneAccessGroupEntry e)))
  ∧ GetAccessGroupForAccessGroupKeyExistence env (Some k) blockHeight bav' = (bav', None).
Proof.
  intros Hlen k bav'.
  assert (Hlookup : AccessGroupKeyToAccessGroupEntry bav' !! k
                    = Some (tombstoneAccessGroupEntry e)).
  { subst bav' k. simpl. apply lookup_insert_eq. }
  split.
  - intros Hname. unfold GetAccessGroupKeyToAccessGroupEntryMapping.
    rewrite (proj2 (EqualGroupKeyName_false _ _)) by exact Hname.
    by rewrite Hlookup.
  - unfold GetAccessGroupForAccessGroupKeyExistence, GetAccessGroupEntry, NewAccessGroupKey.
    simpl OwnerPublicKey. simpl agkGroupKeyName.
    rewrite (NewGroupKeyName_of_padded _ Hlen).
    fold k. by rewrite Hlookup.
Qed.

Lemma get_after_set_delete_witness :
  let k := {| OwnerPublicKey := Example.alicePK;
              agkGroupKeyName := AccessGroupKeyName Example.storedRoom |} in
  let bav' :=
    _deleteAccessGroupKeyToAccessGroupEntryMapping Example.alicePK Example.storedRoom
      (_setAccessGroupKeyToAccessGroupEntryMapping Example.alicePK
         (Some Example.storedRoom) Example.emptyView) in
  (AccessGroupKeyName Example.storedRoom ≠ BaseGroupKeyName →
   GetAccessGroupKeyToAccessGroupEntryMapping Example.nodeWithStoredRoom k bav'
     = (bav', Some (tombstoneAccessGroupEntry Example.storedRoom)))
  ∧ GetAccessGroupForAccessGroupKeyExistence Example.nodeWithStoredRoom (Some k) 25 bav'
    = (bav', None).
Proof.
  apply (get_after_set_delete Example.nodeWithStoredRoom Example.emptyView
           Example.alicePK Example.storedRoom 25).
  vm_compute. reflexivity.
Defined.

(** ** AccessGroupAttributes *)

Lemma DeepEqual_pointer_slice (p : PublicKey) (b : list byte) :
  DeepEqual (PublicKeyPointer p) (ByteSlice b) = false.
Proof. reflexivity. Qed.

(** No attribute transaction is ever connected: past the holder check the
    owner check compares a [*PublicKey] with a [[]byte] and fails. *)
Lemma _connectAccessGroupAttributes_never_returns {B} (env : Collaborators B)
    (txn : MsgDeSoTxn) (txHash : list byte) (blockHeight : N) (verifySignatures : bool)
    (bav : UtxoView B) (totals : N * N * list UtxoOperation) :
  (_connectAccessGroupAttributes env txn txHash blockHeight verifySignatures bav).2
  ≠ Return totals.
Proof.
  unfold _connectAccessGroupAttributes, mbind, View_bind, failIf, fail, mret, View_ret,
    connectBasicTransfer.
  destruct (blockHeight <? _)%N; [done|].
  destruct (TxnMeta txn) as [| |txMeta| |]; try done.
  destruct (_connectBasicTransfer _ _ _ _ _ _) as [b [cause|[[totalInput totalOutput] ops]]];
    [done|].
  destruct (AttributeHolderKey_ txMeta); [| |done].
  - destruct (negb (bool_decide _)); [done|].
    by rewrite DeepEqual_pointer_slice.
  - destruct (negb (bool_decide _)); [done|].
    by rewrite DeepEqual_pointer_slice.
Qed.

(** C1: Alice owns the group "room" and signs the transaction that sets an
    attribute of it, and the connect answers OperationDenied and writes no
    attribute. *)
Theorem owner_attribute_is_denied :
  txnPublicKey (Example.attributesTxn Example.groupAddMeta) = OwnerPublicKey Example.roomKey
  ∧ (_connectAccessGroupAttributes Example.node (Example.attributesTxn Example.groupAddMeta)
       [] 25 true Example.roomView).2
    = Fail (Rule RuleErrorAccessGroupAttributesOperationDenied)
  ∧ GroupEntryAttributes
      (_connectAccessGroupAttributes Example.node (Example.attributesTxn Example.groupAddMeta)
         [] 25 true Example.roomView).1 !! Example.roomKey
    = None.
Proof. vm_compute. repeat split; reflexivity. Qed.

Lemma memberAttribute_set {B} (bav : UtxoView B) (k k' : GroupEnumerationKey) (t t' : N)
    (attributeEntry : AttributeEntry) :
  memberAttribute (_setGroupMemberAttributeMapping k t attributeEntry bav) k' t'
  = if decide (k = k' ∧ t = t') then Some attributeEntry else memberAttribute bav k' t'.
Proof.
  unfold memberAttribute, _setGroupMemberAttributeMapping. simpl.
  destruct (decide (k = k')) as [<-|Hk].
  - rewrite lookup_insert_eq. simpl.
    destruct (decide (t = t')) as [<-|Ht].
    + rewrite lookup_insert_eq. by rewrite decide_True.
    + rewrite lookup_insert_ne by done.
      rewrite decide_False; [|by intros [_ ?]].
      by destruct (GroupMemberAttributes bav !! k).
  - rewrite lookup_insert_ne by done.
    rewrite decide_False; [done|by intros [? _]].
Qed.

(** Whatever the attribute of a member was, adding a value and disconnecting
    the record of the Add leaves the tombstone of the added value: the record
    has no place for what was there before. *)
Lemma member_attribute_add_then_disconnect {B} (env : Collaborators B) (txn : MsgDeSoTxn)
    (txMeta : AccessGroupAttributesMetadata) (enumerationKey : GroupEnumerationKey)
    (txnHash : list byte) (blockHeight : N) (bav bav2 : UtxoView B) :
  TxnMeta txn = AccessGroupAttributesTxnMeta txMeta →
  AccessGroupAttributeHolder_ txMeta = AccessGroupAttributeHolderMember →
  AttributeHolderKey_ txMeta = HolderGroupEnumerationKey enumerationKey →
  AccessGroupAttributeOperationType_ txMeta = AccessGroupAttributeOperationTypeAdd →
  let added := connectMemberAttributeOperation txMeta enumerationKey [] bav in
  _disconnectAccessGroupAttributes env OperationTypeAccessGroupAttributes txn txnHash
    (recordsOf added.2) blockHeight added.1 = (bav2, Return tt) →
  memberAttribute bav2 enumerationKey (AttributeType txMeta)
  = Some {| IsSet := true; Value := AttributeValue txMeta; attrIsDeleted := true |}.
Proof.
  intros Hmeta Hholder Hkey Hoperation added Hdisconnect. subst added.
  unfold connectMemberAttributeOperation in Hdisconnect. rewrite Hoperation in Hdisconnect.
  simpl in Hdisconnect.
  unfold _disconnectAccessGroupAttributes in Hdisconnect. simpl in Hdisconnect.
  rewrite Hmeta, Hholder, Hoperation, Hkey in Hdisconnect. simpl in Hdisconnect.
  repeat (rewrite bind_run in Hdisconnect;
          rewrite ?bool_decide_eq_true_2 in Hdisconnect by done;
          simpl in Hdisconnect).
  pose proof (keeps_disconnectBasicTransfer GroupMemberAttributes (λ _ _, eq_refl) env txn
                txnHash [] blockHeight) as Hbasic.
  match type of Hdisconnect with
  | disconnectBasicTransfer _ _ _ _ _ ?bav1 = _ =>
      specialize (Hbasic bav1); rewrite Hdisconnect in Hbasic
  end.
  simpl in Hbasic. unfold memberAttribute. rewrite Hbasic.
  rewrite lookup_insert_eq. simpl. apply lookup_insert_eq.
Qed.

(** The branches of the connect behind its owner check, which no transaction
    gets past as the code stands, and the disconnect of their records: an
    Add that overwrites the attribute "old" with "new" and its disconnect
    leave the tombstone of "new", and a Remove of an absent attribute and its
    disconnect leave the attribute set. *)
Lemma attribute_disconnect_does_not_restore :
  let added :=
    connectMemberAttributeOperation Example.memberAddMeta Example.bobInRoom []
      Example.roomViewWithOldAttribute in
  let undoneAdd :=
    _disconnectAccessGroupAttributes Example.node OperationTypeAccessGroupAttributes
      (Example.attributesTxn Example.memberAddMeta) []
      (recordsOf added.2) 25 added.1 in
  let removed :=
    connectMemberAttributeOperation Example.memberRemoveMeta Example.bobInRoom []
      Example.roomView in
  let undoneRemove :=
    _disconnectAccessGroupAttributes Example.node OperationTypeAccessGroupAttributes
      (Example.attributesTxn Example.memberRemoveMeta) []
      (recordsOf removed.2) 25 removed.1 in
  GetGroupMemberAttributeEntry Example.node Example.bobInRoom 7
    Example.roomViewWithOldAttribute = Return (Some Example.oldAttribute)
  ∧ undoneAdd.2 = Return tt
  ∧ GetGroupMemberAttributeEntry Example.node Example.bobInRoom 7 undoneAdd.1
    = Return (Some {| IsSet := true; Value := list_byte_of_string "new";
                      attrIsDeleted := true |})
  ∧ GetGroupMemberAttributeEntry Example.node Example.bobInRoom 7 Example.roomView
    = Return None
  ∧ undoneRemove.2 = Return tt
  ∧ GetGroupMemberAttributeEntry Example.node Example.bobInRoom 7 undoneRemove.1
    = Return (Some {| IsSet := true; Value := list_byte_of_string "new";
                      attrIsDeleted := false |}).
Proof. vm_compute. repeat split; reflexivity. Qed.

(** ** The membership index *)

Lemma memberRecord_fields {B} (env : Collaborators B) (bav bav' : UtxoView B) m o n :
  GroupMembershipKeyToAccessGroupMember bav' = GroupMembershipKeyToAccessGroupMember bav →
  memberRecord env bav' m o n = memberRecord env bav m o n.
Proof. intros H. unfold memberRecord. by rewrite H. Qed.


Lemma MembershipKeyed_fields {B} (env : Collaborators B) (bav bav' : UtxoView B) :
  GroupMembershipKeyToAccessGroupMember bav' = GroupMembershipKeyToAccessGroupMember bav →
  MembershipKeyed env bav → MembershipKeyed env bav'.
Proof. intros H [Hview Hstore]. split; [|done]. by rewrite H. Qed.

(** The membership index stays keyed under its setter, under the connect of
    AccessGroupMembers, and under a CreateAccessGroup that adds members. *)
Lemma MembershipKeyed_set {B} (env : Collaborators B) (bav : UtxoView B)
    (accessGroupMember : option AccessGroupMember) (groupOwnerPublicKey : PublicKey)
    (groupKeyName : GroupKeyName) :
  MembershipKeyed env bav →
  MembershipKeyed env (_setGroupMembershipKeyToAccessGroupMemberMapping accessGroupMember
                         groupOwnerPublicKey groupKeyName bav).
Proof.
  intros [Hview Hstore]. split; [|exact Hstore].
  destruct accessGroupMember as [member|]; simpl; [|exact Hview].
  intros k m. rewrite lookup_insert. case_decide as Hk.
  - intros [= <-]. by subst k.
  - apply Hview.
Qed.

Lemma preserves_keeps_membership {B A} (env : Collaborators B) (c : View B A) :
  keeps GroupMembershipKeyToAccessGroupMember c → preserves (MembershipKeyed env) c.
Proof. intros Hc bav. apply MembershipKeyed_fields, Hc. Qed.

(** A read of the membership index answers [memberRecord]; what it caches
    keeps the index keyed and changes no later answer for the group. *)
Lemma GetAccessGroupMember_run {B} (env : Collaborators B) (bav : UtxoView B)
    (m o : PublicKey) (n : GroupKeyName) (blockHeight : N) :
  MembershipKeyed env bav →
  ∃ bav',
    GetAccessGroupMember env (Some m) (Some o) (Some n) blockHeight bav
      = (bav', memberRecord env bav m o n)
    ∧ MembershipKeyed env bav'
    ∧ GroupMemberAttributes bav' = GroupMemberAttributes bav
    ∧ ∀ m', memberRecord env bav' m' o n = memberRecord env bav m' o n.
Proof.
  intros Hkeyed. pose proof Hkeyed as [Hview Hstore].
  unfold GetAccessGroupMember, memberRecord.
  destruct (GroupMembershipKeyToAccessGroupMember bav !! _) as [r|] eqn:Hlookup;
    [by exists bav|].
  destruct (DBGetMemberFromMembershipIndex env m o n) as [r|] eqn:Hdb; [|by exists bav].
  pose proof (Hstore _ _ _ _ Hdb) as Hpk.
  eexists. split; [reflexivity|]. simpl. rewrite Hpk. repeat split.
  - intros k r'. simpl. rewrite lookup_insert. case_decide as Hk.
    + intros [= <-]. by subst k.
    + apply Hview.
  - exact Hstore.
  - intros m'. rewrite lookup_insert. case_decide as Hk.
    + injection Hk as <-. by rewrite Hlookup.
    + done.
Qed.

(** ** AccessGroupMembers *)

Lemma validateAccessMembers_Return {B} (env : Collaborators B)
    (accessGroupMembers : list (option AccessGroupMember)) :
  ∀ (newAccessMembers r : list (option AccessGroupMember)) (bav bav' : UtxoView B),
    validateAccessMembers env accessGroupMembers newAccessMembers bav = (bav', Return r) →
    r = newAccessMembers ++ accessGroupMembers.
Proof.
  induction accessGroupMembers as [|t rest IH]; intros acc r bav bav' Hrun.
  - injection Hrun as <- <-. by rewrite app_nil_r.
  - simpl in Hrun.
    apply bind_Return in Hrun as (bav1 & member & _ & Hrun).
    apply bind_Return in Hrun as (bav2 & [] & _ & Hrun).
    apply bind_Return in Hrun as (bav3 & [] & _ & Hrun).
    apply bind_Return in Hrun as (bav4 & memberGroupEntry & _ & Hrun).
    destruct (notDeleted memberGroupEntry); [|discriminate].
    apply IH in Hrun. by rewrite <- app_assoc in Hrun.
Qed.

Lemma _connectAccessGroupMembers_keyed {B} (env : Collaborators B) (txn : MsgDeSoTxn)
    (txHash : list byte) (blockHeight : N) (verifySignatures : bool) :
  preserves (MembershipKeyed env)
    (_connectAccessGroupMembers env txn txHash blockHeight verifySignatures).
Proof.
  unfold _connectAccessGroupMembers.
  apply preserves_bind; [apply preserves_keeps_membership, keeps_failIf|intros _].
  destruct (TxnMeta txn) as [|txMeta| | |];
    try (apply preserves_keeps_membership, keeps_fail).
  apply preserves_bind; [apply preserves_keeps_membership, keeps_failIf|intros _].
  apply preserves_bind; [apply preserves_keeps_membership, keeps_failWith|intros _].
  apply preserves_bind; [apply preserves_keeps_membership, keeps_failOn|intros _].
  apply preserves_bind; [apply preserves_keeps_membership, keeps_failIf|intros _].
  apply preserves_bind;
    [by apply preserves_keeps_membership, keeps_connectBasicTransfer
    |intros [[totalInput totalOutput] ops]].
  destruct (accessGroupKeyAndPublicKey _ _ _ _) as [accessGroupKey accessPublicKey].
  apply preserves_bind;
    [by apply preserves_keeps_membership, keeps_get_entry|intros existingEntry].
  destruct (notDeleted existingEntry) as [existing|];
    [|apply preserves_keeps_membership, keeps_fail].
  apply preserves_bind; [apply preserves_keeps_membership, keeps_failIf|intros _].
  apply preserves_bind.
  { destruct (AccessGroupMemberOperationType_ txMeta);
      [by apply preserves_keeps_membership, keeps_validateAccessMembers
      |apply preserves_keeps_membership, keeps_fail..]. }
  intros members. apply preserves_bind; [|intros _; by intros bav].
  intros bav. simpl. revert bav.
  induction members as [|member rest IH]; intros bav Hkeyed; [done|].
  simpl. apply IH. destruct member; [|done]. by apply MembershipKeyed_set.
Qed.

(** The loop of the disconnect run on the members of the transaction against
    themselves, as the operation record of the connect has them: whoever was
    live in the index stays live, and every member of the list is live
    afterwards. *)
Lemma disconnectAccessGroupMembersLoop_keeps_members {B}
    (groupOwnerPublicKey accessGroupKeyName : list byte) (blockHeight : N)
    (members : list (option AccessGroupMember)) :
  ∀ bav bav' : UtxoView B,
    disconnectAccessGroupMembersLoop groupOwnerPublicKey accessGroupKeyName blockHeight
      members members bav = (bav', Return tt) →
    ∀ k, (liveMemberAt bav k
          ∨ ∃ member, Some member ∈ members
              ∧ k = NewGroupMembershipKey (GroupMemberPublicKey member)
                      (NewPublicKey groupOwnerPublicKey)
                      (NewGroupKeyName accessGroupKeyName)) →
         liveMemberAt bav' k.
Proof.
  induction members as [|t rest IH]; intros bav bav' Hrun k Hk.
  - injection Hrun as <-. destruct Hk as [Hk|(member & Hin & _)]; [done|].
    by apply not_elem_of_nil in Hin.
  - simpl in Hrun. destruct t as [member|]; [|discriminate].
    apply bind_Return in Hrun as (bav1 & [] & Hlive & Hrun).
    apply failIf_Return in Hlive as [-> Hlive].
    apply bind_Return in Hrun as (bav1 & [] & Hsame & Hrun).
    apply failIf_Return in Hsame as [-> _].
    apply bind_Return in Hrun as (bav1 & [] & Hdelete & Hrun).
    apply bind_Return in Hrun as (bav2 & [] & Hset & Hrun).
    injection Hdelete as <-. injection Hset as <-.
    apply (IH _ _ Hrun). simpl.
    destruct (decide (k = NewGroupMembershipKey (GroupMemberPublicKey member)
                           (NewPublicKey groupOwnerPublicKey)
                           (NewGroupKeyName accessGroupKeyName))) as [->|Hne].
    + left. exists member. split; [|done]. apply lookup_insert_eq.
    + destruct Hk as [(m' & Hm' & Hlive')|(m' & Hin & ->)].
      * left. exists m'. split; [|done]. simpl.
        rewrite lookup_insert_ne by done. by rewrite lookup_insert_ne by done.
      * apply elem_of_cons in Hin as [[= ->]|Hin]; [done|]. right. by exists m'.
Qed.

Lemma last_snoc_Some {A} (l : list A) (x : A) : last (l ++ [x]) = Some x.
Proof. apply last_snoc. Qed.

(** Whatever AccessGroupMembers transaction is connected and then disconnected
    on the records it emitted, every member it added is live in the membership
    index after the disconnect, under the public key of the transaction as
    owner, provided the sort keeps the members it is given. *)
Lemma connect_then_disconnect_keeps_members {B} (env : Collaborators B) (txn : MsgDeSoTxn)
    (txMeta : AccessGroupMembersMetadata) (txHash : list byte) (blockHeight : N)
    (verifySignatures : bool) (operationType : OperationType)
    (bav bav1 bav2 : UtxoView B) (totals : N * N * list UtxoOperation) :
  TxnMeta txn = AccessGroupMembersTxnMeta txMeta →
  (∀ l x, x ∈ l → x ∈ sortAccessGroupMembers env l) →
  _connectAccessGroupMembers env txn txHash blockHeight verifySignatures bav
    = (bav1, Return totals) →
  _disconnectAccessGroupMembers env operationType txn txHash totals.2 blockHeight bav1
    = (bav2, Return tt) →
  ∀ member, Some member ∈ agmAccessGroupMembers txMeta →
    liveMemberAt bav2
      (NewGroupMembershipKey (GroupMemberPublicKey member) (NewPublicKey (txnPublicKey txn))
         (NewGroupKeyName (agmAccessGroupKeyName txMeta))).
Proof.
  intros Hmeta Hsort Hconnect Hdisconnect member Hin.
  (* the record of the connect carries the members of the transaction *)
  assert (∃ ops record, totals.2 = ops ++ [record]
            ∧ PrevAccessGroupMembers record = agmAccessGroupMembers txMeta)
    as (ops & record & Hops & Hprev).
  { unfold _connectAccessGroupMembers in Hconnect. rewrite Hmeta in Hconnect.
    do 5 (apply bind_Return in Hconnect as (? & [] & _ & Hconnect)).
    apply bind_Return in Hconnect as (? & [[totalInput totalOutput] ops] & _ & Hconnect).
    destruct (accessGroupKeyAndPublicKey _ _ _ _) as [accessGroupKey accessPublicKey].
    apply bind_Return in Hconnect as (? & existingEntry & _ & Hconnect).
    destruct (notDeleted existingEntry) as [existing|]; [|discriminate].
    apply bind_Return in Hconnect as (? & [] & _ & Hconnect).
    apply bind_Return in Hconnect as (? & newMembers & Hvalidate & Hconnect).
    apply bind_Return in Hconnect as (? & [] & _ & Hconnect).
    injection Hconnect as _ <-. simpl. eexists _, _. split; [reflexivity|]. simpl.
    destruct (AccessGroupMemberOperationType_ txMeta); try discriminate.
    by apply validateAccessMembers_Return in Hvalidate. }
  unfold _disconnectAccessGroupMembers in Hdisconnect.
  rewrite Hops, last_snoc_Some, Hmeta, Hprev in Hdisconnect.
  apply bind_Return in Hdisconnect as (? & [] & Hcheck & Hdisconnect).
  apply failIf_Return in Hcheck as [-> _].
  apply bind_Return in Hdisconnect as (? & [] & Hcheck & Hdisconnect).
  apply failWith_Return in Hcheck as [-> _].
  apply bind_Return in Hdisconnect as (? & [] & Hcheck & Hdisconnect).
  apply failIf_Return in Hcheck as [-> _].
  apply bind_Return in Hdisconnect as (bav' & [] & Hloop & Hdisconnect).
  pose proof (keeps_disconnectBasicTransfer GroupMembershipKeyToAccessGroupMember
                (λ _ _, eq_refl) env txn txHash
                (take (length (ops ++ [record]) - 1) (ops ++ [record])) blockHeight bav')
    as Hbasic.
  rewrite Hdisconnect in Hbasic. simpl in Hbasic.
  unfold liveMemberAt. rewrite Hbasic.
  apply (disconnectAccessGroupMembersLoop_keeps_members _ _ _ _ _ _ Hloop).
  right. exists member. split; [by apply Hsort|done].
Qed.

(** C2: Alice adds Bob to "room" and the transaction is disconnected at once
    on the records it emitted; Bob is in the membership index after the
    connect and still there, not tombstoned, after the disconnect. *)
Theorem added_member_survives_disconnect :
  let connected :=
    _connectAccessGroupMembers Example.node Example.addBobTxn [] 25 true Example.roomView in
  let disconnected :=
    _disconnectAccessGroupMembers Example.node OperationTypeAccessGroupMembers
      Example.addBobTxn [] (utxoOpsOf connected.2) 25 connected.1 in
  returned connected.2 = true
  ∧ (GetAccessGroupMember Example.node (Some Example.bobPK) (Some Example.alicePK)
       (Some (NewGroupKeyName Example.roomName)) 25 connected.1).2
    = Some Example.bob
  ∧ disconnected.2 = Return tt
  ∧ (GetAccessGroupMember Example.node (Some Example.bobPK) (Some Example.alicePK)
       (Some (NewGroupKeyName Example.roomName)) 25 disconnected.1).2
    = Some Example.bob
  ∧ agmIsDeleted Example.bob = false.
Proof. vm_compute. repeat split; reflexivity. Qed.

(** Whether [_connectAccessGroupMembers] returns or fails, and with what, does
    not depend on the membership index: it cannot tell a member that is
    already in the group. *)
Lemma _connectAccessGroupMembers_outcome_ignores_membership {B} (env : Collaborators B)
    (txn : MsgDeSoTxn) (txHash : list byte) (blockHeight : N) (verifySignatures : bool)
    (m : gmap GroupMembershipKey AccessGroupMember) (bav : UtxoView B) :
  (_connectAccessGroupMembers env txn txHash blockHeight verifySignatures
     (withGroupMembershipKeyToAccessGroupMember m bav)).2
  = (_connectAccessGroupMembers env txn txHash blockHeight verifySignatures bav).2.
Proof.
  unfold _connectAccessGroupMembers.
  assert (Hbind : ∀ A A' (c : View B A) (f : A → View B A'),
            ignoresMembership c →
            (∀ a bav1, (f a (withGroupMembershipKeyToAccessGroupMember m bav1)).2
                       = (f a bav1).2) →
            ∀ bav0, ((c ≫= f) (withGroupMembershipKeyToAccessGroupMember m bav0)).2
                    = ((c ≫= f) bav0).2).
  { intros A A' c f Hc Hf bav0. rewrite !bind_run, Hc.
    destruct (c bav0) as [bav1 [a|e]]; simpl; [apply Hf|done]. }
  revert bav.
  apply Hbind; [apply ignores_failIf|intros _].
  destruct (TxnMeta txn) as [|txMeta| | |]; try done.
  apply Hbind; [apply ignores_failIf|intros _].
  apply Hbind; [apply ignores_failWith|intros _].
  apply Hbind; [apply ignores_failOn|intros _].
  apply Hbind; [apply ignores_failIf|intros _].
  apply Hbind; [apply ignores_connectBasicTransfer|intros [[totalInput totalOutput] ops]].
  destruct (accessGroupKeyAndPublicKey _ _ _ _) as [accessGroupKey accessPublicKey].
  apply Hbind; [apply ignores_get_entry|intros existingEntry].
  destruct (notDeleted existingEntry) as [existing|]; [|done].
  apply Hbind; [apply ignores_failIf|intros _].
  apply Hbind.
  { destruct (AccessGroupMemberOperationType_ txMeta);
      [apply ignores_validateAccessMembers|apply ignores_fail..]. }
  intros members bav. by rewrite !bind_run.
Qed.

(** C6: Bob is a member of "room"; adding him again with AccessGroupMembers
    returns, and so does adding him again with CreateAccessGroup above the
    access-groups height, while below that height the same transaction fails
    with MemberAlreadyExists. *)
Theorem duplicate_member_is_accepted :
  let createdAbove :=
    (_connectAccessGroupCreate Example.node Example.createRoomWithBobTxn [] 25 true
       Example.emptyView).1 in
  let createdBelow :=
    (_connectAccessGroupCreate Example.node Example.createRoomWithBobTxn [] 12 true
       Example.emptyView).1 in
  (GetAccessGroupMember Example.node (Some Example.bobPK) (Some Example.alicePK)
     (Some (NewGroupKeyName Example.roomName)) 25 Example.roomWithBobView).2
    = Some Example.bob
  ∧ returned
      (_connectAccessGroupMembers Example.node Example.addBobTxn [] 25 true
         Example.roomWithBobView).2 = true
  ∧ returned
      (_connectAccessGroupCreate Example.node Example.createRoomWithBobTxn [] 25 true
         createdAbove).2 = true
  ∧ (_connectAccessGroupCreate Example.node Example.createRoomWithBobTxn [] 12 true
       createdBelow).2
    = Fail (Rule RuleErrorAccessMemberAlreadyExists).
Proof. vm_compute. repeat split; reflexivity. Qed.

(** ** CreateAccessGroup: members and the signature of the default key *)

(** Adding members with CreateAccessGroup, below or above the access-groups
    height, leaves the membership index of the view as it was. *)
Lemma _connectAccessGroupCreate_AddMembers_keeps_membership {B} (env : Collaborators B)
    (txn : MsgDeSoTxn) (txHash : list byte) (blockHeight : N) (verifySignatures : bool) :
  (blockHeight <? DeSoAccessGroupsBlockHeight env)%N = true
  ∨ GetAccessGroupOperation env txn = inr AccessGroupOperationAddMembers →
  keeps GroupMembershipKeyToAccessGroupMember
    (_connectAccessGroupCreate env txn txHash blockHeight verifySignatures).
Proof.
  intros Hadd. unfold _connectAccessGroupCreate.
  apply keeps_bind; [apply keeps_failIf|intros _].
  destruct (TxnMeta txn) as [txMeta| | | |]; try apply keeps_fail.
  apply keeps_bind; [apply keeps_failIf|intros _].
  apply keeps_bind; [apply keeps_failWith|intros _].
  apply keeps_bind; [apply keeps_failOn|intros _].
  apply keeps_bind; [apply keeps_failIf|intros _].
  apply keeps_bind; [by apply keeps_connectBasicTransfer|intros [[totalInput totalOutput] ops]].
  destruct (accessGroupKeyAndPublicKey _ _ _ _) as [accessGroupKey accessPublicKey].
  apply keeps_bind; [by apply keeps_get_entry|intros existingEntry].
  assert (Hop : (if (blockHeight <? DeSoAccessGroupsBlockHeight env)%N
                 then mret AccessGroupOperationAddMembers
                 else match GetAccessGroupOperation env txn with
                      | inl cause => fail (ExternalError cause)
                      | inr operation => mret operation
                      end : View B _) = mret AccessGroupOperationAddMembers).
  { destruct (blockHeight <? _)%N; [done|]. by destruct Hadd as [?| ->]. }
  rewrite Hop. clear Hop. apply keeps_bind_ret.
  apply keeps_bind; [apply keeps_failIf|intros _].
  apply keeps_bind.
  { unfold accessGroupOperationSwitch.
    destruct (blockHeight <? _)%N.
    - apply keeps_bind.
      + destruct (notDeleted existingEntry); [|apply keeps_ret].
        apply keeps_bind; [apply keeps_failIf|intros _].
        apply keeps_collectExistingMembers.
      + intros [existingMembers members].
        apply keeps_bind; [by apply keeps_validateAccessMembersLegacy|intros ?].
        apply keeps_ret.
    - apply keeps_bind; [by apply keeps_validateAccessMembers|intros ?]. apply keeps_ret. }
  intros [returned|lists]; [apply keeps_ret|].
  unfold storeAccessGroupEntry.
  destruct (copyOfExistingEntry env blockHeight existingEntry) as [[cause|]|prev];
    [apply keeps_fail|apply keeps_ret|].
  apply keeps_bind.
  { destruct (_ <=? _)%N; [|apply keeps_ret].
    apply keeps_bind; [by apply keeps_setIsMutedMappings|intros _].
    by apply keeps_setIsMutedMappings. }
  intros _. apply keeps_bind; [by apply keeps_set_entry|intros _]. apply keeps_ret.
Qed.

(** C5: above the access-groups height Alice creates "room" with Bob as a
    member; the connect returns, Bob is in the member list of the entry in the
    registry, and the membership index has no record of him. *)
Theorem create_stores_members_in_entry :
  let connected :=
    _connectAccessGroupCreate Example.node Example.createRoomWithBobTxn [] 25 true
      Example.emptyView in
  (DeSoAccessGroupsBlockHeight Example.node <=? 25)%N = true
  ∧ returned connected.2 = true
  ∧ DEPRECATED_AccessGroupMembers
      <$> (GetAccessGroupKeyToAccessGroupEntryMapping Example.node Example.roomKey
             connected.1).2
    = Some [Some Example.bob]
  ∧ (GetAccessGroupMember Example.node (Some Example.bobPK) (Some Example.alicePK)
       (Some (NewGroupKeyName Example.roomName)) 25 connected.1).2
    = None
  ∧ GroupMembershipKeyToAccessGroupMember connected.1
      !! NewGroupMembershipKey Example.bobPK Example.alicePK Example.roomName
    = None.
Proof. vm_compute. repeat split; reflexivity. Qed.

(** [_connectMessagingGroup] rejects a default key whose signature does not
    verify, below the access-groups height. *)
Lemma _connectMessagingGroup_checks_signature {B} (env : Collaborators B) (txn : MsgDeSoTxn)
    (txMeta : CreateAccessGroupMetadata) (txHash : list byte) (blockHeight : N)
    (verifySignatures : bool) (bav : UtxoView B) (cause : string) :
  TxnMeta txn = MessagingGroupTxnMeta txMeta →
  (blockHeight <? DeSoAccessGroupsBlockHeight env)%N = true →
  NewGroupKeyName (cagAccessGroupKeyName txMeta) = DefaultGroupKeyName →
  _verifyBytesSignature env (txnPublicKey txn)
    (cagAccessPublicKey txMeta ++ cagAccessGroupKeyName txMeta)
    (cagGroupOwnerSignature txMeta) blockHeight = Some cause →
  ∃ e, Messaging._connectMessagingGroup env txn txHash blockHeight verifySignatures bav
       = (bav, Fail e).
Proof.
  intros Hmeta Hheight Hname Hsignature.
  unfold Messaging._connectMessagingGroup. rewrite Hmeta.
  apply check_then_fails; [apply failIf_check|].
  apply check_then_fails; [apply failIf_check|].
  apply check_then_fails; [apply failWith_check|].
  apply check_then_fails; [apply failOn_check|].
  apply check_then_fails; [apply failIf_check|].
  unfold Messaging.verifyGroupOwnerSignature.
  rewrite Hheight, Hname, Hsignature.
  rewrite (proj2 (EqualGroupKeyName_true DefaultGroupKeyName DefaultGroupKeyName) eq_refl).
  by eexists.
Qed.

(** C4: below the access-groups height Alice registers the default key with
    a signature that does not verify; [_connectAccessGroupCreate] connects the
    transaction and stores the group, where [_connectMessagingGroup] rejects
    it. *)
Theorem default_key_signature_is_not_checked :
  let connected :=
    _connectAccessGroupCreate Example.node Example.createDefaultKeyTxn [] 12 true
      Example.emptyView in
  (12 <? DeSoAccessGroupsBlockHeight Example.node)%N = true
  ∧ NewGroupKeyName Example.defaultName = DefaultGroupKeyName
  ∧ _verifyBytesSignature Example.node Example.alicePK
      (Example.roomAccessPK ++ Example.defaultName) [] 12 = Some "invalid signature"%string
  ∧ returned connected.2 = true
  ∧ ageIsDeleted
      <$> (AccessGroupKeyToAccessGroupEntry connected.1
             !! NewAccessGroupKey Example.alicePK Example.defaultName)
    = Some false
  ∧ (Messaging._connectMessagingGroup Example.node Example.messagingDefaultKeyTxn [] 12 true
       Example.emptyView).2
    = Fail (ExternalErrorNaming "invalid signature" RuleErrorAccessGroupSignatureInvalid).
Proof. vm_compute. repeat split; reflexivity. Qed.

(** ** CreateAccessGroup: muting members *)

Lemma GetGroupMemberAttributeEntry_view {B} (env : Collaborators B) (bav : UtxoView B)
    (k : GroupEnumerationKey) (t : N) (attributeEntry : AttributeEntry) :
  memberAttribute bav k t = Some attributeEntry →
  GetGroupMemberAttributeEntry env k t bav = Return (Some attributeEntry).
Proof. intros H. unfold GetGroupMemberAttributeEntry. by rewrite H. Qed.

Lemma GetGroupMemberAttributeEntry_ext {B} (env : Collaborators B) (bav bav' : UtxoView B)
    (k : GroupEnumerationKey) (t : N) :
  GroupMemberAttributes bav' = GroupMemberAttributes bav →
  GetGroupMemberAttributeEntry env k t bav' = GetGroupMemberAttributeEntry env k t bav.
Proof.
  intros H. unfold GetGroupMemberAttributeEntry, memberAttribute. by rewrite H.
Qed.

Lemma isMutedSet_ext {B} (env : Collaborators B) (bav bav' : UtxoView B) o n m :
  GroupMemberAttributes bav' = GroupMemberAttributes bav →
  isMutedSet env bav' o n m ↔ isMutedSet env bav o n m.
Proof.
  intros H. unfold isMutedSet.
  by setoid_rewrite (GetGroupMemberAttributeEntry_ext env bav bav' _ _ H).
Qed.




Lemma GetAccessGroupKeyToAccessGroupEntryMapping_fields {B} (env : Collaborators B)
    (bav bav' : UtxoView B) (k : AccessGroupKey) :
  AccessGroupKeyToAccessGroupEntry bav' = AccessGroupKeyToAccessGroupEntry bav →
  (GetAccessGroupKeyToAccessGroupEntryMapping env k bav').2
  = (GetAccessGroupKeyToAccessGroupEntryMapping env k bav).2.
Proof.
  intros H. unfold GetAccessGroupKeyToAccessGroupEntryMapping. rewrite H.
  destruct (EqualGroupKeyName _ _); [done|].
  destruct (AccessGroupKeyToAccessGroupEntry bav !! k); [done|].
  by destruct (DBGetAccessGroupEntry env k).
Qed.

Lemma accessGroupKeyAndPublicKey_name {B} (env : Collaborators B)
    (txnPublicKey' accessPublicKey accessGroupKeyName : list byte) :
  agkGroupKeyName
    (accessGroupKeyAndPublicKey env txnPublicKey' accessPublicKey accessGroupKeyName).1
  = NewGroupKeyName accessGroupKeyName.
Proof. unfold accessGroupKeyAndPublicKey. by destruct (DeepEqual _ _). Qed.

Lemma ValidateGroupPublicKeyAndName_error {B} (env : Collaborators B)
    (accessPublicKey keyName : list byte) (e : error) :
  ValidateGroupPublicKeyAndName env accessPublicKey keyName = Some e →
  (∃ cause, e = ExternalError cause)
  ∨ e = Rule RuleErrorAccessKeyNameTooShort
  ∨ e = Rule RuleErrorAccessKeyNameTooLong.
Proof.
  unfold ValidateGroupPublicKeyAndName.
  destruct (IsByteArrayValidPublicKey env accessPublicKey) as [cause|].
  - intros [= <-]. left. by exists cause.
  - destruct (Nat.ltb _ _); [intros [= <-]; auto|].
    destruct (Nat.ltb _ _); [intros [= <-]; auto|done].
Qed.


(** The mute mappings of members that are all there: each of them reads as
    the new attribute afterwards, and an attribute that read so before still
    does. *)
Lemma setIsMutedMappings_run {B} (accessGroupEntry : AccessGroupEntry) (isSet : bool)
    (members : list (option AccessGroupMember)) :
  ∀ bav : UtxoView B,
    Forall is_Some members →
    ∃ bav',
      setIsMutedMappings accessGroupEntry isSet members bav = (bav', Return tt)
      ∧ ∀ k, (memberAttribute bav k AccessGroupMemberAttributeIsMuted
                = Some (NewAttributeEntry isSet [])
              ∨ ∃ target, Some target ∈ members
                  ∧ k = NewGroupEnumerationKey (GroupOwnerPublicKey accessGroupEntry)
                          (AccessGroupKeyName accessGroupEntry)
                          (GroupMemberPublicKey target)) →
             memberAttribute bav' k AccessGroupMemberAttributeIsMuted
             = Some (NewAttributeEntry isSet []).
Proof.
  induction members as [|t rest IH]; intros bav Hsome.
  - exists bav. split; [done|]. intros k [Hk|(target & Hin & _)]; [done|].
    by apply not_elem_of_nil in Hin.
  - apply Forall_cons in Hsome as [[target ->] Hsome].
    simpl. rewrite !bind_run. simpl.
    destruct (IH (_setGroupMemberAttributeMapping
                    (NewGroupEnumerationKey (GroupOwnerPublicKey accessGroupEntry)
                       (AccessGroupKeyName accessGroupEntry) (GroupMemberPublicKey target))
                    AccessGroupMemberAttributeIsMuted (NewAttributeEntry isSet []) bav)
                 Hsome) as (bav' & Hrun & Hread).
    exists bav'. split; [exact Hrun|].
    intros k Hk. apply Hread. rewrite memberAttribute_set.
    case_decide as Hdec; [by left|].
    destruct Hk as [Hk|(t & Hin & ->)]; [by left|].
    apply elem_of_cons in Hin as [[= ->]|Hin]; [|right; by exists t].
    exfalso. by apply Hdec.
Qed.














(** * Further properties of the code *)

(** ** The membership index: reads, writes and tombstones *)

(** X1: a read of the membership index that finds nothing leaves the view as
    it is; one that finds a record leaves it in the view under the key it
    read, so that a second read, at any height, answers the same and changes
    nothing.  The store is asked to hand back records of the member it was
    asked for. *)
Theorem GetAccessGroupMember_read_through {B} (env : Collaborators B) (bav : UtxoView B)
    (memberPublicKey groupOwnerPublicKey : PublicKey) (groupKeyName : GroupKeyName)
    (blockHeight blockHeight' : N) :
  (∀ record,
     DBGetMemberFromMembershipIndex env memberPublicKey groupOwnerPublicKey groupKeyName
       = Some record →
     GroupMemberPublicKey record = memberPublicKey) →
  let read :=
    GetAccessGroupMember env (Some memberPublicKey) (Some groupOwnerPublicKey)
      (Some groupKeyName) blockHeight bav in
  (read.2 = None → read.1 = bav)
  ∧ (∀ record, read.2 = Some record →
       GroupMembershipKeyToAccessGroupMember read.1
         !! NewGroupMembershipKey memberPublicKey groupOwnerPublicKey groupKeyName
       = Some record)
  ∧ GetAccessGroupMember env (Some memberPublicKey) (Some groupOwnerPublicKey)
      (Some groupKeyName) blockHeight' read.1 = (read.1, read.2).
Proof.
  intros Hstore read. subst read. unfold GetAccessGroupMember.
  destruct (GroupMembershipKeyToAccessGroupMember bav !! _) as [r|] eqn:Hlookup.
  - simpl. rewrite Hlookup. split; [done|]. split; [|done]. by intros record [= <-].
  - destruct (DBGetMemberFromMembershipIndex env _ _ _) as [r|] eqn:Hdb.
    + simpl. rewrite (Hstore r eq_refl), lookup_insert_eq.
      split; [done|]. split; [|done]. by intros record [= <-].
    + simpl. by rewrite Hlookup.
Qed.

Lemma GetAccessGroupMember_read_through_witness :
  let read :=
    GetAccessGroupMember Scenario.nodeWithStoredBob (Some Example.bobPK)
      (Some Example.alicePK) (Some (NewGroupKeyName Example.roomName)) 25
      Example.emptyView in
  read.2 = Some Example.bob
  ∧ (read.2 = None → read.1 = Example.emptyView)
  ∧ (∀ record, read.2 = Some record →
       GroupMembershipKeyToAccessGroupMember read.1
         !! NewGroupMembershipKey Example.bobPK Example.alicePK
              (NewGroupKeyName Example.roomName)
       = Some record)
  ∧ GetAccessGroupMember Scenario.nodeWithStoredBob (Some Example.bobPK)
      (Some Example.alicePK) (Some (NewGroupKeyName Example.roomName)) 30 read.1
    = (read.1, read.2).
Proof.
  split; [vm_compute; reflexivity|].
  apply (GetAccessGroupMember_read_through Scenario.nodeWithStoredBob Example.emptyView
           Example.bobPK Example.alicePK (NewGroupKeyName Example.roomName) 25 30).
  intros record. vm_compute. by intros [= <-].
Defined.

(** X2: a member that was set reads back as it was set, and a member that
    was then deleted reads back as its tombstone, not as nil: the read hands
    the tombstone on, whatever the durable store holds.  No other key of the
    index is touched. *)
Theorem member_set_delete_get {B} (env : Collaborators B) (bav : UtxoView B)
    (groupOwnerPublicKey : PublicKey) (groupKeyName : GroupKeyName)
    (member : AccessGroupMember) (blockHeight : N) :
  let key :=
    NewGroupMembershipKey (GroupMemberPublicKey member) groupOwnerPublicKey groupKeyName in
  let added :=
    _setAccessGroupMember (Some groupOwnerPublicKey) (Some groupKeyName) (Some member)
      blockHeight bav in
  let deleted :=
    _deleteAccessGroupMember (Some member) (Some groupOwnerPublicKey) (Some groupKeyName)
      added in
  GetAccessGroupMember env (Some (GroupMemberPublicKey member)) (Some groupOwnerPublicKey)
    (Some groupKeyName) blockHeight added = (added, Some member)
  ∧ GetAccessGroupMember env (Some (GroupMemberPublicKey member)) (Some groupOwnerPublicKey)
      (Some groupKeyName) blockHeight deleted
    = (deleted, Some (tombstoneAccessGroupMember member))
  ∧ agmIsDeleted (tombstoneAccessGroupMember member) = true
  ∧ ∀ k, k ≠ key →
      GroupMembershipKeyToAccessGroupMember deleted !! k
      = GroupMembershipKeyToAccessGroupMember bav !! k.
Proof.
  intros key added deleted. subst key added deleted.
  unfold GetAccessGroupMember, _deleteAccessGroupMember, _setAccessGroupMember. simpl.
  rewrite !lookup_insert_eq. split; [done|]. split; [done|]. split; [done|].
  intros k Hk. by rewrite !lookup_insert_ne.
Qed.

(** ** The attribute indexes *)

(** X3: an attribute of a member that was set reads back as it was set
    without a read of the durable store, a deleted one reads back as its
    tombstone with the same flag and value, and a write under one key and type
    changes the answer under no other key or type. *)
Theorem member_attribute_set_delete_get {B} (env : Collaborators B) (bav : UtxoView B)
    (enumerationKey : GroupEnumerationKey) (attributeType : N)
    (attributeEntry : AttributeEntry) :
  GetGroupMemberAttributeEntry env enumerationKey attributeType
    (_setGroupMemberAttributeMapping enumerationKey attributeType attributeEntry bav)
  = Return (Some attributeEntry)
  ∧ GetGroupMemberAttributeEntry env enumerationKey attributeType
      (_deleteGroupMemberAttributeMapping (Some enumerationKey) attributeType
         (Some attributeEntry) bav)
    = Return (Some {| IsSet := IsSet attributeEntry; Value := Value attributeEntry;
                      attrIsDeleted := true |})
  ∧ ∀ enumerationKey' attributeType',
      ¬ (enumerationKey = enumerationKey' ∧ attributeType = attributeType') →
      GetGroupMemberAttributeEntry env enumerationKey' attributeType'
        (_setGroupMemberAttributeMapping enumerationKey attributeType attributeEntry bav)
      = GetGroupMemberAttributeEntry env enumerationKey' attributeType' bav.
Proof.
  split; [|split].
  - apply GetGroupMemberAttributeEntry_view. rewrite memberAttribute_set.
    by rewrite decide_True.
  - apply GetGroupMemberAttributeEntry_view. unfold _deleteGroupMemberAttributeMapping.
    rewrite memberAttribute_set. by rewrite decide_True.
  - intros k' t' Hne. unfold GetGroupMemberAttributeEntry.
    rewrite memberAttribute_set. by rewrite decide_False.
Qed.

Lemma groupAttribute_set {B} (bav : UtxoView B) (k k' : AccessGroupKey) (t t' : N)
    (attributeEntry : AttributeEntry) :
  groupAttribute (_setGroupEntryAttributeMapping k t attributeEntry bav) k' t'
  = if decide (k = k' ∧ t = t') then Some attributeEntry else groupAttribute bav k' t'.
Proof.
  unfold groupAttribute, _setGroupEntryAttributeMapping. simpl.
  destruct (decide (k = k')) as [<-|Hk].
  - rewrite lookup_insert_eq. simpl.
    destruct (decide (t = t')) as [<-|Ht].
    + rewrite lookup_insert_eq. by rewrite decide_True.
    + rewrite lookup_insert_ne by done.
      rewrite decide_False; [|by intros [_ ?]].
      by destruct (GroupEntryAttributes bav !! k).
  - rewrite lookup_insert_ne by done.
    rewrite decide_False; [done|by intros [? _]].
Qed.

(** X4: the same for the attributes of a group, whose getter takes the owner
    and the name and builds the key from them: under the owner and the
    32-byte name of the key that was written, a set attribute reads back as
    set and a deleted one as its tombstone; other keys and types read as
    before. *)
Theorem group_attribute_set_delete_get {B} (env : Collaborators B) (bav : UtxoView B)
    (accessGroupKey : AccessGroupKey) (attributeType : N) (attributeEntry : AttributeEntry) :
  length (agkGroupKeyName accessGroupKey) = MaxAccessKeyNameCharacters →
  GetGroupEntryAttributeEntry env (OwnerPublicKey accessGroupKey)
    (agkGroupKeyName accessGroupKey) attributeType
    (_setGroupEntryAttributeMapping accessGroupKey attributeType attributeEntry bav)
  = Return (Some attributeEntry)
  ∧ GetGroupEntryAttributeEntry env (OwnerPublicKey accessGroupKey)
      (agkGroupKeyName accessGroupKey) attributeType
      (_deleteGroupEntryAttributeMapping accessGroupKey attributeType
         (Some attributeEntry) bav)
    = Return (Some {| IsSet := IsSet attributeEntry; Value := Value attributeEntry;
                      attrIsDeleted := true |})
  ∧ ∀ groupOwnerPublicKey groupKeyName attributeType',
      ¬ (accessGroupKey = NewAccessGroupKey groupOwnerPublicKey groupKeyName
         ∧ attributeType = attributeType') →
      GetGroupEntryAttributeEntry env groupOwnerPublicKey groupKeyName attributeType'
        (_setGroupEntryAttributeMapping accessGroupKey attributeType attributeEntry bav)
      = GetGroupEntryAttributeEntry env groupOwnerPublicKey groupKeyName attributeType' bav.
Proof.
  intros Hlen.
  assert (Hkey : NewAccessGroupKey (OwnerPublicKey accessGroupKey)
                   (agkGroupKeyName accessGroupKey) = accessGroupKey).
  { unfold NewAccessGroupKey. rewrite (NewGroupKeyName_of_padded _ Hlen).
    by destruct accessGroupKey. }
  split; [|split].
  - unfold GetGroupEntryAttributeEntry. rewrite Hkey, groupAttribute_set.
    by rewrite decide_True.
  - unfold GetGroupEntryAttributeEntry, _deleteGroupEntryAttributeMapping.
    rewrite Hkey, groupAttribute_set. by rewrite decide_True.
  - intros o n t' Hne. unfold GetGroupEntryAttributeEntry.
    rewrite groupAttribute_set. by rewrite decide_False.
Qed.

Lemma group_attribute_set_delete_get_witness :
  GetGroupEntryAttributeEntry Example.node (OwnerPublicKey Example.roomKey)
    (agkGroupKeyName Example.roomKey) 7
    (_setGroupEntryAttributeMapping Example.roomKey 7 Example.oldAttribute Example.roomView)
  = Return (Some Example.oldAttribute)
  ∧ GetGroupEntryAttributeEntry Example.node (OwnerPublicKey Example.roomKey)
      (agkGroupKeyName Example.roomKey) 7
      (_deleteGroupEntryAttributeMapping Example.roomKey 7
         (Some Example.oldAttribute) Example.roomView)
    = Return (Some {| IsSet := IsSet Example.oldAttribute;
                      Value := Value Example.oldAttribute;
                      attrIsDeleted := true |})
  ∧ ∀ groupOwnerPublicKey groupKeyName attributeType',
      ¬ (Example.roomKey = NewAccessGroupKey groupOwnerPublicKey groupKeyName
         ∧ 7%N = attributeType') →
      GetGroupEntryAttributeEntry Example.node groupOwnerPublicKey groupKeyName attributeType'
        (_setGroupEntryAttributeMapping Example.roomKey 7 Example.oldAttribute
           Example.roomView)
      = GetGroupEntryAttributeEntry Example.node groupOwnerPublicKey groupKeyName
          attributeType' Example.roomView.
Proof.
  apply (group_attribute_set_delete_get Example.node Example.roomView Example.roomKey 7
           Example.oldAttribute).
  vm_compute. reflexivity.
Defined.

(** ** The getters of a group *)

Lemma NewAccessGroupKey_of_key (k : AccessGroupKey) :
  length (agkGroupKeyName k) = MaxAccessKeyNameCharacters →
  NewAccessGroupKey (OwnerPublicKey k) (agkGroupKeyName k) = k.
Proof.
  intros Hlen. unfold NewAccessGroupKey. rewrite (NewGroupKeyName_of_padded _ Hlen).
  by destruct k.
Qed.

(** X5: [GetAccessGroupEntry] does not look at the membership index: for
    every member public key it answers what the getter of the registry
    answers for the group, and [GetAccessGroupForAccessGroupKeyExistence]
    answers the same with tombstones turned into nil.  The one exception is a
    view that holds an entry under a key with the base name: there
    [GetAccessGroupEntry] hands back the entry of the view and the getter of
    the registry the synthesized base entry. *)
Theorem GetAccessGroupEntry_is_registry_read {B} (env : Collaborators B) (bav : UtxoView B)
    (memberPublicKey : PublicKey) (accessGroupKey : AccessGroupKey) (blockHeight : N) :
  length (agkGroupKeyName accessGroupKey) = MaxAccessKeyNameCharacters →
  let registryRead := GetAccessGroupKeyToAccessGroupEntryMapping env accessGroupKey bav in
  ((agkGroupKeyName accessGroupKey = BaseGroupKeyName →
    AccessGroupKeyToAccessGroupEntry bav !! accessGroupKey = None) →
   GetAccessGroupEntry env (Some memberPublicKey) (Some (OwnerPublicKey accessGroupKey))
     (Some (agkGroupKeyName accessGroupKey)) blockHeight bav = registryRead
   ∧ GetAccessGroupForAccessGroupKeyExistence env (Some accessGroupKey) blockHeight bav
     = (registryRead.1, notDeleted registryRead.2))
  ∧ (∀ e, agkGroupKeyName accessGroupKey = BaseGroupKeyName →
          AccessGroupKeyToAccessGroupEntry bav !! accessGroupKey = Some e →
          GetAccessGroupEntry env (Some memberPublicKey)
            (Some (OwnerPublicKey accessGroupKey))
            (Some (agkGroupKeyName accessGroupKey)) blockHeight bav = (bav, Some e)
          ∧ registryRead = (bav, Some (baseGroupEntry (OwnerPublicKey accessGroupKey)))).
Proof.
  intros Hlen registryRead. subst registryRead.
  pose proof (NewAccessGroupKey_of_key accessGroupKey Hlen) as Hkey.
  split.
  - intros Hbase.
    assert (Hentry : GetAccessGroupEntry env (Some memberPublicKey)
                       (Some (OwnerPublicKey accessGroupKey))
                       (Some (agkGroupKeyName accessGroupKey)) blockHeight bav
                     = GetAccessGroupKeyToAccessGroupEntryMapping env accessGroupKey bav).
    { unfold GetAccessGroupEntry. rewrite Hkey.
      destruct (AccessGroupKeyToAccessGroupEntry bav !! accessGroupKey) as [e|] eqn:Hlookup;
        [|done].
      unfold GetAccessGroupKeyToAccessGroupEntryMapping. rewrite Hlookup.
      destruct (EqualGroupKeyName _ _) eqn:Hname; [|done].
      apply EqualGroupKeyName_true in Hname. by specialize (Hbase Hname). }
    split; [exact Hentry|].
    unfold GetAccessGroupForAccessGroupKeyExistence.
    assert (Hentry' : GetAccessGroupEntry env (Some (OwnerPublicKey accessGroupKey))
                        (Some (OwnerPublicKey accessGroupKey))
                        (Some (agkGroupKeyName accessGroupKey)) blockHeight bav
                      = GetAccessGroupKeyToAccessGroupEntryMapping env accessGroupKey bav).
    { rewrite <- Hentry. unfold GetAccessGroupEntry. done. }
    rewrite Hentry'.
    destruct (GetAccessGroupKeyToAccessGroupEntryMapping env accessGroupKey bav)
      as [bav' [e|]]; simpl; [|done].
    by destruct (ageIsDeleted e).
  - intros e Hname Hlookup. split.
    + unfold GetAccessGroupEntry. by rewrite Hkey, Hlookup.
    + unfold GetAccessGroupKeyToAccessGroupEntryMapping.
      by rewrite (proj2 (EqualGroupKeyName_true _ _) Hname).
Qed.

Lemma GetAccessGroupEntry_is_registry_read_witness :
  let registryRead :=
    GetAccessGroupKeyToAccessGroupEntryMapping Scenario.nodeWithStoredBob Example.roomKey
      Example.emptyView in
  registryRead.2 = Some Example.storedRoom
  ∧ ((agkGroupKeyName Example.roomKey = BaseGroupKeyName →
      AccessGroupKeyToAccessGroupEntry Example.emptyView !! Example.roomKey = None) →
     GetAccessGroupEntry Scenario.nodeWithStoredBob (Some Example.bobPK)
       (Some (OwnerPublicKey Example.roomKey))
       (Some (agkGroupKeyName Example.roomKey)) 25 Example.emptyView = registryRead
     ∧ GetAccessGroupForAccessGroupKeyExistence Scenario.nodeWithStoredBob
         (Some Example.roomKey) 25 Example.emptyView
       = (registryRead.1, notDeleted registryRead.2))
  ∧ (∀ e, agkGroupKeyName Example.roomKey = BaseGroupKeyName →
          AccessGroupKeyToAccessGroupEntry Example.emptyView !! Example.roomKey = Some e →
          GetAccessGroupEntry Scenario.nodeWithStoredBob (Some Example.bobPK)
            (Some (OwnerPublicKey Example.roomKey))
            (Some (agkGroupKeyName Example.roomKey)) 25 Example.emptyView
          = (Example.emptyView, Some e)
          ∧ registryRead
            = (Example.emptyView, Some (baseGroupEntry (OwnerPublicKey Example.roomKey)))).
Proof.
  split; [vm_compute; reflexivity|].
  apply (GetAccessGroupEntry_is_registry_read Scenario.nodeWithStoredBob Example.emptyView
           Example.bobPK Example.roomKey 25).
  vm_compute. reflexivity.
Defined.

(** X6: the older getter of a member, of lib/block_view_message.go, answers
    what the newer one answers for every view and every argument, nil ones
    too; it differs from it only in that it never writes the view. *)
Theorem GetMessagingMember_is_GetAccessGroupMember {B} (env : Collaborators B)
    (bav : UtxoView B) (memberPublicKey groupOwnerPublicKey : option PublicKey)
    (groupKeyName : option GroupKeyName) (blockHeight : N) :
  Messaging.GetMessagingMember env memberPublicKey groupOwnerPublicKey groupKeyName
    blockHeight bav
  = (GetAccessGroupMember env memberPublicKey groupOwnerPublicKey groupKeyName
       blockHeight bav).2.
Proof.
  unfold Messaging.GetMessagingMember, GetAccessGroupMember.
  destruct memberPublicKey as [m|], groupOwnerPublicKey as [o|], groupKeyName as [n|];
    try done.
  destruct (GroupMembershipKeyToAccessGroupMember bav !! _); [done|].
  by destruct (DBGetMemberFromMembershipIndex env m o n).
Qed.

(** ** Validation of a group against the view *)

Lemma failWith_None {B} (bav : UtxoView B) : failWith None bav = (bav, Return tt).
Proof. reflexivity. Qed.

Lemma call_run {B A} (f : UtxoView B → UtxoView B * A) (bav : UtxoView B) :
  call f bav = ((f bav).1, Return (f bav).2).
Proof. unfold call. by destruct (f bav). Qed.

Lemma existence_getter_keyed {B} (env : Collaborators B) (bav : UtxoView B)
    (accessGroupKey : AccessGroupKey) (blockHeight : N) (e : AccessGroupEntry) :
  RegistryKeyed env bav →
  (GetAccessGroupForAccessGroupKeyExistence env (Some accessGroupKey) blockHeight bav).2
    = Some e →
  AccessGroupKeyName e = NewGroupKeyName (agkGroupKeyName accessGroupKey)
  ∧ ageIsDeleted e = false.
Proof.
  intros [Hview Hstore]. unfold GetAccessGroupForAccessGroupKeyExistence.
  destruct (GetAccessGroupEntry env _ _ _ _ bav) as [bav' [entry|]] eqn:Hget; [|done].
  simpl. destruct (ageIsDeleted entry) eqn:Hdeleted; [done|]. simpl. intros [= ->].
  split; [|done].
  unfold GetAccessGroupEntry in Hget.
  destruct (AccessGroupKeyToAccessGroupEntry bav !! _) as [mapValue|] eqn:Hlookup.
  { injection Hget as _ <-. by apply Hview in Hlookup. }
  unfold GetAccessGroupKeyToAccessGroupEntryMapping in Hget.
  destruct (EqualGroupKeyName _ _) eqn:Hname.
  { injection Hget as _ <-. apply EqualGroupKeyName_true in Hname. symmetry. exact Hname. }
  rewrite Hlookup in Hget.
  destruct (DBGetAccessGroupEntry env _) as [stored|] eqn:Hdb; [|done].
  injection Hget as _ <-. by apply Hstore in Hdb.
Qed.

(** X7: on a registry and a store keyed by the names of their entries,
    [ValidateAccessGroupPublicKeyAndNameWithUtxoView] returns a nil error
    exactly when the owner key and the name pass
    [ValidateGroupPublicKeyAndName] and the group of the owner under the
    padded name exists and is no tombstone; its last check, of the name of the
    entry, never fails there. *)
Theorem ValidateAccessGroupPublicKeyAndNameWithUtxoView_iff {B} (env : Collaborators B)
    (bav : UtxoView B) (groupOwnerPublicKey groupKeyName : list byte) (blockHeight : N) :
  RegistryKeyed env bav →
  (ValidateAccessGroupPublicKeyAndNameWithUtxoView env groupOwnerPublicKey groupKeyName
     blockHeight bav).2 = Return tt
  ↔ ValidateGroupPublicKeyAndName env groupOwnerPublicKey groupKeyName = None
    ∧ is_Some (GetAccessGroupForAccessGroupKeyExistence env
                 (Some (NewAccessGroupKey (NewPublicKey groupOwnerPublicKey) groupKeyName))
                 blockHeight bav).2.
Proof.
  intros Hkeyed. unfold ValidateAccessGroupPublicKeyAndNameWithUtxoView.
  pose proof (existence_getter_keyed env bav
                (NewAccessGroupKey (NewPublicKey groupOwnerPublicKey) groupKeyName)
                blockHeight) as Hexists.
  destruct (GetAccessGroupForAccessGroupKeyExistence env _ blockHeight bav)
    as [bav' entry] eqn:Hread.
  rewrite bind_run.
  destruct (ValidateGroupPublicKeyAndName env groupOwnerPublicKey groupKeyName) as [err|].
  { split; [done|]. by intros [? _]. }
  rewrite failWith_None, bind_run, call_run, Hread.
  cbn [fst snd]. destruct entry as [e|]; cbn beta iota.
  - destruct (Hexists e Hkeyed eq_refl) as [Hname Hlive]. simpl in Hname.
    rewrite NewGroupKeyName_idemp in Hname.
    unfold notDeleted. rewrite Hlive, Hname.
    rewrite (proj2 (EqualGroupKeyName_true _ _) eq_refl). simpl. by split.
  - split; [done|]. by intros [_ [? ?]].
Qed.

Lemma RegistryKeyed_emptyView (env : Collaborators unit) :
  (∀ k e, DBGetAccessGroupEntry env k = Some e → AccessGroupKeyName e = agkGroupKeyName k) →
  RegistryKeyed env Example.emptyView.
Proof. intros Hstore. split; [|done]. intros k e. simpl. by rewrite lookup_empty. Qed.

Lemma RegistryKeyed_nodeWithStoredBob :
  RegistryKeyed Scenario.nodeWithStoredBob Example.emptyView.
Proof.
  apply RegistryKeyed_emptyView. intros k e. simpl. unfold Scenario.storedEntries.
  case_bool_decide as Hk; [|done]. intros [= <-]. by subst k.
Qed.

Lemma ValidateAccessGroupPublicKeyAndNameWithUtxoView_iff_witness :
  (ValidateAccessGroupPublicKeyAndNameWithUtxoView Scenario.nodeWithStoredBob
     Example.alicePK Example.roomName 25 Example.emptyView).2 = Return tt
  ∧ ((ValidateAccessGroupPublicKeyAndNameWithUtxoView Scenario.nodeWithStoredBob
        Example.alicePK Example.roomName 25 Example.emptyView).2 = Return tt
     ↔ ValidateGroupPublicKeyAndName Scenario.nodeWithStoredBob Example.alicePK
         Example.roomName = None
       ∧ is_Some (GetAccessGroupForAccessGroupKeyExistence Scenario.nodeWithStoredBob
                    (Some (NewAccessGroupKey (NewPublicKey Example.alicePK)
                             Example.roomName))
                    25 Example.emptyView).2).
Proof.
  split; [vm_compute; reflexivity|].
  apply (ValidateAccessGroupPublicKeyAndNameWithUtxoView_iff Scenario.nodeWithStoredBob
           Example.emptyView Example.alicePK Example.roomName 25).
  exact RegistryKeyed_nodeWithStoredBob.
Defined.

(** X8: with the access public key as a third argument, the validation
    returns a nil error exactly when both keys pass
    [ValidateGroupPublicKeyAndName] with the name, and the group exists, is no
    tombstone and carries that access public key. *)
Theorem ValidateAccessGroupPublicKeyAndNameAndAccessPublicKeyWithUtxoView_iff {B}
    (env : Collaborators B) (bav : UtxoView B)
    (groupOwnerPublicKey accessPublicKey groupKeyName : list byte) (blockHeight : N) :
  RegistryKeyed env bav →
  (ValidateAccessGroupPublicKeyAndNameAndAccessPublicKeyWithUtxoView env groupOwnerPublicKey
     accessPublicKey groupKeyName blockHeight bav).2 = Return tt
  ↔ ValidateGroupPublicKeyAndName env groupOwnerPublicKey groupKeyName = None
    ∧ ValidateGroupPublicKeyAndName env accessPublicKey groupKeyName = None
    ∧ ∃ e, (GetAccessGroupForAccessGroupKeyExistence env
              (Some (NewAccessGroupKey (NewPublicKey groupOwnerPublicKey) groupKeyName))
              blockHeight bav).2 = Some e
           ∧ AccessPublicKey e = accessPublicKey.
Proof.
  intros Hkeyed.
  unfold ValidateAccessGroupPublicKeyAndNameAndAccessPublicKeyWithUtxoView.
  pose proof (existence_getter_keyed env bav
                (NewAccessGroupKey (NewPublicKey groupOwnerPublicKey) groupKeyName)
                blockHeight) as Hexists.
  destruct (GetAccessGroupForAccessGroupKeyExistence env _ blockHeight bav)
    as [bav' entry] eqn:Hread.
  rewrite bind_run.
  destruct (ValidateGroupPublicKeyAndName env groupOwnerPublicKey groupKeyName) as [err|].
  { split; [done|]. by intros [? _]. }
  rewrite failWith_None, bind_run.
  destruct (ValidateGroupPublicKeyAndName env accessPublicKey groupKeyName) as [err|].
  { split; [done|]. by intros (_ & ? & _). }
  rewrite failWith_None, bind_run, call_run, Hread.
  cbn [fst snd]. destruct entry as [e|]; cbn beta iota.
  - destruct (Hexists e Hkeyed eq_refl) as [Hname Hlive]. simpl in Hname.
    rewrite NewGroupKeyName_idemp in Hname.
    unfold notDeleted. rewrite Hlive, bind_run, Hname.
    rewrite (proj2 (EqualGroupKeyName_true _ _) eq_refl). simpl.
    case_bool_decide as Hkey; simpl.
    + split; [|done]. intros _. split; [done|]. split; [done|]. by exists e.
    + split; [done|]. intros (_ & _ & e' & [= <-] & Hsame). done.
  - split; [done|]. by intros (_ & _ & e' & ? & _).
Qed.

Lemma ValidateAccessGroupPublicKeyAndNameAndAccessPublicKeyWithUtxoView_iff_witness :
  (ValidateAccessGroupPublicKeyAndNameAndAccessPublicKeyWithUtxoView
     Scenario.nodeWithStoredBob Example.alicePK Example.roomAccessPK Example.roomName 25
     Example.emptyView).2 = Return tt
  ∧ ((ValidateAccessGroupPublicKeyAndNameAndAccessPublicKeyWithUtxoView
        Scenario.nodeWithStoredBob Example.alicePK Example.roomAccessPK Example.roomName 25
        Example.emptyView).2 = Return tt
     ↔ ValidateGroupPublicKeyAndName Scenario.nodeWithStoredBob Example.alicePK
         Example.roomName = None
       ∧ ValidateGroupPublicKeyAndName Scenario.nodeWithStoredBob Example.roomAccessPK
           Example.roomName = None
       ∧ ∃ e, (GetAccessGroupForAccessGroupKeyExistence Scenario.nodeWithStoredBob
                 (Some (NewAccessGroupKey (NewPublicKey Example.alicePK)
                          Example.roomName))
                 25 Example.emptyView).2 = Some e
              ∧ AccessPublicKey e = Example.roomAccessPK).
Proof.
  split; [vm_compute; reflexivity|].
  apply (ValidateAccessGroupPublicKeyAndNameAndAccessPublicKeyWithUtxoView_iff
           Scenario.nodeWithStoredBob Example.emptyView Example.alicePK
           Example.roomAccessPK Example.roomName 25).
  exact RegistryKeyed_nodeWithStoredBob.
Defined.

(** ** CreateAccessGroup: what the disconnect leaves alone *)

Lemma keeps_disconnectAccessGroupCreate {B X} (field : UtxoView B → X)
    (env : Collaborators B) (operationType : OperationType) (currentTxn : MsgDeSoTxn)
    (txnHash : list byte) (utxoOpsForTxn : list UtxoOperation) (blockHeight : N) :
  (∀ b bav, field (withBasicTransferView b bav) = field bav) →
  (∀ m bav, field (withAccessGroupKeyToAccessGroupEntry m bav) = field bav) →
  keeps field (_disconnectAccessGroupCreate env operationType currentTxn txnHash
                 utxoOpsForTxn blockHeight).
Proof.
  intros Hbasic Hregistry. unfold _disconnectAccessGroupCreate.
  destruct (last utxoOpsForTxn) as [utxoOp|]; [|apply keeps_fail].
  apply keeps_bind; [apply keeps_failIf|intros _].
  destruct (TxnMeta currentTxn) as [txMeta| | | |]; try apply keeps_fail.
  apply keeps_bind; [apply keeps_failWith|intros _].
  apply keeps_bind; [by apply keeps_get_entry|intros accessKeyEntry].
  destruct (notDeleted accessKeyEntry) as [entry|]; [|apply keeps_fail].
  apply keeps_bind; [apply keeps_failIf|intros _].
  apply keeps_bind; [by apply keeps_set_entry|intros _].
  apply keeps_bind.
  { destruct (PrevAccessKeyEntry utxoOp); [by apply keeps_set_entry|apply keeps_ret]. }
  intros _. by apply keeps_disconnectBasicTransfer.
Qed.

(** X9: [_disconnectAccessGroupCreate] writes neither the membership index
    nor the two attribute indexes, whether it returns or fails: the IsMuted
    attributes that a connect with MuteMembers or UnmuteMembers has set stay
    as that connect left them. *)
Theorem _disconnectAccessGroupCreate_leaves_members_and_attributes {B}
    (env : Collaborators B) (operationType : OperationType) (currentTxn : MsgDeSoTxn)
    (txnHash : list byte) (utxoOpsForTxn : list UtxoOperation) (blockHeight : N)
    (bav : UtxoView B) :
  let disconnected :=
    (_disconnectAccessGroupCreate env operationType currentTxn txnHash utxoOpsForTxn
       blockHeight bav).1 in
  GroupMembershipKeyToAccessGroupMember disconnected
    = GroupMembershipKeyToAccessGroupMember bav
  ∧ GroupMemberAttributes disconnected = GroupMemberAttributes bav
  ∧ GroupEntryAttributes disconnected = GroupEntryAttributes bav
  ∧ ∀ enumerationKey attributeType,
      GetGroupMemberAttributeEntry env enumerationKey attributeType disconnected
      = GetGroupMemberAttributeEntry env enumerationKey attributeType bav.
Proof.
  intros disconnected. subst disconnected.
  assert (Hattributes : GroupMemberAttributes
            (_disconnectAccessGroupCreate env operationType currentTxn txnHash
               utxoOpsForTxn blockHeight bav).1 = GroupMemberAttributes bav)
    by by apply keeps_disconnectAccessGroupCreate.
  split; [by apply keeps_disconnectAccessGroupCreate|].
  split; [exact Hattributes|].
  split; [by apply keeps_disconnectAccessGroupCreate|].
  intros k t. by apply GetGroupMemberAttributeEntry_ext.
Qed.

(** ** CreateAccessGroup: an operation the switch does not know *)

Lemma run_Return {B A} (c : View B A) (bav : UtxoView B) (a : A) :
  (c bav).2 = Return a → c bav = ((c bav).1, Return a).
Proof. destruct (c bav) as [bav' r]. simpl. by intros ->. Qed.

Lemma run_Fail {B A} (c : View B A) (bav : UtxoView B) (e : error) :
  (c bav).2 = Fail e → c bav = ((c bav).1, Fail e).
Proof. destruct (c bav) as [bav' r]. simpl. by intros ->. Qed.

Lemma call_Return {B A} (f : UtxoView B → UtxoView B * A) (bav bav' : UtxoView B) (a : A) :
  call f bav = (bav', Return a) → f bav = (bav', a).
Proof. unfold call. destruct (f bav). by intros [= <- <-]. Qed.

Lemma connectBasicTransfer_Return {B} (env : Collaborators B) (txn : MsgDeSoTxn)
    (txHash : list byte) (blockHeight : N) (verifySignatures : bool)
    (bav bav' : UtxoView B) (totals : N * N * list UtxoOperation) :
  connectBasicTransfer env txn txHash blockHeight verifySignatures bav = (bav', Return totals) →
  bav' = withBasicTransferView
           (_connectBasicTransfer env txn txHash blockHeight verifySignatures
              (BasicTransferView bav)).1 bav
  ∧ (_connectBasicTransfer env txn txHash blockHeight verifySignatures
       (BasicTransferView bav)).2 = inr totals.
Proof.
  unfold connectBasicTransfer.
  destruct (_connectBasicTransfer _ _ _ _ _ _) as [b [cause|t]]; [discriminate|].
  by intros [= <- <-].
Qed.

Lemma get_entry_withBasicTransferView {B} (env : Collaborators B) (k : AccessGroupKey)
    (b : B) (bav : UtxoView B) :
  GetAccessGroupKeyToAccessGroupEntryMapping env k (withBasicTransferView b bav)
  = (withBasicTransferView b (GetAccessGroupKeyToAccessGroupEntryMapping env k bav).1,
     (GetAccessGroupKeyToAccessGroupEntryMapping env k bav).2).
Proof.
  unfold GetAccessGroupKeyToAccessGroupEntryMapping. simpl.
  destruct (EqualGroupKeyName _ _); [done|].
  destruct (AccessGroupKeyToAccessGroupEntry bav !! k); [done|].
  by destruct (DBGetAccessGroupEntry env k).
Qed.



(** ** A connect that fails writes nothing *)

Section Clean.
Context {B : Type} (env : Collaborators B).

Lemma nothingWritten_refl (bav : UtxoView B) : nothingWritten env bav bav.
Proof. repeat split; intros k; by left. Qed.

Lemma nothingWritten_trans (bav bav1 bav2 : UtxoView B) :
  nothingWritten env bav bav1 → nothingWritten env bav1 bav2 → nothingWritten env bav bav2.
Proof.
  intros (Hr1 & Hm1 & Ha1 & Hg1) (Hr2 & Hm2 & Ha2 & Hg2).
  split; [|split; [|split; congruence]].
  - intros k. destruct (Hr2 k) as [->|(Hnone & e & Hdb & ->)]; [apply Hr1|].
    right. split; [|by exists e].
    destruct (Hr1 k) as [<-|[? _]]; done.
  - intros k. destruct (Hm2 k) as [->|(Hnone & m & o & n & r & Hk & Hdb & ->)]; [apply Hm1|].
    right. split; [|by exists m, o, n, r].
    destruct (Hm1 k) as [<-|[? _]]; done.
Qed.

(** A step that leaves the four indexes as they are. *)
Lemma nothingWritten_fields (bav bav' : UtxoView B) :
  AccessGroupKeyToAccessGroupEntry bav' = AccessGroupKeyToAccessGroupEntry bav →
  GroupMembershipKeyToAccessGroupMember bav' = GroupMembershipKeyToAccessGroupMember bav →
  GroupMemberAttributes bav' = GroupMemberAttributes bav →
  GroupEntryAttributes bav' = GroupEntryAttributes bav →
  nothingWritten env bav bav'.
Proof.
  intros Hr Hm Ha Hg. repeat split; try done; intros k; left; congruence.
Qed.

Lemma runsClean_failsClean {A} (c : View B A) : runsClean env c → failsClean env c.
Proof. intros Hc bav bav' e Hrun. specialize (Hc bav). by rewrite Hrun in Hc. Qed.

Lemma runsClean_ret {A} (a : A) : runsClean env (mret a).
Proof. intros bav. apply nothingWritten_refl. Qed.

Lemma runsClean_fail {A} (e : error) : runsClean env (fail e : View B A).
Proof. intros bav. apply nothingWritten_refl. Qed.

Lemma runsClean_failIf (cond : bool) (e : error) : runsClean env (failIf cond e).
Proof. intros bav. destruct cond; apply nothingWritten_refl. Qed.

Lemma runsClean_failWith (err : option error) : runsClean env (failWith err).
Proof. intros bav. destruct err; apply nothingWritten_refl. Qed.

Lemma runsClean_failOn (err : option string) : runsClean env (failOn err).
Proof. intros bav. destruct err; apply nothingWritten_refl. Qed.

Lemma runsClean_deref {A} (p : option A) : runsClean env (deref p).
Proof. intros bav. destruct p; apply nothingWritten_refl. Qed.

Lemma runsClean_bind {A A'} (c : View B A) (f : A → View B A') :
  runsClean env c → (∀ a, runsClean env (f a)) → runsClean env (c ≫= f).
Proof.
  intros Hc Hf bav. rewrite bind_run. specialize (Hc bav).
  destruct (c bav) as [bav1 [a|e]]; simpl in *; [|done].
  eapply nothingWritten_trans; [exact Hc|apply Hf].
Qed.

Lemma failsClean_bind {A A'} (c : View B A) (f : A → View B A') :
  runsClean env c → (∀ a, failsClean env (f a)) → failsClean env (c ≫= f).
Proof.
  intros Hc Hf bav bav' e Hrun. rewrite bind_run in Hrun. specialize (Hc bav).
  destruct (c bav) as [bav1 [a|e1]]; simpl in *.
  - eapply nothingWritten_trans; [exact Hc|]. by eapply Hf.
  - by injection Hrun as <- <-.
Qed.

(** The same when what follows is clean only for the values the step can
    return. *)
Lemma failsClean_bind_with {A A'} (P : A → Prop) (c : View B A) (f : A → View B A') :
  runsClean env c →
  (∀ bav bav1 a, c bav = (bav1, Return a) → P a) →
  (∀ a, P a → failsClean env (f a)) →
  failsClean env (c ≫= f).
Proof.
  intros Hc HP Hf bav bav' e Hrun. rewrite bind_run in Hrun.
  pose proof (Hc bav) as Hclean. pose proof (HP bav) as Hvalue.
  destruct (c bav) as [bav1 [a|e1]]; simpl in *.
  - eapply nothingWritten_trans; [exact Hclean|]. eapply Hf; [|exact Hrun]. by eapply Hvalue.
  - by injection Hrun as <- <-.
Qed.

Lemma runsClean_connectBasicTransfer txn txHash blockHeight verifySignatures :
  runsClean env (connectBasicTransfer env txn txHash blockHeight verifySignatures).
Proof.
  intros bav. unfold connectBasicTransfer.
  destruct (_connectBasicTransfer _ _ _ _ _ _). by apply nothingWritten_fields.
Qed.

(** The store hands back the entry of the key, and the record of the member,
    it was asked for. *)
Hypothesis store_entries :
  ∀ k e, DBGetAccessGroupEntry env k = Some e → AccessGroupKeyName e = agkGroupKeyName k.
Hypothesis store_members :
  ∀ m o n record, DBGetMemberFromMembershipIndex env m o n = Some record →
                  GroupMemberPublicKey record = m.

Lemma runsClean_get_entry (accessGroupKey : AccessGroupKey) :
  runsClean env (call (GetAccessGroupKeyToAccessGroupEntryMapping env accessGroupKey)).
Proof.
  intros bav. unfold call, GetAccessGroupKeyToAccessGroupEntryMapping.
  destruct (EqualGroupKeyName _ _); [apply nothingWritten_refl|].
  destruct (AccessGroupKeyToAccessGroupEntry bav !! accessGroupKey) eqn:Hlookup;
    [apply nothingWritten_refl|].
  destruct (DBGetAccessGroupEntry env accessGroupKey) as [stored|] eqn:Hdb;
    [|apply nothingWritten_refl].
  split; [|by split; [intros k; left|]].
  intros k. simpl. rewrite (store_entries _ _ Hdb).
  assert ({| OwnerPublicKey := OwnerPublicKey accessGroupKey;
             agkGroupKeyName := agkGroupKeyName accessGroupKey |} = accessGroupKey)
    as -> by by destruct accessGroupKey.
  rewrite lookup_insert. case_decide as Hk; [|by left].
  subst k. right. split; [done|]. by exists stored.
Qed.

Lemma runsClean_get_member (m o : PublicKey) (n : GroupKeyName) (blockHeight : N) :
  runsClean env (call (GetAccessGroupMember env (Some m) (Some o) (Some n) blockHeight)).
Proof.
  intros bav. unfold call, GetAccessGroupMember.
  destruct (GroupMembershipKeyToAccessGroupMember bav !! _) eqn:Hlookup;
    [apply nothingWritten_refl|].
  destruct (DBGetMemberFromMembershipIndex env m o n) as [record|] eqn:Hdb;
    [|apply nothingWritten_refl].
  split; [by intros k; left|]. split; [|done].
  intros k. simpl. rewrite (store_members _ _ _ _ Hdb).
  rewrite lookup_insert. case_decide as Hk; [|by left].
  subst k. right. split; [done|]. by exists m, o, n, record.
Qed.

Lemma runsClean_getGroupMemberAttributeEntry (k : GroupEnumerationKey) (t : N) :
  runsClean env (getGroupMemberAttributeEntry env k t).
Proof. intros bav. apply nothingWritten_refl. Qed.

Lemma runsClean_validateAccessMembers accessGroupMembers newAccessMembers :
  runsClean env (validateAccessMembers env accessGroupMembers newAccessMembers).
Proof.
  revert newAccessMembers.
  induction accessGroupMembers as [|accessMember rest IH]; intros acc; simpl.
  - apply runsClean_ret.
  - apply runsClean_bind; [apply runsClean_deref|intros member].
    apply runsClean_bind; [apply runsClean_failIf|intros _].
    apply runsClean_bind; [apply runsClean_failWith|intros _].
    apply runsClean_bind; [apply runsClean_get_entry|intros memberGroupEntry].
    destruct (notDeleted memberGroupEntry); [apply IH|apply runsClean_fail].
Qed.

Lemma runsClean_collectExistingMembers existing existingMembers newAccessMembers :
  runsClean env (collectExistingMembers existing existingMembers newAccessMembers
                 : View B _).
Proof.
  revert existingMembers newAccessMembers.
  induction existing as [|existingMember rest IH]; intros existingMembers acc; simpl.
  - apply runsClean_ret.
  - apply runsClean_bind; [apply runsClean_deref|intros member].
    destruct (existingMembers !! _); [apply runsClean_fail|apply IH].
Qed.

Lemma runsClean_validateAccessMembersLegacy accessGroupMembers existingMembers
    newAccessMembers :
  runsClean env (validateAccessMembersLegacy env accessGroupMembers existingMembers
                   newAccessMembers).
Proof.
  revert existingMembers newAccessMembers.
  induction accessGroupMembers as [|accessMember rest IH]; intros existingMembers acc; simpl.
  - apply runsClean_ret.
  - apply runsClean_bind; [apply runsClean_deref|intros member].
    apply runsClean_bind; [apply runsClean_failIf|intros _].
    apply runsClean_bind; [apply runsClean_failWith|intros _].
    apply runsClean_bind; [apply runsClean_get_entry|intros memberGroupEntry].
    destruct (notDeleted memberGroupEntry); [|apply runsClean_fail].
    destruct (existingMembers !! _); [apply runsClean_fail|apply IH].
Qed.

Lemma runsClean_muteMembersLoop existingEntry blockHeight accessGroupMembers newMuteList :
  runsClean env (muteMembersLoop env existingEntry blockHeight accessGroupMembers
                   newMuteList).
Proof.
  revert newMuteList.
  induction accessGroupMembers as [|t rest IH]; intros acc; simpl.
  - apply runsClean_ret.
  - apply runsClean_bind; [apply runsClean_deref|intros target].
    apply runsClean_bind; [apply runsClean_failIf|intros _].
    apply runsClean_bind; [apply runsClean_get_member|intros member].
    destruct member as [member|]; [|apply runsClean_fail].
    apply runsClean_bind; [apply runsClean_getGroupMemberAttributeEntry|intros attribute].
    apply runsClean_bind; [apply runsClean_failIf|intros _]. apply IH.
Qed.

Lemma runsClean_unmuteMembersLoop existingEntry blockHeight accessGroupMembers
    newUnmuteList :
  runsClean env (unmuteMembersLoop env existingEntry blockHeight accessGroupMembers
                   newUnmuteList).
Proof.
  revert newUnmuteList.
  induction accessGroupMembers as [|t rest IH]; intros acc; simpl.
  - apply runsClean_ret.
  - apply runsClean_bind; [apply runsClean_deref|intros target].
    apply runsClean_bind; [apply runsClean_get_member|intros member].
    destruct member as [member|]; [|apply runsClean_fail].
    apply runsClean_bind; [apply runsClean_failIf|intros _].
    apply runsClean_bind; [apply runsClean_getGroupMemberAttributeEntry|intros attribute].
    apply runsClean_bind; [apply runsClean_failIf|intros _]. apply IH.
Qed.

Lemma runsClean_accessGroupOperationSwitch txMeta blockHeight operation existingEntry
    accessPublicKey :
  runsClean env (accessGroupOperationSwitch env txMeta blockHeight operation existingEntry
                   accessPublicKey).
Proof.
  unfold accessGroupOperationSwitch.
  destruct operation; try apply runsClean_ret.
  - destruct (blockHeight <? _)%N.
    + apply runsClean_bind.
      { destruct (notDeleted existingEntry); [|apply runsClean_ret].
        apply runsClean_bind; [apply runsClean_failIf|intros _].
        apply runsClean_collectExistingMembers. }
      intros [existingMembers members].
      apply runsClean_bind; [apply runsClean_validateAccessMembersLegacy|intros ?].
      apply runsClean_ret.
    + apply runsClean_bind; [apply runsClean_validateAccessMembers|intros ?].
      apply runsClean_ret.
  - destruct (notDeleted existingEntry); [|apply runsClean_fail].
    apply runsClean_bind; [apply runsClean_muteMembersLoop|intros ?]. apply runsClean_ret.
  - destruct (notDeleted existingEntry); [|apply runsClean_fail].
    apply runsClean_bind; [apply runsClean_unmuteMembersLoop|intros ?]. apply runsClean_ret.
Qed.

Lemma muteMembersLoop_Return (existingEntry : AccessGroupEntry) (blockHeight : N)
    (members : list (option AccessGroupMember)) :
  ∀ (newMuteList l : list (option AccessGroupMember)) (bav bav' : UtxoView B),
    muteMembersLoop env existingEntry blockHeight members newMuteList bav
      = (bav', Return l) →
    l = newMuteList ++ members ∧ Forall is_Some members.
Proof.
  induction members as [|t rest IH]; intros acc l bav bav' Hrun.
  - injection Hrun as _ <-. by rewrite app_nil_r.
  - simpl in Hrun.
    apply bind_Return in Hrun as (? & target & Htarget & Hrun).
    destruct t as [target'|]; [|discriminate].
    apply bind_Return in Hrun as (? & [] & _ & Hrun).
    apply bind_Return in Hrun as (? & member & _ & Hrun).
    destruct member as [member|]; [|discriminate].
    apply bind_Return in Hrun as (? & attribute & _ & Hrun).
    apply bind_Return in Hrun as (? & [] & _ & Hrun).
    apply IH in Hrun as [-> Hsome]. rewrite <- app_assoc. split; [done|].
    constructor; [by eexists|done].
Qed.

Lemma unmuteMembersLoop_Return (existingEntry : AccessGroupEntry) (blockHeight : N)
    (members : list (option AccessGroupMember)) :
  ∀ (newUnmuteList l : list (option AccessGroupMember)) (bav bav' : UtxoView B),
    unmuteMembersLoop env existingEntry blockHeight members newUnmuteList bav
      = (bav', Return l) →
    l = newUnmuteList ++ members ∧ Forall is_Some members.
Proof.
  induction members as [|t rest IH]; intros acc l bav bav' Hrun.
  - injection Hrun as _ <-. by rewrite app_nil_r.
  - simpl in Hrun.
    apply bind_Return in Hrun as (? & target & Htarget & Hrun).
    destruct t as [target'|]; [|discriminate].
    apply bind_Return in Hrun as (? & member & _ & Hrun).
    destruct member as [member|]; [|discriminate].
    apply bind_Return in Hrun as (? & [] & _ & Hrun).
    apply bind_Return in Hrun as (? & attribute & _ & Hrun).
    apply bind_Return in Hrun as (? & [] & _ & Hrun).
    apply IH in Hrun as [-> Hsome]. rewrite <- app_assoc. split; [done|].
    constructor; [by eexists|done].
Qed.

(** The lists of members to mute and to unmute that the switch hands on hold
    no nil member. *)
Lemma accessGroupOperationSwitch_lists txMeta blockHeight operation existingEntry
    accessPublicKey (bav bav' : UtxoView B) (lists : memberLists) :
  accessGroupOperationSwitch env txMeta blockHeight operation existingEntry accessPublicKey
    bav = (bav', Return (inr lists)) →
  Forall is_Some (newMuteList lists) ∧ Forall is_Some (newUnmuteList lists).
Proof.
  unfold accessGroupOperationSwitch. intros Hrun.
  destruct operation; try discriminate.
  - destruct (blockHeight <? _)%N.
    + apply bind_Return in Hrun as (? & [existingMembers members] & _ & Hrun).
      apply bind_Return in Hrun as (? & ? & _ & Hrun).
      injection Hrun as _ <-. by split.
    + apply bind_Return in Hrun as (? & ? & _ & Hrun).
      injection Hrun as _ <-. by split.
  - destruct (notDeleted existingEntry); [|discriminate].
    apply bind_Return in Hrun as (? & muted & Hloop & Hrun).
    injection Hrun as _ <-. apply muteMembersLoop_Return in Hloop as [-> Hsome].
    by split.
  - destruct (notDeleted existingEntry); [|discriminate].
    apply bind_Return in Hrun as (? & unmuted & Hloop & Hrun).
    injection Hrun as _ <-. apply unmuteMembersLoop_Return in Hloop as [-> Hsome].
    by split.
Qed.

(** With no nil member to mute or unmute, the end of the connect fails only
    where the copy of the existing entry does, before any write. *)
Lemma failsClean_storeAccessGroupEntry txn txMeta blockHeight accessGroupKey accessPublicKey
    existingEntry lists totalInput totalOutput utxoOpsForTxn :
  Forall is_Some (newMuteList lists) →
  Forall is_Some (newUnmuteList lists) →
  failsClean env (storeAccessGroupEntry env txn txMeta blockHeight accessGroupKey
                    accessPublicKey existingEntry lists totalInput totalOutput
                    utxoOpsForTxn).
Proof.
  intros Hmute Hunmute bav bav' e. unfold storeAccessGroupEntry.
  destruct (copyOfExistingEntry env blockHeight existingEntry) as [[cause|]|prev].
  - intros [= <- _]. apply nothingWritten_refl.
  - discriminate.
  - destruct (DeSoAccessGroupsBlockHeight env <=? blockHeight)%N.
    + rewrite !bind_run.
      match goal with
      | |- context [setIsMutedMappings ?entry true ?members bav] =>
          destruct (setIsMutedMappings_run entry true members bav Hmute) as (bav1 & -> & _);
          destruct (setIsMutedMappings_run entry false (newUnmuteList lists) bav1 Hunmute)
            as (bav2 & -> & _)
      end.
      discriminate.
    + rewrite !bind_run. discriminate.
Qed.

End Clean.

(** X11: a [_connectAccessGroupMembers] that fails has written nothing to
    the access groups: the two attribute indexes are as before, and the
    registry and the membership index hold what they held and, at most,
    entries of the durable store that the reads have cached under keys that
    were empty.  The store is asked to hand back the entry of the key it was
    asked for. *)
Theorem failed_connectAccessGroupMembers_writes_nothing {B} (env : Collaborators B)
    (txn : MsgDeSoTxn) (txHash : list byte) (blockHeight : N) (verifySignatures : bool)
    (bav bav' : UtxoView B) (e : error) :
  (∀ k stored, DBGetAccessGroupEntry env k = Some stored →
               AccessGroupKeyName stored = agkGroupKeyName k) →
  _connectAccessGroupMembers env txn txHash blockHeight verifySignatures bav
    = (bav', Fail e) →
  nothingWritten env bav bav'.
Proof.
  intros Hstore. revert bav bav' e. fold (failsClean env
    (_connectAccessGroupMembers env txn txHash blockHeight verifySignatures)).
  unfold _connectAccessGroupMembers.
  apply failsClean_bind; [apply runsClean_failIf|intros _].
  destruct (TxnMeta txn) as [|txMeta| | |];
    try apply runsClean_failsClean, runsClean_fail.
  apply failsClean_bind; [apply runsClean_failIf|intros _].
  apply failsClean_bind; [apply runsClean_failWith|intros _].
  apply failsClean_bind; [apply runsClean_failOn|intros _].
  apply failsClean_bind; [apply runsClean_failIf|intros _].
  apply failsClean_bind;
    [apply runsClean_connectBasicTransfer|intros [[totalInput totalOutput] ops]].
  destruct (accessGroupKeyAndPublicKey _ _ _ _) as [accessGroupKey accessPublicKey].
  apply failsClean_bind; [by apply runsClean_get_entry|intros existingEntry].
  destruct (notDeleted existingEntry) as [existing|];
    [|apply runsClean_failsClean, runsClean_fail].
  apply failsClean_bind; [apply runsClean_failIf|intros _].
  apply failsClean_bind.
  { destruct (AccessGroupMemberOperationType_ txMeta);
      [by apply runsClean_validateAccessMembers|apply runsClean_fail..]. }
  intros members bav bav' e. rewrite !bind_run. discriminate.
Qed.

Lemma nodeWithStoredBob_entries (k : AccessGroupKey) (stored : AccessGroupEntry) :
  DBGetAccessGroupEntry Scenario.nodeWithStoredBob k = Some stored →
  AccessGroupKeyName stored = agkGroupKeyName k.
Proof.
  simpl. unfold Scenario.storedEntries.
  case_bool_decide as Hk; [|done]. intros [= <-]. by subst k.
Qed.

Lemma nodeWithStoredBob_members (m o : PublicKey) (n : GroupKeyName)
    (record : AccessGroupMember) :
  DBGetMemberFromMembershipIndex Scenario.nodeWithStoredBob m o n = Some record →
  GroupMemberPublicKey record = m.
Proof.
  simpl. unfold Scenario.storedMembers.
  case_bool_decide as Hk; [|done]. intros [= <-]. by destruct Hk as [-> _].
Qed.

Lemma failed_connectAccessGroupMembers_writes_nothing_witness :
  let connected :=
    _connectAccessGroupMembers Scenario.nodeWithStoredBob Scenario.addCarolTxn [] 25 true
      Example.emptyView in
  connected.2 = Fail (Rule RuleErrorAccessMemberKeyDoesntExist)
  ∧ AccessGroupKeyToAccessGroupEntry connected.1 !! Example.roomKey
    = Some Example.storedRoom
  ∧ nothingWritten Scenario.nodeWithStoredBob Example.emptyView connected.1.
Proof.
  intros connected.
  assert (Hrun : connected.2 = Fail (Rule RuleErrorAccessMemberKeyDoesntExist))
    by (vm_compute; reflexivity).
  split; [exact Hrun|]. split; [vm_compute; reflexivity|].
  apply (failed_connectAccessGroupMembers_writes_nothing Scenario.nodeWithStoredBob
           Scenario.addCarolTxn [] 25 true Example.emptyView connected.1
           (Rule RuleErrorAccessMemberKeyDoesntExist)).
  - exact nodeWithStoredBob_entries.
  - apply run_Fail, Hrun.
Defined.

(** X12: the same for [_connectAccessGroupCreate], whatever its operation:
    when it fails, the attribute indexes are as before (no member was muted
    or unmuted), and the registry and the membership index have gained cached
    entries of the store at most.  The store is asked to hand back the entry
    of the key, and the record of the member, it was asked for. *)
Theorem failed_connectAccessGroupCreate_writes_nothing {B} (env : Collaborators B)
    (txn : MsgDeSoTxn) (txHash : list byte) (blockHeight : N) (verifySignatures : bool)
    (bav bav' : UtxoView B) (e : error) :
  (∀ k stored, DBGetAccessGroupEntry env k = Some stored →
               AccessGroupKeyName stored = agkGroupKeyName k) →
  (∀ m o n record, DBGetMemberFromMembershipIndex env m o n = Some record →
                   GroupMemberPublicKey record = m) →
  _connectAccessGroupCreate env txn txHash blockHeight verifySignatures bav
    = (bav', Fail e) →
  nothingWritten env bav bav'.
Proof.
  intros Hentries Hmembers. revert bav bav' e. fold (failsClean env
    (_connectAccessGroupCreate env txn txHash blockHeight verifySignatures)).
  unfold _connectAccessGroupCreate.
  apply failsClean_bind; [apply runsClean_failIf|intros _].
  destruct (TxnMeta txn) as [txMeta| | | |];
    try apply runsClean_failsClean, runsClean_fail.
  apply failsClean_bind; [apply runsClean_failIf|intros _].
  apply failsClean_bind; [apply runsClean_failWith|intros _].
  apply failsClean_bind; [apply runsClean_failOn|intros _].
  apply failsClean_bind; [apply runsClean_failIf|intros _].
  apply failsClean_bind;
    [apply runsClean_connectBasicTransfer|intros [[totalInput totalOutput] ops]].
  destruct (accessGroupKeyAndPublicKey _ _ _ _) as [accessGroupKey accessPublicKey].
  apply failsClean_bind; [by apply runsClean_get_entry|intros existingEntry].
  apply failsClean_bind.
  { destruct (blockHeight <? _)%N; [apply runsClean_ret|].
    destruct (GetAccessGroupOperation env txn); [apply runsClean_fail|apply runsClean_ret]. }
  intros operation.
  apply failsClean_bind; [apply runsClean_failIf|intros _].
  apply (failsClean_bind_with env
           (λ lists, match lists with
                     | inl _ => True
                     | inr lists =>
                         Forall is_Some (newMuteList lists)
                         ∧ Forall is_Some (newUnmuteList lists)
                     end)).
  - by apply runsClean_accessGroupOperationSwitch.
  - intros bav bav1 [returned|lists] Hrun; [done|].
    by apply accessGroupOperationSwitch_lists in Hrun.
  - intros [returned|lists] Hlists.
    + apply runsClean_failsClean, runsClean_ret.
    + destruct Hlists. by apply failsClean_storeAccessGroupEntry.
Qed.

Lemma failed_connectAccessGroupCreate_writes_nothing_witness :
  let connected :=
    _connectAccessGroupCreate Scenario.nodeWithStoredBob Scenario.muteBobAndCarolTxn [] 25
      true Example.emptyView in
  connected.2 = Fail (Rule RuleErrorAccessMemberNotInGroup)
  ∧ GroupMembershipKeyToAccessGroupMember connected.1
      !! NewGroupMembershipKey Example.bobPK Example.alicePK
           (NewGroupKeyName Example.roomName)
    = Some Example.bob
  ∧ nothingWritten Scenario.nodeWithStoredBob Example.emptyView connected.1.
Proof.
  intros connected.
  assert (Hrun : connected.2 = Fail (Rule RuleErrorAccessMemberNotInGroup))
    by (vm_compute; reflexivity).
  split; [exact Hrun|]. split; [vm_compute; reflexivity|].
  apply (failed_connectAccessGroupCreate_writes_nothing Scenario.nodeWithStoredBob
           Scenario.muteBobAndCarolTxn [] 25 true Example.emptyView connected.1
           (Rule RuleErrorAccessMemberNotInGroup)).
  - exact nodeWithStoredBob_entries.
  - exact nodeWithStoredBob_members.
  - apply run_Fail, Hrun.
Defined.

(** ** CreateAccessGroup: connect and then disconnect *)

Lemma keeps_run {B A X} (field : UtxoView B → X) (c : View B A) (bav bav' : UtxoView B)
    (r : outcome A) :
  keeps field c → c bav = (bav', r) → field bav' = field bav.
Proof. intros Hc Hrun. specialize (Hc bav). by rewrite Hrun in Hc. Qed.

Lemma copyOfExistingEntry_faithful {B} (env : Collaborators B) (blockHeight : N)
    (existingEntry : option AccessGroupEntry) :
  CodecFaithful env →
  copyOfExistingEntry env blockHeight existingEntry = inr (notDeleted existingEntry).
Proof.
  intros Hcodec. unfold copyOfExistingEntry.
  destruct (notDeleted existingEntry) as [e|]; [|done]. by rewrite Hcodec.
Qed.

Lemma accessGroupKey_eta (k : AccessGroupKey) (n : GroupKeyName) :
  agkGroupKeyName k = n →
  {| OwnerPublicKey := OwnerPublicKey k; agkGroupKeyName := n |} = k.
Proof. intros <-. by destruct k. Qed.

(** What the end of the connect leaves: the new entry under the key of the
    group, and a record that carries the entry that was there. *)
Lemma storeAccessGroupEntry_Return {B} (env : Collaborators B) (txn : MsgDeSoTxn)
    (txMeta : CreateAccessGroupMetadata) (blockHeight : N) (accessGroupKey : AccessGroupKey)
    (accessPublicKey : PublicKey) (existingEntry : option AccessGroupEntry)
    (lists : memberLists) (totalInput totalOutput : N) (utxoOpsForTxn : list UtxoOperation)
    (bav bav1 : UtxoView B) (totals : N * N * list UtxoOperation) :
  CodecFaithful env →
  agkGroupKeyName accessGroupKey = NewGroupKeyName (cagAccessGroupKeyName txMeta) →
  storeAccessGroupEntry env txn txMeta blockHeight accessGroupKey accessPublicKey
    existingEntry lists totalInput totalOutput utxoOpsForTxn bav = (bav1, Return totals) →
  ∃ entry record,
    totals = (totalInput, totalOutput, utxoOpsForTxn ++ [record])
    ∧ Type_ record = OperationTypeCreateAccessGroup
    ∧ PrevAccessKeyEntry record = notDeleted existingEntry
    ∧ AccessGroupKeyToAccessGroupEntry bav1
      = <[accessGroupKey := entry]> (AccessGroupKeyToAccessGroupEntry bav)
    ∧ BasicTransferView bav1 = BasicTransferView bav
    ∧ ageIsDeleted entry = false
    ∧ AccessGroupKeyName entry = agkGroupKeyName accessGroupKey
    ∧ GroupOwnerPublicKey entry = OwnerPublicKey accessGroupKey
    ∧ AccessPublicKey entry = accessPublicKey
    ∧ DEPRECATED_AccessGroupMembers entry = newAccessMembers lists.
Proof.
  intros Hcodec Hname Hrun. unfold storeAccessGroupEntry in Hrun.
  rewrite (copyOfExistingEntry_faithful env _ _ Hcodec) in Hrun.
  apply bind_Return in Hrun as (bav2 & [] & Hmappings & Hrun).
  apply bind_Return in Hrun as (bav3 & [] & Hset & Hrun).
  injection Hset as <-. injection Hrun as <- <-.
  assert (AccessGroupKeyToAccessGroupEntry bav2 = AccessGroupKeyToAccessGroupEntry bav
          ∧ BasicTransferView bav2 = BasicTransferView bav) as [Hregistry Hbasic].
  { destruct (DeSoAccessGroupsBlockHeight env <=? blockHeight)%N;
      [|by injection Hmappings as <-].
    apply bind_Return in Hmappings as (bav4 & [] & Hmute & Hunmute).
    pose proof (keeps_run _ _ _ _ _
                  (keeps_setIsMutedMappings AccessGroupKeyToAccessGroupEntry
                     (λ _ _, eq_refl) _ _ _) Hmute) as H1.
    pose proof (keeps_run _ _ _ _ _
                  (keeps_setIsMutedMappings AccessGroupKeyToAccessGroupEntry
                     (λ _ _, eq_refl) _ _ _) Hunmute) as H2.
    pose proof (keeps_run _ _ _ _ _
                  (keeps_setIsMutedMappings BasicTransferView (λ _ _, eq_refl) _ _ _)
                  Hmute) as H3.
    pose proof (keeps_run _ _ _ _ _
                  (keeps_setIsMutedMappings BasicTransferView (λ _ _, eq_refl) _ _ _)
                  Hunmute) as H4.
    split; congruence. }
  eexists _, _. split; [reflexivity|]. split; [done|]. split; [done|].
  simpl. rewrite Hregistry, Hbasic, <- Hname, (accessGroupKey_eta accessGroupKey _ eq_refl).
  by repeat split.
Qed.

Lemma accessGroupOperationSwitch_returned {B} (env : Collaborators B) txMeta blockHeight
    operation existingEntry accessPublicKey (bav bav' : UtxoView B)
    (returned : N * N * list UtxoOperation) :
  accessGroupOperationSwitch env txMeta blockHeight operation existingEntry accessPublicKey
    bav = (bav', Return (inl returned)) →
  returned = (0%N, 0%N, []).
Proof.
  unfold accessGroupOperationSwitch. intros Hrun.
  destruct operation; try by injection Hrun as _ <-.
  - destruct (blockHeight <? _)%N.
    + apply bind_Return in Hrun as (? & [existingMembers members] & _ & Hrun).
      by apply bind_Return in Hrun as (? & ? & _ & Hrun).
    + by apply bind_Return in Hrun as (? & ? & _ & Hrun).
  - destruct (notDeleted existingEntry); [|discriminate].
    by apply bind_Return in Hrun as (? & muted & Hloop & Hrun).
  - destruct (notDeleted existingEntry); [|discriminate].
    by apply bind_Return in Hrun as (? & unmuted & Hloop & Hrun).
Qed.

(** What a connect that returns an operation record has done. *)
Lemma _connectAccessGroupCreate_Return {B} (env : Collaborators B) (txn : MsgDeSoTxn)
    (txMeta : CreateAccessGroupMetadata) (txHash : list byte) (blockHeight : N)
    (verifySignatures : bool) (bav bav1 : UtxoView B)
    (totals : N * N * list UtxoOperation) :
  TxnMeta txn = CreateAccessGroupTxnMeta txMeta →
  CodecFaithful env →
  _connectAccessGroupCreate env txn txHash blockHeight verifySignatures bav
    = (bav1, Return totals) →
  let accessGroupKey :=
    (accessGroupKeyAndPublicKey env (txnPublicKey txn) (cagAccessPublicKey txMeta)
       (cagAccessGroupKeyName txMeta)).1 in
  let accessPublicKey :=
    (accessGroupKeyAndPublicKey env (txnPublicKey txn) (cagAccessPublicKey txMeta)
       (cagAccessGroupKeyName txMeta)).2 in
  let existingEntry :=
    notDeleted (GetAccessGroupKeyToAccessGroupEntryMapping env accessGroupKey bav).2 in
  agkGroupKeyName accessGroupKey ≠ BaseGroupKeyName
  ∧ ValidateGroupPublicKeyAndName env (cagAccessPublicKey txMeta)
      (cagAccessGroupKeyName txMeta) = None
  ∧ (∀ existing, existingEntry = Some existing → AccessPublicKey existing = accessPublicKey)
  ∧ (totals.2 = []
     ∨ ∃ ops entry record,
         totals.2 = ops ++ [record]
         ∧ Type_ record = OperationTypeCreateAccessGroup
         ∧ PrevAccessKeyEntry record = existingEntry
         ∧ AccessGroupKeyToAccessGroupEntry bav1 !! accessGroupKey = Some entry
         ∧ ageIsDeleted entry = false
         ∧ AccessGroupKeyName entry = agkGroupKeyName accessGroupKey
         ∧ GroupOwnerPublicKey entry = OwnerPublicKey accessGroupKey
         ∧ AccessPublicKey entry = accessPublicKey).
Proof.
  intros Hmeta Hcodec Hrun accessGroupKey accessPublicKey existingEntry.
  pose proof (accessGroupKeyAndPublicKey_name env (txnPublicKey txn)
                (cagAccessPublicKey txMeta) (cagAccessGroupKeyName txMeta)) as Hname.
  fold accessGroupKey in Hname.
  unfold _connectAccessGroupCreate in Hrun. rewrite Hmeta in Hrun.
  apply bind_Return in Hrun as (? & [] & Hcheck & Hrun).
  apply failIf_Return in Hcheck as [-> _].
  apply bind_Return in Hrun as (? & [] & Hcheck & Hrun).
  apply failIf_Return in Hcheck as [-> Hbase].
  apply bind_Return in Hrun as (? & [] & Hcheck & Hrun).
  apply failWith_Return in Hcheck as [-> Hvalid].
  apply bind_Return in Hrun as (? & [] & Hcheck & Hrun).
  apply failOn_Return in Hcheck as [-> _].
  apply bind_Return in Hrun as (? & [] & Hcheck & Hrun).
  apply failIf_Return in Hcheck as [-> _].
  apply bind_Return in Hrun as (bavB & [[totalInput totalOutput] ops] & Hbasic & Hrun).
  apply connectBasicTransfer_Return in Hbasic as [-> _].
  subst existingEntry accessGroupKey accessPublicKey.
  destruct (accessGroupKeyAndPublicKey _ _ _ _) as [key apk]. cbn [fst snd] in *.
  apply bind_Return in Hrun as (bav2 & existingEntry & Hget & Hrun).
  apply call_Return in Hget. rewrite get_entry_withBasicTransferView in Hget.
  injection Hget as <- <-.
  apply bind_Return in Hrun as (bav3 & operation & _ & Hrun).
  apply bind_Return in Hrun as (? & [] & Hcheck & Hrun).
  apply failIf_Return in Hcheck as [-> Hsame].
  apply bind_Return in Hrun as (bav4 & lists & Hswitch & Hrun).
  split; [rewrite Hname; by apply EqualGroupKeyName_false|].
  split; [exact Hvalid|]. split.
  { intros existing Hexisting. rewrite Hexisting in Hsame. simpl in Hsame.
    apply negb_false_iff in Hsame. by apply bool_decide_eq_true in Hsame. }
  destruct lists as [returned|lists].
  - injection Hrun as _ <-. left.
    apply accessGroupOperationSwitch_returned in Hswitch. by subst returned.
  - right.
    apply storeAccessGroupEntry_Return in Hrun
      as (entry & record & -> & Htype & Hprev & Hregistry & _ & Hlive & Hentry & Howner
          & Haccess & _);
      [|done..].
    exists ops, entry, record. split; [done|]. split; [done|]. split; [done|].
    split; [|done]. by rewrite Hregistry, lookup_insert_eq.
Qed.

Lemma notDeleted_Some (x : option AccessGroupEntry) (e : AccessGroupEntry) :
  notDeleted x = Some e → x = Some e ∧ ageIsDeleted e = false.
Proof.
  destruct x as [e'|]; [|done]. simpl.
  destruct (ageIsDeleted e') eqn:Hdeleted; [done|]. by intros [= <-].
Qed.

Lemma notDeleted_live (e : AccessGroupEntry) :
  ageIsDeleted e = false → notDeleted (Some e) = Some e.
Proof. intros H. simpl. by rewrite H. Qed.

Lemma GetAccessGroupKeyToAccessGroupEntryMapping_view {B} (env : Collaborators B)
    (bav : UtxoView B) (k : AccessGroupKey) (e : AccessGroupEntry) :
  agkGroupKeyName k ≠ BaseGroupKeyName →
  AccessGroupKeyToAccessGroupEntry bav !! k = Some e →
  GetAccessGroupKeyToAccessGroupEntryMapping env k bav = (bav, Some e).
Proof.
  intros Hname Hlookup. unfold GetAccessGroupKeyToAccessGroupEntryMapping.
  by rewrite (proj2 (EqualGroupKeyName_false _ _) Hname), Hlookup.
Qed.

(** X13: a CreateAccessGroup that was connected and is disconnected on the
    records it returned leaves the group of the transaction reading as it did
    before the connect: the entry that was there, when there was one that was
    no tombstone, and no group otherwise; in that case the key of the group
    holds the tombstone of the entry the connect wrote.  No other key of the
    registry is touched by the disconnect.  The codec is asked to hand back the
    entry it was given. *)
Theorem create_connect_then_disconnect {B} (env : Collaborators B) (txn : MsgDeSoTxn)
    (txMeta : CreateAccessGroupMetadata) (txHash : list byte) (blockHeight : N)
    (verifySignatures : bool) (operationType : OperationType)
    (bav bav1 bav2 : UtxoView B) (totals : N * N * list UtxoOperation) :
  TxnMeta txn = CreateAccessGroupTxnMeta txMeta →
  CodecFaithful env →
  _connectAccessGroupCreate env txn txHash blockHeight verifySignatures bav
    = (bav1, Return totals) →
  _disconnectAccessGroupCreate env operationType txn txHash totals.2 blockHeight bav1
    = (bav2, Return tt) →
  let accessGroupKey :=
    (accessGroupKeyAndPublicKey env (txnPublicKey txn) (cagAccessPublicKey txMeta)
       (cagAccessGroupKeyName txMeta)).1 in
  let before :=
    notDeleted (GetAccessGroupKeyToAccessGroupEntryMapping env accessGroupKey bav).2 in
  notDeleted (GetAccessGroupKeyToAccessGroupEntryMapping env accessGroupKey bav2).2 = before
  ∧ (before = None →
     ∃ tombstone, AccessGroupKeyToAccessGroupEntry bav2 !! accessGroupKey = Some tombstone
                  ∧ ageIsDeleted tombstone = true)
  ∧ ∀ k, k ≠ accessGroupKey →
      AccessGroupKeyToAccessGroupEntry bav2 !! k = AccessGroupKeyToAccessGroupEntry bav1 !! k.
Proof.
  intros Hmeta Hcodec Hconnect Hdisconnect accessGroupKey before.
  destruct (_connectAccessGroupCreate_Return env txn txMeta txHash blockHeight
              verifySignatures bav bav1 totals Hmeta Hcodec Hconnect)
    as (Hbase & Hvalid & Hsame & Hrecord).
  fold accessGroupKey in Hbase, Hsame, Hrecord. fold before in Hsame, Hrecord.
  unfold _disconnectAccessGroupCreate in Hdisconnect.
  destruct Hrecord as [Hnone|(ops & entry & record & Hops & Htype & Hprev & Hlookup
                               & Hlive & Hname & Howner & Haccess)].
  { by rewrite Hnone in Hdisconnect. }
  rewrite Hops, last_snoc_Some, Hmeta in Hdisconnect.
  apply bind_Return in Hdisconnect as (? & [] & Hcheck & Hdisconnect).
  apply failIf_Return in Hcheck as [-> _].
  apply bind_Return in Hdisconnect as (? & [] & Hcheck & Hdisconnect).
  apply failWith_Return in Hcheck as [-> _].
  assert (Hkey : (if DeepEqual (ByteSlice (cagAccessPublicKey txMeta))
                       (ByteSlice (GetS256BasePointCompressed env))
                  then NewAccessGroupKey (NewPublicKey (GetS256BasePointCompressed env))
                         (cagAccessGroupKeyName txMeta)
                  else NewAccessGroupKey (NewPublicKey (txnPublicKey txn))
                         (cagAccessGroupKeyName txMeta)) = accessGroupKey).
  { subst accessGroupKey. unfold accessGroupKeyAndPublicKey. by destruct (DeepEqual _ _). }
  rewrite Hkey in Hdisconnect.
  apply bind_Return in Hdisconnect as (? & accessKeyEntry & Hget & Hdisconnect).
  apply call_Return in Hget.
  rewrite (GetAccessGroupKeyToAccessGroupEntryMapping_view env bav1 _ entry Hbase Hlookup)
    in Hget.
  injection Hget as <- <-. rewrite (notDeleted_live _ Hlive) in Hdisconnect.
  apply bind_Return in Hdisconnect as (? & [] & Hcheck & Hdisconnect).
  apply failIf_Return in Hcheck as [-> Hmatch].
  apply bind_Return in Hdisconnect as (bav3 & [] & Hdelete & Hdisconnect).
  injection Hdelete as <-.
  apply bind_Return in Hdisconnect as (bav4 & [] & Hrestore & Hdisconnect).
  apply (keeps_run AccessGroupKeyToAccessGroupEntry) in Hdisconnect;
    [|by apply keeps_disconnectBasicTransfer].
  rewrite Hprev in Hrestore, Hmatch.
  assert (Hregistry :
            AccessGroupKeyToAccessGroupEntry bav2
            = match before with
              | Some e => <[accessGroupKey := e]>
                            (<[accessGroupKey := tombstoneAccessGroupEntry entry]>
                               (AccessGroupKeyToAccessGroupEntry bav1))
              | None => <[accessGroupKey := tombstoneAccessGroupEntry entry]>
                          (AccessGroupKeyToAccessGroupEntry bav1)
              end).
  { rewrite Hdisconnect.
    assert (Htombstone :
              {| OwnerPublicKey := OwnerPublicKey accessGroupKey;
                 agkGroupKeyName := AccessGroupKeyName entry |}
              = accessGroupKey) by by apply accessGroupKey_eta.
    destruct before as [e|].
    - injection Hrestore as <-. simpl.
      apply orb_false_iff in Hmatch as [_ Hmatch]. apply negb_false_iff in Hmatch.
      apply EqualGroupKeyName_true in Hmatch.
      rewrite Htombstone, (accessGroupKey_eta accessGroupKey (AccessGroupKeyName e)); [done|].
      congruence.
    - injection Hrestore as <-. simpl. by rewrite Htombstone. }
  assert (Hbefore : ∀ e, before = Some e → ageIsDeleted e = false).
  { intros e He. by apply notDeleted_Some in He as [_ ?]. }
  split; [|split].
  - unfold GetAccessGroupKeyToAccessGroupEntryMapping at 1.
    rewrite (proj2 (EqualGroupKeyName_false _ _) Hbase), Hregistry.
    destruct before as [e|].
    + rewrite lookup_insert_eq. cbn [snd]. by apply notDeleted_live, Hbefore.
    + by rewrite lookup_insert_eq.
  - intros ->. rewrite Hregistry. exists (tombstoneAccessGroupEntry entry).
    by rewrite lookup_insert_eq.
  - intros k Hk. rewrite Hregistry.
    destruct before; by rewrite !lookup_insert_ne.
Qed.

Lemma CodecFaithful_node : CodecFaithful Example.node.
Proof. by intros blockHeight e. Qed.

Lemma create_connect_then_disconnect_witness :
  let connected :=
    _connectAccessGroupCreate Example.node Example.muteBobTxn [] 25 true
      Example.roomWithBobView in
  let disconnected :=
    _disconnectAccessGroupCreate Example.node OperationTypeCreateAccessGroup
      Example.muteBobTxn [] (utxoOpsOf connected.2) 25 connected.1 in
  let accessGroupKey :=
    (accessGroupKeyAndPublicKey Example.node Example.alicePK Example.roomAccessPK
       Example.roomName).1 in
  let before :=
    notDeleted (GetAccessGroupKeyToAccessGroupEntryMapping Example.node accessGroupKey
                  Example.roomWithBobView).2 in
  returned connected.2 = true
  ∧ disconnected.2 = Return tt
  ∧ is_Some before
  ∧ notDeleted (GetAccessGroupKeyToAccessGroupEntryMapping Example.node accessGroupKey
                  disconnected.1).2 = before
  ∧ (before = None →
     ∃ tombstone,
       AccessGroupKeyToAccessGroupEntry disconnected.1 !! accessGroupKey = Some tombstone
       ∧ ageIsDeleted tombstone = true)
  ∧ ∀ k, k ≠ accessGroupKey →
      AccessGroupKeyToAccessGroupEntry disconnected.1 !! k
      = AccessGroupKeyToAccessGroupEntry connected.1 !! k.
Proof.
  intros connected disconnected accessGroupKey before.
  assert (Hconnected : connected.2 = Return (0%N, 0%N, utxoOpsOf connected.2))
    by (vm_compute; reflexivity).
  assert (Hdisconnected : disconnected.2 = Return tt) by (vm_compute; reflexivity).
  split; [vm_compute; reflexivity|]. split; [exact Hdisconnected|].
  split; [vm_compute; by eexists|].
  apply (create_connect_then_disconnect Example.node Example.muteBobTxn
           (Example.createMeta Example.roomName [] [Some Example.bob]
              )
           [] 25 true OperationTypeCreateAccessGroup Example.roomWithBobView
           connected.1 disconnected.1 (0%N, 0%N, utxoOpsOf connected.2)).
  - reflexivity.
  - exact CodecFaithful_node.
  - apply run_Return, Hconnected.
  - apply (run_Return (_disconnectAccessGroupCreate Example.node
                         OperationTypeCreateAccessGroup Example.muteBobTxn []
                         (utxoOpsOf connected.2) 25)), Hdisconnected.
Defined.

(** ** AccessGroupMembers: what a connect that returns has done *)

Lemma get_entry_cached {B} (env : Collaborators B) (bav bav' : UtxoView B)
    (k : AccessGroupKey) :
  registryCachedFrom env bav bav' →
  (GetAccessGroupKeyToAccessGroupEntryMapping env k bav').2
  = (GetAccessGroupKeyToAccessGroupEntryMapping env k bav).2.
Proof.
  intros Hcached. unfold GetAccessGroupKeyToAccessGroupEntryMapping.
  destruct (EqualGroupKeyName _ _); [done|].
  destruct (Hcached k) as [->|(-> & e & -> & ->)].
  - destruct (AccessGroupKeyToAccessGroupEntry bav !! k); [done|].
    by destruct (DBGetAccessGroupEntry env k).
  - done.
Qed.

Lemma MemberAccepted_cached {B} (env : Collaborators B) (bav bav' : UtxoView B)
    (accessMember : option AccessGroupMember) :
  registryCachedFrom env bav bav' →
  MemberAccepted env bav' accessMember → MemberAccepted env bav accessMember.
Proof.
  intros Hcached (member & -> & Hlen & Hvalid & Hgroup). exists member.
  by rewrite (get_entry_cached env bav bav') in Hgroup.
Qed.

Lemma validateAccessMembers_checks {B} (env : Collaborators B)
    (accessGroupMembers : list (option AccessGroupMember)) :
  (∀ k stored, DBGetAccessGroupEntry env k = Some stored →
               AccessGroupKeyName stored = agkGroupKeyName k) →
  ∀ (newAccessMembers r : list (option AccessGroupMember)) (bav bav' : UtxoView B),
    validateAccessMembers env accessGroupMembers newAccessMembers bav = (bav', Return r) →
    Forall (MemberAccepted env bav) accessGroupMembers.
Proof.
  intros Hstore.
  induction accessGroupMembers as [|t rest IH]; intros acc r bav bav' Hrun; [done|].
  simpl in Hrun.
  apply bind_Return in Hrun as (? & member & Hmember & Hrun).
  destruct t as [member'|]; [|discriminate]. injection Hmember as <- <-.
  apply bind_Return in Hrun as (? & [] & Hcheck & Hrun).
  apply failIf_Return in Hcheck as [-> Hlen].
  apply bind_Return in Hrun as (? & [] & Hcheck & Hrun).
  apply failWith_Return in Hcheck as [-> Hvalid].
  apply bind_Return in Hrun as (bav1 & memberGroupEntry & Hget & Hrun).
  pose proof (runsClean_get_entry env Hstore
                (NewAccessGroupKey (GroupMemberPublicKey member') (GroupMemberKeyName member'))
                bav) as (Hcached & _).
  rewrite Hget in Hcached. simpl in Hcached.
  apply call_Return in Hget.
  destruct (notDeleted memberGroupEntry) as [memberGroup|] eqn:Hgroup; [|discriminate].
  constructor.
  - exists member'. split; [done|]. split; [by apply Nat.ltb_ge in Hlen|].
    split; [done|]. rewrite Hget. simpl. by rewrite Hgroup.
  - eapply Forall_impl; [by eapply IH|]. intros m. by apply MemberAccepted_cached.
Qed.

(** The index after the loop "Add the new access members to the utxo view":
    under the key of each member of the list sits a member of the list with
    that public key, and every other key holds what it held. *)
Lemma set_members_lookup {B} (groupOwnerPublicKey : PublicKey) (groupKeyName : GroupKeyName)
    (blockHeight : N) (members : list (option AccessGroupMember)) (bav : UtxoView B)
    (k : GroupMembershipKey) :
  let added :=
    foldl (λ bav accessMember,
             _setAccessGroupMember (Some groupOwnerPublicKey) (Some groupKeyName)
               accessMember blockHeight bav) bav members in
  (∃ stored, Some stored ∈ members
             ∧ k = NewGroupMembershipKey (GroupMemberPublicKey stored) groupOwnerPublicKey
                     groupKeyName
             ∧ GroupMembershipKeyToAccessGroupMember added !! k = Some stored)
  ∨ ((∀ member, Some member ∈ members →
        k ≠ NewGroupMembershipKey (GroupMemberPublicKey member) groupOwnerPublicKey
              groupKeyName)
     ∧ GroupMembershipKeyToAccessGroupMember added !! k
       = GroupMembershipKeyToAccessGroupMember bav !! k).
Proof.
  induction members as [|t rest IH] using rev_ind; simpl.
  - right. split; [|done]. intros member Hin. by apply not_elem_of_nil in Hin.
  - rewrite foldl_app. simpl.
    destruct t as [member|]; simpl.
    + destruct (decide (k = NewGroupMembershipKey (GroupMemberPublicKey member)
                             groupOwnerPublicKey groupKeyName)) as [->|Hne].
      * left. exists member.
        split; [apply elem_of_app; right; by apply list_elem_of_singleton|].
        split; [done|]. apply lookup_insert_eq.
      * rewrite lookup_insert_ne by done.
        destruct IH as [(stored & Hin & -> & Hlookup)|[Hnone Hsame]].
        -- left. exists stored. split; [apply elem_of_app; by left|]. by split.
        -- right. split; [|done]. intros member' Hin.
           apply elem_of_app in Hin as [Hin|Hin]; [by apply Hnone|].
           apply list_elem_of_singleton in Hin. by injection Hin as ->.
    + destruct IH as [(stored & Hin & -> & Hlookup)|[Hnone Hsame]].
      * left. exists stored. split; [apply elem_of_app; by left|]. by split.
      * right. split; [|done]. intros member' Hin.
        apply elem_of_app in Hin as [Hin|Hin]; [by apply Hnone|].
        by apply list_elem_of_singleton in Hin.
Qed.

(** X14: when [_connectAccessGroupMembers] returns, the operation of the
    transaction is Add; the group of the transaction was in the registry, no
    tombstone, with the access public key of the transaction; every member of
    the transaction passed the member checks on the view the transaction met;
    the membership index holds, under the key of each member, a member of the
    transaction with that public key, and under every other key what it held;
    and the last operation record carries the members of the transaction.
    The store is asked to hand back the entry of the key it was asked for. *)
Theorem connectAccessGroupMembers_adds_the_members {B} (env : Collaborators B)
    (txn : MsgDeSoTxn) (txMeta : AccessGroupMembersMetadata) (txHash : list byte)
    (blockHeight : N) (verifySignatures : bool) (bav bav1 : UtxoView B)
    (totals : N * N * list UtxoOperation) :
  TxnMeta txn = AccessGroupMembersTxnMeta txMeta →
  (∀ k stored, DBGetAccessGroupEntry env k = Some stored →
               AccessGroupKeyName stored = agkGroupKeyName k) →
  _connectAccessGroupMembers env txn txHash blockHeight verifySignatures bav
    = (bav1, Return totals) →
  let accessGroupKey :=
    (accessGroupKeyAndPublicKey env (txnPublicKey txn) (agmAccessPublicKey txMeta)
       (agmAccessGroupKeyName txMeta)).1 in
  let accessPublicKey :=
    (accessGroupKeyAndPublicKey env (txnPublicKey txn) (agmAccessPublicKey txMeta)
       (agmAccessGroupKeyName txMeta)).2 in
  AccessGroupMemberOperationType_ txMeta = AccessGroupMemberOperationTypeAdd
  ∧ ∃ existing,
      notDeleted (GetAccessGroupKeyToAccessGroupEntryMapping env accessGroupKey bav).2
        = Some existing
      ∧ AccessPublicKey existing = accessPublicKey
      ∧ Forall (MemberAccepted env bav) (agmAccessGroupMembers txMeta)
      ∧ (∀ k,
           (∃ stored, Some stored ∈ agmAccessGroupMembers txMeta
                      ∧ k = NewGroupMembershipKey (GroupMemberPublicKey stored)
                              (GroupOwnerPublicKey existing) (AccessGroupKeyName existing)
                      ∧ GroupMembershipKeyToAccessGroupMember bav1 !! k = Some stored)
           ∨ ((∀ member, Some member ∈ agmAccessGroupMembers txMeta →
                 k ≠ NewGroupMembershipKey (GroupMemberPublicKey member)
                       (GroupOwnerPublicKey existing) (AccessGroupKeyName existing))
              ∧ GroupMembershipKeyToAccessGroupMember bav1 !! k
                = GroupMembershipKeyToAccessGroupMember bav !! k))
      ∧ ∃ ops record,
          totals.2 = ops ++ [record]
          ∧ Type_ record = OperationTypeAccessGroupMembers
          ∧ PrevAccessGroupMembers record = agmAccessGroupMembers txMeta.
Proof.
  intros Hmeta Hstore Hrun accessGroupKey accessPublicKey.
  unfold _connectAccessGroupMembers in Hrun. rewrite Hmeta in Hrun.
  apply bind_Return in Hrun as (? & [] & Hcheck & Hrun).
  apply failIf_Return in Hcheck as [-> _].
  apply bind_Return in Hrun as (? & [] & Hcheck & Hrun).
  apply failIf_Return in Hcheck as [-> _].
  apply bind_Return in Hrun as (? & [] & Hcheck & Hrun).
  apply failWith_Return in Hcheck as [-> _].
  apply bind_Return in Hrun as (? & [] & Hcheck & Hrun).
  apply failOn_Return in Hcheck as [-> _].
  apply bind_Return in Hrun as (? & [] & Hcheck & Hrun).
  apply failIf_Return in Hcheck as [-> _].
  apply bind_Return in Hrun as (bavB & [[totalInput totalOutput] ops] & Hbasic & Hrun).
  apply connectBasicTransfer_Return in Hbasic as [-> _].
  subst accessGroupKey accessPublicKey.
  destruct (accessGroupKeyAndPublicKey _ _ _ _) as [key apk]. cbn [fst snd] in *.
  apply bind_Return in Hrun as (bav2 & existingEntry & Hget & Hrun).
  pose proof (runsClean_get_entry env Hstore key bav) as (Hcached & _ & _ & _).
  pose proof (keeps_get_entry GroupMembershipKeyToAccessGroupMember (λ _ _, eq_refl) env key
                bav) as Hmembers.
  unfold call in Hcached, Hmembers.
  apply call_Return in Hget. rewrite get_entry_withBasicTransferView in Hget.
  injection Hget as <- <-.
  destruct (GetAccessGroupKeyToAccessGroupEntryMapping env key bav)
    as [bav2 existingEntry]. cbn [fst snd] in *.
  destruct (notDeleted existingEntry) as [existing|]; [|discriminate].
  apply bind_Return in Hrun as (? & [] & Hcheck & Hrun).
  apply failIf_Return in Hcheck as [-> Hsame].
  apply bind_Return in Hrun as (bav3 & members & Hvalidate & Hrun).
  destruct (AccessGroupMemberOperationType_ txMeta); try discriminate.
  split; [done|]. exists existing. split; [done|].
  split. { apply negb_false_iff in Hsame. by apply bool_decide_eq_true in Hsame. }
  pose proof (validateAccessMembers_Return _ _ _ _ _ _ Hvalidate) as ->.
  pose proof (keeps_run _ _ _ _ _
                (keeps_validateAccessMembers GroupMembershipKeyToAccessGroupMember
                   (λ _ _, eq_refl) env _ _) Hvalidate) as Hmembers3.
  pose proof (runsClean_validateAccessMembers env Hstore (agmAccessGroupMembers txMeta) []
                (withBasicTransferView
                   (_connectBasicTransfer env txn txHash blockHeight verifySignatures
                      (BasicTransferView bav)).1 bav2)) as (Hcached3 & _).
  apply (validateAccessMembers_checks env _ Hstore) in Hvalidate.
  apply bind_Return in Hrun as (bav4 & [] & Hset & Hrun).
  injection Hset as <-. injection Hrun as <- <-. simpl.
  split.
  { eapply Forall_impl; [exact Hvalidate|]. intros m. by apply MemberAccepted_cached. }
  split; [|by eexists _, _].
  intros k.
  destruct (set_members_lookup (GroupOwnerPublicKey existing) (AccessGroupKeyName existing)
              blockHeight (agmAccessGroupMembers txMeta) bav3 k) as [Hin|[Hnone Hsame']].
  - by left.
  - right. split; [done|]. rewrite Hsame', Hmembers3. simpl. by rewrite Hmembers.
Qed.

Lemma connectAccessGroupMembers_adds_the_members_witness :
  let connected :=
    _connectAccessGroupMembers Example.node Example.addBobTxn [] 25 true Example.roomView in
  let accessGroupKey :=
    (accessGroupKeyAndPublicKey Example.node Example.alicePK Example.roomAccessPK
       Example.roomName).1 in
  let accessPublicKey :=
    (accessGroupKeyAndPublicKey Example.node Example.alicePK Example.roomAccessPK
       Example.roomName).2 in
  returned connected.2 = true
  ∧ AccessGroupMemberOperationTypeAdd = AccessGroupMemberOperationTypeAdd
  ∧ ∃ existing,
      notDeleted (GetAccessGroupKeyToAccessGroupEntryMapping Example.node accessGroupKey
                    Example.roomView).2 = Some existing
      ∧ AccessPublicKey existing = accessPublicKey
      ∧ Forall (MemberAccepted Example.node Example.roomView) [Some Example.bob]
      ∧ (∀ k,
           (∃ stored, Some stored ∈ [Some Example.bob]
                      ∧ k = NewGroupMembershipKey (GroupMemberPublicKey stored)
                              (GroupOwnerPublicKey existing) (AccessGroupKeyName existing)
                      ∧ GroupMembershipKeyToAccessGroupMember connected.1 !! k = Some stored)
           ∨ ((∀ member, Some member ∈ [Some Example.bob] →
                 k ≠ NewGroupMembershipKey (GroupMemberPublicKey member)
                       (GroupOwnerPublicKey existing) (AccessGroupKeyName existing))
              ∧ GroupMembershipKeyToAccessGroupMember connected.1 !! k
                = GroupMembershipKeyToAccessGroupMember Example.roomView !! k))
      ∧ ∃ ops record,
          utxoOpsOf connected.2 = ops ++ [record]
          ∧ Type_ record = OperationTypeAccessGroupMembers
          ∧ PrevAccessGroupMembers record = [Some Example.bob].
Proof.
  intros connected accessGroupKey accessPublicKey.
  assert (Hconnected : connected.2 = Return (0%N, 0%N, utxoOpsOf connected.2))
    by (vm_compute; reflexivity).
  split; [vm_compute; reflexivity|].
  apply (connectAccessGroupMembers_adds_the_members Example.node Example.addBobTxn
           {| agmAccessPublicKey := Example.roomAccessPK;
              agmAccessGroupKeyName := Example.roomName;
              agmAccessGroupMembers := [Some Example.bob];
              AccessGroupMemberOperationType_ := AccessGroupMemberOperationTypeAdd |}
           [] 25 true Example.roomView connected.1 (0%N, 0%N, utxoOpsOf connected.2)).
  - reflexivity.
  - intros k stored. simpl. discriminate.
  - apply run_Return, Hconnected.
Defined.

(** ** CreateAccessGroup below the access-groups height: no member twice *)

Lemma collectExistingMembers_Return {B} (existing : list (option AccessGroupMember)) :
  ∀ (existingMembers existingMembers' : gmap PublicKey bool)
    (acc acc' : list (option AccessGroupMember)) (seen : list PublicKey)
    (bav bav' : UtxoView B),
    (∀ pk, is_Some (existingMembers !! pk) ↔ pk ∈ seen) →
    NoDup seen →
    collectExistingMembers existing existingMembers acc bav
      = (bav', Return (existingMembers', acc')) →
    ∃ records,
      existing = Some <$> records
      ∧ acc' = acc ++ existing
      ∧ (∀ pk, is_Some (existingMembers' !! pk)
               ↔ pk ∈ seen ++ (GroupMemberPublicKey <$> records))
      ∧ NoDup (seen ++ (GroupMemberPublicKey <$> records)).
Proof.
  induction existing as [|t rest IH]; intros M M' acc acc' seen bav bav' Hseen Hnodup Hrun.
  - injection Hrun as _ <- <-. exists []. simpl. rewrite !app_nil_r.
    split; [done|]. split; [done|]. by split.
  - simpl in Hrun.
    apply bind_Return in Hrun as (? & member & Hmember & Hrun).
    destruct t as [member'|]; [|discriminate]. injection Hmember as <- <-.
    destruct (M !! GroupMemberPublicKey member') eqn:Hlookup; [discriminate|].
    assert (Hnew : GroupMemberPublicKey member' ∉ seen).
    { intros Hin. apply Hseen in Hin. rewrite Hlookup in Hin. by destruct Hin. }
    apply (IH _ _ _ _ (seen ++ [GroupMemberPublicKey member'])) in Hrun
      as (records & -> & -> & Hseen' & Hnodup').
    + exists (member' :: records). rewrite !fmap_cons, <- app_assoc.
      split; [done|]. split; [done|].
      split; [intros pk; specialize (Hseen' pk); by rewrite <- app_assoc in Hseen'|].
      by rewrite <- app_assoc in Hnodup'.
    + intros pk. rewrite lookup_insert. case_decide as Hpk.
      * subst pk. split; [intros _|by eexists].
        apply elem_of_app. right. by apply list_elem_of_singleton.
      * rewrite Hseen, elem_of_app, list_elem_of_singleton.
        split; [by left|]. intros [?|?]; [done|congruence].
    + apply NoDup_app. split; [done|]. split; [|apply NoDup_singleton].
      intros pk Hin Hin'. apply list_elem_of_singleton in Hin'. by subst pk.
Qed.

Lemma validateAccessMembersLegacy_Return {B} (env : Collaborators B)
    (accessGroupMembers : list (option AccessGroupMember)) :
  ∀ (existingMembers : gmap PublicKey bool)
    (acc acc' : list (option AccessGroupMember)) (seen : list PublicKey)
    (bav bav' : UtxoView B),
    (∀ pk, is_Some (existingMembers !! pk) ↔ pk ∈ seen) →
    NoDup seen →
    validateAccessMembersLegacy env accessGroupMembers existingMembers acc bav
      = (bav', Return acc') →
    ∃ records,
      accessGroupMembers = Some <$> records
      ∧ acc' = acc ++ accessGroupMembers
      ∧ NoDup (seen ++ (GroupMemberPublicKey <$> records)).
Proof.
  induction accessGroupMembers as [|t rest IH];
    intros M acc acc' seen bav bav' Hseen Hnodup Hrun.
  - injection Hrun as _ <-. exists []. simpl. rewrite !app_nil_r.
    split; [done|]. by split.
  - simpl in Hrun.
    apply bind_Return in Hrun as (? & member & Hmember & Hrun).
    destruct t as [member'|]; [|discriminate]. injection Hmember as <- <-.
    apply bind_Return in Hrun as (? & [] & _ & Hrun).
    apply bind_Return in Hrun as (? & [] & _ & Hrun).
    apply bind_Return in Hrun as (? & memberGroupEntry & _ & Hrun).
    destruct (notDeleted memberGroupEntry); [|discriminate].
    destruct (M !! GroupMemberPublicKey member') eqn:Hlookup; [discriminate|].
    assert (Hnew : GroupMemberPublicKey member' ∉ seen).
    { intros Hin. apply Hseen in Hin. rewrite Hlookup in Hin. by destruct Hin. }
    apply (IH _ _ _ (seen ++ [GroupMemberPublicKey member'])) in Hrun
      as (records & -> & -> & Hnodup').
    + exists (member' :: records). rewrite !fmap_cons, <- app_assoc.
      split; [done|]. split; [done|]. by rewrite <- app_assoc in Hnodup'.
    + intros pk. rewrite lookup_insert. case_decide as Hpk.
      * subst pk. split; [intros _|by eexists].
        apply elem_of_app. right. by apply list_elem_of_singleton.
      * rewrite Hseen, elem_of_app, list_elem_of_singleton.
        split; [by left|]. intros [?|?]; [done|congruence].
    + apply NoDup_app. split; [done|]. split; [|apply NoDup_singleton].
      intros pk Hin Hin'. apply list_elem_of_singleton in Hin'. by subst pk.
Qed.

(** X15: below the access-groups height, a CreateAccessGroup that returns
    has stored an entry whose member list is the members of the entry that was
    there (when there was one that was no tombstone) followed by the members
    of the transaction; no member is nil, no two members have the same public
    key, and none has the access public key of the group.  An existing group
    is never re-registered without a member to add.  The codec is asked to
    hand back the entry it was given. *)
Theorem legacy_create_lists_no_member_twice {B} (env : Collaborators B) (txn : MsgDeSoTxn)
    (txMeta : CreateAccessGroupMetadata) (txHash : list byte) (blockHeight : N)
    (verifySignatures : bool) (bav bav1 : UtxoView B)
    (totals : N * N * list UtxoOperation) :
  TxnMeta txn = CreateAccessGroupTxnMeta txMeta →
  (blockHeight < DeSoAccessGroupsBlockHeight env)%N →
  CodecFaithful env →
  _connectAccessGroupCreate env txn txHash blockHeight verifySignatures bav
    = (bav1, Return totals) →
  let accessGroupKey :=
    (accessGroupKeyAndPublicKey env (txnPublicKey txn) (cagAccessPublicKey txMeta)
       (cagAccessGroupKeyName txMeta)).1 in
  let accessPublicKey :=
    (accessGroupKeyAndPublicKey env (txnPublicKey txn) (cagAccessPublicKey txMeta)
       (cagAccessGroupKeyName txMeta)).2 in
  let existingEntry :=
    notDeleted (GetAccessGroupKeyToAccessGroupEntryMapping env accessGroupKey bav).2 in
  ∃ entry records,
    AccessGroupKeyToAccessGroupEntry bav1 !! accessGroupKey = Some entry
    ∧ DEPRECATED_AccessGroupMembers entry
      = match existingEntry with
        | Some existing => DEPRECATED_AccessGroupMembers existing
        | None => []
        end ++ cagAccessGroupMembers txMeta
    ∧ DEPRECATED_AccessGroupMembers entry = Some <$> records
    ∧ NoDup (accessPublicKey :: (GroupMemberPublicKey <$> records))
    ∧ (is_Some existingEntry → cagAccessGroupMembers txMeta ≠ []).
Proof.
  intros Hmeta Hheight Hcodec Hrun accessGroupKey accessPublicKey existingEntry.
  pose proof (accessGroupKeyAndPublicKey_name env (txnPublicKey txn)
                (cagAccessPublicKey txMeta) (cagAccessGroupKeyName txMeta)) as Hname.
  fold accessGroupKey in Hname.
  unfold _connectAccessGroupCreate in Hrun. rewrite Hmeta in Hrun.
  apply bind_Return in Hrun as (? & [] & Hcheck & Hrun).
  apply failIf_Return in Hcheck as [-> _].
  apply bind_Return in Hrun as (? & [] & Hcheck & Hrun).
  apply failIf_Return in Hcheck as [-> _].
  apply bind_Return in Hrun as (? & [] & Hcheck & Hrun).
  apply failWith_Return in Hcheck as [-> _].
  apply bind_Return in Hrun as (? & [] & Hcheck & Hrun).
  apply failOn_Return in Hcheck as [-> _].
  apply bind_Return in Hrun as (? & [] & Hcheck & Hrun).
  apply failIf_Return in Hcheck as [-> _].
  apply bind_Return in Hrun as (bavB & [[totalInput totalOutput] ops] & Hbasic & Hrun).
  apply connectBasicTransfer_Return in Hbasic as [-> _].
  subst existingEntry accessGroupKey accessPublicKey.
  destruct (accessGroupKeyAndPublicKey _ _ _ _) as [key apk]. cbn [fst snd] in *.
  apply bind_Return in Hrun as (bav2 & existingEntry & Hget & Hrun).
  apply call_Return in Hget. rewrite get_entry_withBasicTransferView in Hget.
  injection Hget as <- <-.
  assert ((blockHeight <? DeSoAccessGroupsBlockHeight env)%N = true) as Hbefore
    by (apply N.ltb_lt; lia).
  rewrite Hbefore in Hrun.
  apply bind_Return in Hrun as (? & ? & [= <- <-] & Hrun).
  apply bind_Return in Hrun as (? & [] & Hcheck & Hrun).
  apply failIf_Return in Hcheck as [-> _].
  apply bind_Return in Hrun as (bav4 & lists & Hswitch & Hrun).
  unfold accessGroupOperationSwitch in Hswitch. rewrite Hbefore in Hswitch.
  apply bind_Return in Hswitch as (bav5 & [existingMembers members] & Hcollect & Hswitch).
  apply bind_Return in Hswitch as (bav6 & members' & Hvalidate & Hswitch).
  injection Hswitch as <- <-.
  apply storeAccessGroupEntry_Return in Hrun
    as (entry & record & _ & _ & _ & Hregistry & _ & _ & _ & _ & _ & Hmembers);
    [|done..].
  simpl in Hmembers.
  assert (Hseen0 : ∀ pk, is_Some (({[apk := true]} : gmap PublicKey bool) !! pk)
                         ↔ pk ∈ [apk]).
  { intros pk. rewrite list_elem_of_singleton, lookup_singleton_is_Some. done. }
  assert (∃ existingRecords,
            match notDeleted (GetAccessGroupKeyToAccessGroupEntryMapping env key bav).2 with
            | Some existing => DEPRECATED_AccessGroupMembers existing
            | None => []
            end = Some <$> existingRecords
            ∧ members = Some <$> existingRecords
            ∧ (∀ pk, is_Some (existingMembers !! pk)
                     ↔ pk ∈ [apk] ++ (GroupMemberPublicKey <$> existingRecords))
            ∧ NoDup ([apk] ++ (GroupMemberPublicKey <$> existingRecords))
            ∧ (is_Some (notDeleted
                          (GetAccessGroupKeyToAccessGroupEntryMapping env key bav).2) →
               cagAccessGroupMembers txMeta ≠ []))
    as (existingRecords & Hexisting & -> & Hseen & Hnodup & Hadds).
  { destruct (notDeleted _) as [existing|].
    - apply bind_Return in Hcollect as (? & [] & Hcheck & Hcollect).
      apply failIf_Return in Hcheck as [-> Hnonempty].
      apply (collectExistingMembers_Return _ _ _ _ _ [apk]) in Hcollect
        as (records & Hrecords & -> & Hseen & Hnodup); [|done|apply NoDup_singleton].
      exists records. rewrite Hrecords at 1 2. split; [done|]. split; [done|].
      split; [done|]. split; [done|]. intros _ Hnil. rewrite Hnil in Hnonempty.
      by apply bool_decide_eq_false in Hnonempty.
    - injection Hcollect as _ <- <-. exists []. split; [done|]. split; [done|].
      split; [done|]. split; [apply NoDup_singleton|]. by intros [? ?]. }
  apply (validateAccessMembersLegacy_Return env _ _ _ _ _ _ _ Hseen Hnodup) in Hvalidate
    as (records & Hrecords & -> & Hnodup').
  exists entry, (existingRecords ++ records).
  split; [by rewrite Hregistry, lookup_insert_eq|].
  split; [by rewrite Hmembers, Hexisting|].
  split; [by rewrite Hmembers, Hrecords at 1; rewrite fmap_app|].
  split; [|done]. rewrite fmap_app. by rewrite <- app_assoc in Hnodup'.
Qed.

Lemma legacy_create_lists_no_member_twice_witness :
  let connected :=
    _connectAccessGroupCreate Example.node Example.createRoomWithBobTxn [] 12 true
      Example.emptyView in
  let accessGroupKey :=
    (accessGroupKeyAndPublicKey Example.node Example.alicePK Example.roomAccessPK
       Example.roomName).1 in
  let accessPublicKey :=
    (accessGroupKeyAndPublicKey Example.node Example.alicePK Example.roomAccessPK
       Example.roomName).2 in
  let existingEntry :=
    notDeleted (GetAccessGroupKeyToAccessGroupEntryMapping Example.node accessGroupKey
                  Example.emptyView).2 in
  returned connected.2 = true
  ∧ ∃ entry records,
      AccessGroupKeyToAccessGroupEntry connected.1 !! accessGroupKey = Some entry
      ∧ DEPRECATED_AccessGroupMembers entry
        = match existingEntry with
          | Some existing => DEPRECATED_AccessGroupMembers existing
          | None => []
          end ++ [Some Example.bob]
      ∧ DEPRECATED_AccessGroupMembers entry = Some <$> records
      ∧ NoDup (accessPublicKey :: (GroupMemberPublicKey <$> records))
      ∧ (is_Some existingEntry → [Some Example.bob] ≠ []).
Proof.
  intros connected accessGroupKey accessPublicKey existingEntry.
  assert (Hconnected : connected.2 = Return (0%N, 0%N, utxoOpsOf connected.2))
    by (vm_compute; reflexivity).
  split; [vm_compute; reflexivity|].
  apply (legacy_create_lists_no_member_twice Example.node Example.createRoomWithBobTxn
           (Example.createMeta Example.roomName [] [Some Example.bob]) [] 12 true
           Example.emptyView connected.1 (0%N, 0%N, utxoOpsOf connected.2)).
  - reflexivity.
  - vm_compute. reflexivity.
  - exact CodecFaithful_node.
  - apply run_Return, Hconnected.
Defined.

(** ** CreateAccessGroup: unmuting members *)

Lemma UnmuteChecksPass_ext {B} (env : Collaborators B) (bav bav' : UtxoView B)
    (existingEntry : AccessGroupEntry) (t : option AccessGroupMember) :
  GroupMemberAttributes bav' = GroupMemberAttributes bav →
  (∀ m', memberRecord env bav' m' (GroupOwnerPublicKey existingEntry)
           (AccessGroupKeyName existingEntry)
         = memberRecord env bav m' (GroupOwnerPublicKey existingEntry)
             (AccessGroupKeyName existingEntry)) →
  UnmuteChecksPass env bav' existingEntry t → UnmuteChecksPass env bav existingEntry t.
Proof.
  intros Hattributes Hmembers (target & -> & Hmember & Howner & Hmuted).
  exists target. rewrite Hmembers in Hmember.
  rewrite (isMutedSet_ext env bav bav') in Hmuted by done. done.
Qed.

Lemma UnmuteChecksPass_fields {B} (env : Collaborators B) (bav bav' : UtxoView B)
    (existingEntry : AccessGroupEntry) (t : option AccessGroupMember) :
  GroupMembershipKeyToAccessGroupMember bav' = GroupMembershipKeyToAccessGroupMember bav →
  GroupMemberAttributes bav' = GroupMemberAttributes bav →
  UnmuteChecksPass env bav' existingEntry t → UnmuteChecksPass env bav existingEntry t.
Proof.
  intros Hmembers Hattributes. apply UnmuteChecksPass_ext; [done|].
  intros m'. by apply memberRecord_fields.
Qed.

Lemma UnmuteFailure_fields {B} (env : Collaborators B) (bav bav' : UtxoView B)
    (existingEntry : AccessGroupEntry) (members : list (option AccessGroupMember))
    (e : error) :
  GroupMembershipKeyToAccessGroupMember bav' = GroupMembershipKeyToAccessGroupMember bav →
  GroupMemberAttributes bav' = GroupMemberAttributes bav →
  UnmuteFailure env bav' existingEntry members e →
  UnmuteFailure env bav existingEntry members e.
Proof.
  intros Hmembers Hattributes (Hnone & Hself & Halready & Hother).
  split; [|split; [|split; [|done]]].
  - intros He. destruct (Hnone He) as (t & Hin & Ht). exists t. split; [done|].
    by rewrite <- (memberRecord_fields env bav bav').
  - intros He. destruct (Hself He) as (t & Hin & Ht & Hrecord). exists t.
    split; [done|]. split; [done|].
    by rewrite <- (memberRecord_fields env bav bav').
  - intros He. destruct (Halready He) as (t & Hin & Ht). exists t. split; [done|].
    by rewrite <- (isMutedSet_ext env bav bav').
Qed.

Lemma unmuteMembersLoop_run {B} (env : Collaborators B) (existingEntry : AccessGroupEntry)
    (blockHeight : N) (members : list (option AccessGroupMember)) :
  ∀ (newUnmuteList : list (option AccessGroupMember)) (bav bav' : UtxoView B)
    (r : outcome (list (option AccessGroupMember))),
    MembershipKeyed env bav →
    unmuteMembersLoop env existingEntry blockHeight members newUnmuteList bav = (bav', r) →
    GroupMemberAttributes bav' = GroupMemberAttributes bav
    ∧ match r with
      | Return l =>
          l = newUnmuteList ++ members
          ∧ Forall (UnmuteChecksPass env bav existingEntry) members
      | Fail e => UnmuteFailure env bav existingEntry members e
      end.
Proof.
  induction members as [|t rest IH]; intros acc bav bav' r Hkeyed Hrun.
  - injection Hrun as <- <-. split; [done|]. by rewrite app_nil_r.
  - simpl in Hrun. rewrite bind_run in Hrun.
    destruct t as [target|]; simpl in Hrun.
    2:{ injection Hrun as <- <-. split; [done|]. by repeat split. }
    rewrite bind_run in Hrun. unfold call in Hrun.
    destruct (GetAccessGroupMember_run env bav (GroupMemberPublicKey target)
                (GroupOwnerPublicKey existingEntry) (AccessGroupKeyName existingEntry)
                blockHeight Hkeyed)
      as (bav1 & Hget & Hkeyed1 & Hattributes1 & Hmembers1).
    rewrite Hget in Hrun.
    destruct (memberRecord env bav (GroupMemberPublicKey target) _ _) as [member|] eqn:Hmember.
    2:{ injection Hrun as <- <-. split; [done|].
        split; [|by repeat split]. intros _.
        exists target. split; [apply list_elem_of_here|done]. }
    rewrite bind_run in Hrun.
    destruct (failIf _ _ bav1) as [bav0 [[]|e]] eqn:Howner.
    2:{ apply failIf_Fail in Howner as (-> & -> & Howner). injection Hrun as <- <-.
        split; [done|]. split; [done|]. split; [|by split]. intros _. exists target.
        split; [apply list_elem_of_here|]. simpl in Howner.
        apply bool_decide_eq_true in Howner. split; [done|]. by rewrite Hmember. }
    apply failIf_Return in Howner as [-> Howner]. simpl in Howner.
    apply bool_decide_eq_false in Howner.
    rewrite bind_run in Hrun.
    unfold getGroupMemberAttributeEntry in Hrun.
    rewrite (GetGroupMemberAttributeEntry_ext env bav bav1) in Hrun by done.
    destruct (GetGroupMemberAttributeEntry env _ _ bav) as [attributeEntry|e] eqn:Hattribute.
    2:{ injection Hrun as <- <-. split; [done|].
        unfold GetGroupMemberAttributeEntry in Hattribute.
        destruct (memberAttribute bav _ _); [done|].
        destruct (DBGetAttributeEntryInGroupMemberAttributesIndex _ _ _ _ _);
          [|done].
        injection Hattribute as <-. by repeat split. }
    rewrite bind_run in Hrun.
    destruct (failIf _ _ bav1) as [bav2 [[]|e]] eqn:Hmuted.
    2:{ apply failIf_Fail in Hmuted as (-> & -> & Hmuted). injection Hrun as <- <-.
        split; [done|]. split; [done|]. split; [done|]. split; [|done].
        intros _. exists target.
        split; [apply list_elem_of_here|].
        intros (a & Ha & Hset). rewrite Hattribute in Ha. injection Ha as ->.
        by rewrite Hset in Hmuted. }
    apply failIf_Return in Hmuted as [-> Hmuted].
    apply IH in Hrun as [Hattributes Hrest]; [|done].
    split; [congruence|].
    destruct r as [l|e].
    + destruct Hrest as [-> Hrest]. split; [by rewrite <- app_assoc|].
      constructor.
      * exists target. split; [done|]. split; [by rewrite Hmember|]. split; [done|].
        destruct attributeEntry as [attributeEntry|]; [|done].
        exists attributeEntry. split; [done|]. by apply negb_false_iff in Hmuted.
      * eapply Forall_impl; [exact Hrest|]. intros t. by apply UnmuteChecksPass_ext.
    + destruct Hrest as (Hnone & Hself & Halready & Hother).
      split; [|split; [|split; [|done]]].
      * intros He. destruct (Hnone He) as (t & Hin & Ht). exists t.
        split; [by apply list_elem_of_further|]. by rewrite <- Hmembers1.
      * intros He. destruct (Hself He) as (t & Hin & Ht & Hrecord). exists t.
        split; [by apply list_elem_of_further|]. split; [done|]. by rewrite <- Hmembers1.
      * intros He. destruct (Halready He) as (t & Hin & Ht). exists t.
        split; [by apply list_elem_of_further|].
        by rewrite <- (isMutedSet_ext env bav bav1).
Qed.

(** X16: a CreateAccessGroup connect with the operation UnmuteMembers, at or
    above the access-groups height.  When it returns, the group of the
    transaction is in the registry and not tombstoned, every target passes the
    unmute checks on the view the transaction met (the membership index has a
    record of it, it is not the owner, its IsMuted attribute reads as set),
    and afterwards the IsMuted attribute of every target is still there but
    reads as not set, with an empty value.  When it fails with
    MemberNotInGroup, OwnerUnmutingSelf or AlreadyUnmuted, the group exists
    and some target is missing from the membership index, is the owner (and
    has a membership record, since that check comes first), or has no IsMuted
    attribute that is set. *)
Theorem unmute_members_connect {B} (env : Collaborators B) (bav : UtxoView B)
    (txn : MsgDeSoTxn) (txMeta : CreateAccessGroupMetadata) (txHash : list byte)
    (blockHeight : N) (verifySignatures : bool) :
  TxnMeta txn = CreateAccessGroupTxnMeta txMeta →
  (DeSoAccessGroupsBlockHeight env ≤ blockHeight)%N →
  GetAccessGroupOperation env txn = inr AccessGroupOperationUnmuteMembers →
  MembershipKeyed env bav →
  CodecRoundTrips env →
  let accessGroupKey :=
    (accessGroupKeyAndPublicKey env (txnPublicKey txn) (cagAccessPublicKey txMeta)
       (cagAccessGroupKeyName txMeta)).1 in
  let existingEntry :=
    notDeleted (GetAccessGroupKeyToAccessGroupEntryMapping env accessGroupKey bav).2 in
  let connected := _connectAccessGroupCreate env txn txHash blockHeight verifySignatures bav in
  (∀ totals, connected.2 = Return totals →
     ∃ existing,
       existingEntry = Some existing
       ∧ Forall (UnmuteChecksPass env bav existing) (cagAccessGroupMembers txMeta)
       ∧ ∀ target, Some target ∈ cagAccessGroupMembers txMeta →
           GetGroupMemberAttributeEntry env
             (NewGroupEnumerationKey (OwnerPublicKey accessGroupKey)
                (agkGroupKeyName accessGroupKey) (GroupMemberPublicKey target))
             AccessGroupMemberAttributeIsMuted connected.1
           = Return (Some (NewAttributeEntry false [])))
  ∧ (∀ e, connected.2 = Fail e →
       match existingEntry with
       | Some existing => UnmuteFailure env bav existing (cagAccessGroupMembers txMeta) e
       | None =>
           e ≠ Rule RuleErrorAccessMemberNotInGroup
           ∧ e ≠ Rule RuleErrorAccessGroupOwnerUnmutingSelf
           ∧ e ≠ Rule RuleErrorAccessMemberAlreadyUnmuted
       end).
Proof.
  intros Hmeta Hheight Hop Hkeyed Hcodec accessGroupKey existingEntry connected.
  subst connected.
  destruct (_connectAccessGroupCreate env txn txHash blockHeight verifySignatures bav)
    as [bavF r] eqn:Hrun.
  simpl.
  assert (Hearly : ∀ e0,
            e0 ≠ Rule RuleErrorAccessMemberNotInGroup →
            e0 ≠ Rule RuleErrorAccessGroupOwnerUnmutingSelf →
            e0 ≠ Rule RuleErrorAccessMemberAlreadyUnmuted →
            e0 ≠ Rule RuleErrorAccessGroupDoesntExist →
            match existingEntry with
            | Some existing =>
                UnmuteFailure env bav existing (cagAccessGroupMembers txMeta) e0
            | None =>
                e0 ≠ Rule RuleErrorAccessMemberNotInGroup
                ∧ e0 ≠ Rule RuleErrorAccessGroupOwnerUnmutingSelf
                ∧ e0 ≠ Rule RuleErrorAccessMemberAlreadyUnmuted
            end).
  { intros e0 H1 H2 H3 H4. destruct existingEntry; [|done]. by repeat split. }
  unfold _connectAccessGroupCreate in Hrun. rewrite Hmeta in Hrun.
  (* the height of V3 messages *)
  rewrite bind_run in Hrun.
  destruct (failIf _ _ bav) as [bav0 [[]|e0]] eqn:Hcheck.
  2:{ apply failIf_Fail in Hcheck as (-> & -> & _). injection Hrun as <- <-.
      split; [done|]. intros ? [= <-]. by apply Hearly. }
  apply failIf_Return in Hcheck as [-> _].
  (* the base name *)
  rewrite bind_run in Hrun.
  destruct (failIf _ _ bav) as [bav0 [[]|e0]] eqn:Hcheck.
  2:{ apply failIf_Fail in Hcheck as (-> & -> & _). injection Hrun as <- <-.
      split; [done|]. intros ? [= <-]. by apply Hearly. }
  apply failIf_Return in Hcheck as [-> _].
  (* the access public key and the name *)
  rewrite bind_run in Hrun.
  destruct (failWith _ bav) as [bav0 [[]|e0]] eqn:Hcheck.
  2:{ apply failWith_Fail in Hcheck as (-> & Hvalid). injection Hrun as <- <-.
      split; [done|]. intros ? [= <-].
      apply ValidateGroupPublicKeyAndName_error in Hvalid as [[cause ->]|[-> | ->]];
        by apply Hearly. }
  apply failWith_Return in Hcheck as [-> _].
  (* the public key of the transaction *)
  rewrite bind_run in Hrun.
  destruct (failOn _ bav) as [bav0 [[]|e0]] eqn:Hcheck.
  2:{ apply failOn_Fail in Hcheck as (-> & cause & ->). injection Hrun as <- <-.
      split; [done|]. intros ? [= <-]. by apply Hearly. }
  apply failOn_Return in Hcheck as [-> _].
  rewrite bind_run in Hrun.
  destruct (failIf _ _ bav) as [bav0 [[]|e0]] eqn:Hcheck.
  2:{ apply failIf_Fail in Hcheck as (-> & -> & _). injection Hrun as <- <-.
      split; [done|]. intros ? [= <-]. by apply Hearly. }
  apply failIf_Return in Hcheck as [-> _].
  (* the basic transfer *)
  rewrite bind_run in Hrun. unfold connectBasicTransfer in Hrun.
  destruct (_connectBasicTransfer _ _ _ _ _ _) as [b [cause|[[totalInput totalOutput] ops]]].
  { injection Hrun as <- <-. split; [done|]. intros ? [= <-]. by apply Hearly. }
  pose proof (accessGroupKeyAndPublicKey_name env (txnPublicKey txn)
                (cagAccessPublicKey txMeta) (cagAccessGroupKeyName txMeta)) as Hname.
  fold accessGroupKey in Hname.
  destruct (accessGroupKeyAndPublicKey _ _ _ _) as [key accessPublicKey] eqn:Hkey.
  simpl in accessGroupKey. subst accessGroupKey.
  (* the existing entry *)
  rewrite bind_run in Hrun. unfold call in Hrun.
  pose proof (keeps_get_entry GroupMembershipKeyToAccessGroupMember (λ _ _, eq_refl) env key
                (withBasicTransferView b bav)) as Hmembers1.
  pose proof (keeps_get_entry GroupMemberAttributes (λ _ _, eq_refl) env key
                (withBasicTransferView b bav)) as Hattributes1.
  pose proof (GetAccessGroupKeyToAccessGroupEntryMapping_fields env bav
                (withBasicTransferView b bav) key eq_refl) as Hexisting.
  unfold call in Hmembers1, Hattributes1.
  destruct (GetAccessGroupKeyToAccessGroupEntryMapping env key (withBasicTransferView b bav))
    as [bav1 existing'].
  simpl in Hmembers1, Hattributes1, Hexisting. subst existing'.
  fold existingEntry in Hrun.
  (* the operation *)
  assert ((blockHeight <? DeSoAccessGroupsBlockHeight env)%N = false) as Hpast
    by (apply N.ltb_ge; lia).
  rewrite Hpast, Hop in Hrun. rewrite bind_run in Hrun. simpl in Hrun.
  (* the access public key of the existing entry *)
  rewrite bind_run in Hrun.
  destruct (failIf _ _ bav1) as [bav0 [[]|e0]] eqn:Hcheck.
  2:{ apply failIf_Fail in Hcheck as (-> & -> & _). injection Hrun as <- <-.
      split; [done|]. intros ? [= <-]. by apply Hearly. }
  apply failIf_Return in Hcheck as [-> _]. clear Hearly.
  (* the switch *)
  unfold existingEntry in *. clear existingEntry.
  rewrite bind_run in Hrun.
  destruct (notDeleted (GetAccessGroupKeyToAccessGroupEntryMapping env key bav).2)
    as [existing|] eqn:Hexisting.
  2:{ injection Hrun as <- <-. split; [done|]. intros ? [= <-]. by repeat split. }
  rewrite bind_run in Hrun.
  destruct (unmuteMembersLoop env existing blockHeight (cagAccessGroupMembers txMeta) [] bav1)
    as [bav2 [unmuted|e0]] eqn:Hloop.
  2:{ injection Hrun as <- <-. split; [done|]. intros ? [= <-].
      apply unmuteMembersLoop_run in Hloop as [_ Hfailure];
        [|by apply (MembershipKeyed_fields env bav)].
      by apply (UnmuteFailure_fields env bav bav1). }
  apply unmuteMembersLoop_run in Hloop as (Hattributes2 & Hunmuted & Hpass);
    [|by apply (MembershipKeyed_fields env bav)].
  simpl in Hunmuted. subst unmuted.
  (* the new entry, the mappings and the record *)
  simpl in Hrun. unfold storeAccessGroupEntry, copyOfExistingEntry in Hrun.
  rewrite Hexisting in Hrun.
  destruct (Hcodec blockHeight existing) as [copy Hcopy]. rewrite Hcopy in Hrun.
  simpl in Hrun.
  assert ((DeSoAccessGroupsBlockHeight env <=? blockHeight)%N = true) as Hpast'
    by (apply N.leb_le; lia).
  rewrite Hpast' in Hrun. rewrite !bind_run in Hrun. simpl in Hrun.
  assert (Hsome : Forall is_Some (cagAccessGroupMembers txMeta)).
  { eapply Forall_impl; [exact Hpass|]. intros t (target & -> & _). by eexists. }
  match type of Hrun with
  | context [setIsMutedMappings ?entry false ?members bav2] =>
      destruct (setIsMutedMappings_run entry false members bav2 Hsome)
        as (bav3 & Hset & Hread)
  end.
  rewrite Hset in Hrun. simpl in Hrun. injection Hrun as <- <-.
  split; [|done]. intros totals _. exists existing. split; [done|]. split.
  - eapply Forall_impl; [exact Hpass|]. intros t.
    by apply (UnmuteChecksPass_fields env bav bav1).
  - intros target Hin. apply GetGroupMemberAttributeEntry_view.
    unfold memberAttribute. simpl. apply Hread. right. exists target.
    split; [done|]. simpl. by rewrite Hname.
Qed.

Lemma MembershipKeyed_mutedBobView :
  MembershipKeyed Example.node Scenario.mutedBobView.
Proof.
  apply (MembershipKeyed_fields Example.node Example.roomWithBobView); [done|].
  apply _connectAccessGroupMembers_keyed.
  apply (MembershipKeyed_fields Example.node Example.emptyView).
  - apply _connectAccessGroupCreate_AddMembers_keeps_membership. by right.
  - split; [|done]. intros k m. simpl. by rewrite lookup_empty.
Qed.

Lemma unmute_members_connect_witness :
  let accessGroupKey :=
    (accessGroupKeyAndPublicKey Example.node Example.alicePK Example.roomAccessPK
       Example.roomName).1 in
  let existingEntry :=
    notDeleted (GetAccessGroupKeyToAccessGroupEntryMapping Example.node accessGroupKey
                  Scenario.mutedBobView).2 in
  let connected :=
    _connectAccessGroupCreate Example.node Scenario.unmuteBobTxn [] 25 true
      Scenario.mutedBobView in
  returned connected.2 = true
  ∧ (∀ totals, connected.2 = Return totals →
       ∃ existing,
         existingEntry = Some existing
         ∧ Forall (UnmuteChecksPass Example.node Scenario.mutedBobView existing)
             [Some Example.bob]
         ∧ ∀ target, Some target ∈ [Some Example.bob] →
             GetGroupMemberAttributeEntry Example.node
               (NewGroupEnumerationKey (OwnerPublicKey accessGroupKey)
                  (agkGroupKeyName accessGroupKey) (GroupMemberPublicKey target))
               AccessGroupMemberAttributeIsMuted connected.1
             = Return (Some (NewAttributeEntry false [])))
  ∧ (∀ e, connected.2 = Fail e →
       match existingEntry with
       | Some existing =>
           UnmuteFailure Example.node Scenario.mutedBobView existing [Some Example.bob] e
       | None =>
           e ≠ Rule RuleErrorAccessMemberNotInGroup
           ∧ e ≠ Rule RuleErrorAccessGroupOwnerUnmutingSelf
           ∧ e ≠ Rule RuleErrorAccessMemberAlreadyUnmuted
       end).
Proof.
  split; [vm_compute; reflexivity|].
  apply (unmute_members_connect Example.node Scenario.mutedBobView Scenario.unmuteBobTxn
           (Example.createMeta Example.roomName [] [Some Example.bob]) [] 25 true).
  - reflexivity.
  - vm_compute. discriminate.
  - vm_compute. reflexivity.
  - exact MembershipKeyed_mutedBobView.
  - intros blockHeight e. by exists e.
Defined.

(** ** AccessGroupAttributes: what the connect and the disconnect write *)

Lemma keeps_connectAccessGroupAttributes {B X} (field : UtxoView B → X)
    (field_basic : ∀ b bav, field (withBasicTransferView b bav) = field bav)
    (env : Collaborators B) (txn : MsgDeSoTxn) (txHash : list byte) (blockHeight : N)
    (verifySignatures : bool) :
  keeps field (_connectAccessGroupAttributes env txn txHash blockHeight verifySignatures).
Proof.
  intros bav.
  unfold _connectAccessGroupAttributes, mbind, View_bind, failIf, fail, mret, View_ret,
    connectBasicTransfer.
  destruct (blockHeight <? _)%N; [done|].
  destruct (TxnMeta txn) as [| |txMeta| |]; try done.
  destruct (_connectBasicTransfer _ _ _ _ _ _) as [b [cause|[[totalInput totalOutput] ops]]];
    [apply field_basic|].
  destruct (AttributeHolderKey_ txMeta); [| |apply field_basic].
  - destruct (negb (bool_decide _)); [apply field_basic|].
    rewrite DeepEqual_pointer_slice. apply field_basic.
  - destruct (negb (bool_decide _)); [apply field_basic|].
    rewrite DeepEqual_pointer_slice. apply field_basic.
Qed.

(** X17: no AccessGroupAttributes transaction is ever connected, whoever
    signs it and whatever the view: the owner check compares a pointer to a
    public key with the byte slice of the transaction, which are never deeply
    equal, so the connect fails before its switch, and it leaves the registry,
    the membership index and both attribute indexes as they were. *)
Theorem _connectAccessGroupAttributes_connects_nothing {B} (env : Collaborators B)
    (txn : MsgDeSoTxn) (txHash : list byte) (blockHeight : N) (verifySignatures : bool)
    (bav : UtxoView B) :
  let connected :=
    _connectAccessGroupAttributes env txn txHash blockHeight verifySignatures bav in
  returned connected.2 = false
  ∧ AccessGroupKeyToAccessGroupEntry connected.1 = AccessGroupKeyToAccessGroupEntry bav
  ∧ GroupMembershipKeyToAccessGroupMember connected.1
    = GroupMembershipKeyToAccessGroupMember bav
  ∧ GroupMemberAttributes connected.1 = GroupMemberAttributes bav
  ∧ GroupEntryAttributes connected.1 = GroupEntryAttributes bav.
Proof.
  intros connected. subst connected. split.
  - pose proof (_connectAccessGroupAttributes_never_returns env txn txHash blockHeight
                  verifySignatures bav) as Hnever.
    destruct (_connectAccessGroupAttributes _ _ _ _ _ _).2 as [totals|e]; [|done].
    by destruct (Hnever totals).
  - repeat split; by apply keeps_connectAccessGroupAttributes.
Qed.

(** A check that was passed on the way to a result. *)
Ltac passed Hrun Hcheck :=
  apply bind_Return in Hrun as (? & [] & Hcheck & Hrun);
  apply failIf_Return in Hcheck as [-> Hcheck].

(** X18: what a [_disconnectAccessGroupAttributes] that returns has done.
    The last operation record and the transaction name the same holder key,
    attribute type and value; the registry and the membership index are as
    before; and the one attribute named reads afterwards as set with the value
    of the transaction, tombstoned when an Add was undone and live when a
    Remove was undone, whatever it was before.  Every other attribute, of a
    member or of a group, reads as before. *)
Theorem attributes_disconnect_effect {B} (env : Collaborators B)
    (operationType : OperationType) (currentTxn : MsgDeSoTxn) (txnHash : list byte)
    (utxoOpsForTxn : list UtxoOperation) (blockHeight : N) (bav bav' : UtxoView B) :
  _disconnectAccessGroupAttributes env operationType currentTxn txnHash utxoOpsForTxn
    blockHeight bav = (bav', Return tt) →
  ∃ txMeta prevUtxoOp,
    TxnMeta currentTxn = AccessGroupAttributesTxnMeta txMeta
    ∧ last utxoOpsForTxn = Some prevUtxoOp
    ∧ PrevAttributeHolderKey prevUtxoOp = AttributeHolderKey_ txMeta
    ∧ PrevAttributeType prevUtxoOp = AttributeType txMeta
    ∧ PrevAttributeValue prevUtxoOp = AttributeValue txMeta
    ∧ AccessGroupKeyToAccessGroupEntry bav' = AccessGroupKeyToAccessGroupEntry bav
    ∧ GroupMembershipKeyToAccessGroupMember bav' = GroupMembershipKeyToAccessGroupMember bav
    ∧ let left :=
        {| IsSet := true; Value := AttributeValue txMeta;
           attrIsDeleted :=
             bool_decide (AccessGroupAttributeOperationType_ txMeta
                          = AccessGroupAttributeOperationTypeAdd) |} in
      match AttributeHolderKey_ txMeta with
      | HolderGroupEnumerationKey enumerationKey =>
          GroupEntryAttributes bav' = GroupEntryAttributes bav
          ∧ ∀ k t, memberAttribute bav' k t
                   = if decide (enumerationKey = k ∧ AttributeType txMeta = t)
                     then Some left else memberAttribute bav k t
      | HolderAccessGroupKey accessGroupKey =>
          GroupMemberAttributes bav' = GroupMemberAttributes bav
          ∧ ∀ k t, groupAttribute bav' k t
                   = if decide (accessGroupKey = k ∧ AttributeType txMeta = t)
                     then Some left else groupAttribute bav k t
      | HolderOther => False
      end.
Proof.
  intros Hrun. unfold _disconnectAccessGroupAttributes in Hrun.
  destruct (last utxoOpsForTxn) as [prevUtxoOp|]; [|done].
  passed Hrun Htype.
  destruct (TxnMeta currentTxn) as [| |txMeta| |]; try done.
  exists txMeta, prevUtxoOp.
  passed Hrun Hholder. passed Hrun Hoperation. passed Hrun HattributeType.
  passed Hrun Hvalue.
  apply negb_false_iff, bool_decide_eq_true in Hholder, Hoperation, HattributeType, Hvalue.
  apply bind_Return in Hrun as (bav1 & [] & Hswitch & Hbasic).
  assert (Hfields : AccessGroupKeyToAccessGroupEntry bav' = AccessGroupKeyToAccessGroupEntry bav1
                    ∧ GroupMembershipKeyToAccessGroupMember bav'
                      = GroupMembershipKeyToAccessGroupMember bav1
                    ∧ GroupMemberAttributes bav' = GroupMemberAttributes bav1
                    ∧ GroupEntryAttributes bav' = GroupEntryAttributes bav1).
  { repeat split;
      match goal with
      | |- ?field bav' = _ =>
          pose proof (keeps_disconnectBasicTransfer field (λ _ _, eq_refl) env currentTxn
                        txnHash (take (length utxoOpsForTxn - 1) utxoOpsForTxn) blockHeight
                        bav1) as Hkept;
          by rewrite Hbasic in Hkept
      end. }
  destruct Hfields as (Hregistry & Hmembership & HmemberAttributes & HentryAttributes).
  clear Hbasic.
  destruct (PrevAttributeHolderKey prevUtxoOp) as [prevKey|prevKey|] eqn:Hprev; [| |done].
  - passed Hswitch Hmember.
    apply bind_Return in Hswitch as (bav2 & txKey & Hassert & Hswitch).
    destruct (AttributeHolderKey_ txMeta) as [key| |]; try done.
    injection Hassert as <- <-.
    passed Hswitch Howner. passed Hswitch Hname. passed Hswitch HmemberKey.
    apply negb_false_iff, bool_decide_eq_true in Howner, Hname, HmemberKey.
    assert (prevKey = key) as -> by (destruct prevKey, key; simpl in *; congruence).
    rewrite Hoperation, HattributeType, Hvalue.
    do 5 (split; [done|]).
    destruct (PrevAccessGroupAttributeOperationType prevUtxoOp); [| |done];
      injection Hswitch as <-;
      (split; [by rewrite Hregistry|]); (split; [by rewrite Hmembership|]);
      (split; [by rewrite HentryAttributes|]);
      intros k t; unfold memberAttribute at 1; rewrite HmemberAttributes;
      apply memberAttribute_set.
  - passed Hswitch Hgroup.
    apply bind_Return in Hswitch as (bav2 & txKey & Hassert & Hswitch).
    destruct (AttributeHolderKey_ txMeta) as [|key|]; try done.
    injection Hassert as <- <-.
    passed Hswitch Howner. passed Hswitch Hname.
    apply negb_false_iff, bool_decide_eq_true in Howner, Hname.
    assert (prevKey = key) as -> by (destruct prevKey, key; simpl in *; congruence).
    rewrite Hoperation, HattributeType, Hvalue.
    do 5 (split; [done|]).
    destruct (PrevAccessGroupAttributeOperationType prevUtxoOp); [| |done];
      injection Hswitch as <-;
      (split; [by rewrite Hregistry|]); (split; [by rewrite Hmembership|]);
      (split; [by rewrite HmemberAttributes|]);
      intros k t; unfold groupAttribute at 1; rewrite HentryAttributes;
      apply groupAttribute_set.
Qed.

Lemma attributes_disconnect_effect_witness :
  let added :=
    connectMemberAttributeOperation Example.memberAddMeta Example.bobInRoom []
      Example.roomViewWithOldAttribute in
  let undone :=
    _disconnectAccessGroupAttributes Example.node OperationTypeAccessGroupAttributes
      (Example.attributesTxn Example.memberAddMeta) [] (recordsOf added.2) 25 added.1 in
  ∃ txMeta prevUtxoOp,
    TxnMeta (Example.attributesTxn Example.memberAddMeta)
    = AccessGroupAttributesTxnMeta txMeta
    ∧ last (recordsOf added.2) = Some prevUtxoOp
    ∧ PrevAttributeHolderKey prevUtxoOp = AttributeHolderKey_ txMeta
    ∧ PrevAttributeType prevUtxoOp = AttributeType txMeta
    ∧ PrevAttributeValue prevUtxoOp = AttributeValue txMeta
    ∧ AccessGroupKeyToAccessGroupEntry undone.1 = AccessGroupKeyToAccessGroupEntry added.1
    ∧ GroupMembershipKeyToAccessGroupMember undone.1
      = GroupMembershipKeyToAccessGroupMember added.1
    ∧ let left :=
        {| IsSet := true; Value := AttributeValue txMeta;
           attrIsDeleted :=
             bool_decide (AccessGroupAttributeOperationType_ txMeta
                          = AccessGroupAttributeOperationTypeAdd) |} in
      match AttributeHolderKey_ txMeta with
      | HolderGroupEnumerationKey enumerationKey =>
          GroupEntryAttributes undone.1 = GroupEntryAttributes added.1
          ∧ ∀ k t, memberAttribute undone.1 k t
                   = if decide (enumerationKey = k ∧ AttributeType txMeta = t)
                     then Some left else memberAttribute added.1 k t
      | HolderAccessGroupKey accessGroupKey =>
          GroupMemberAttributes undone.1 = GroupMemberAttributes added.1
          ∧ ∀ k t, groupAttribute undone.1 k t
                   = if decide (accessGroupKey = k ∧ AttributeType txMeta = t)
                     then Some left else groupAttribute added.1 k t
      | HolderOther => False
      end.
Proof.
  intros added undone.
  assert (Hundone : undone.2 = Return tt) by (vm_compute; reflexivity).
  apply (attributes_disconnect_effect Example.node OperationTypeAccessGroupAttributes
           (Example.attributesTxn Example.memberAddMeta) [] (recordsOf added.2) 25
           added.1 undone.1).
  apply run_Return, Hundone.
Defined.

(** ** AccessGroupMembers: what the disconnect touches *)

Lemma update_then {B A} (f : UtxoView B → UtxoView B) (k : unit → View B A)
    (bav : UtxoView B) :
  (update f ≫= k) bav = k tt (f bav).
Proof. reflexivity. Qed.

Lemma ret_then {B A A'} (a : A) (k : A → View B A') (bav : UtxoView B) :
  (mret a ≫= k) bav = k a bav.
Proof. reflexivity. Qed.

Lemma disconnectAccessGroupMembersLoop_frame {B}
    (groupOwnerPublicKey accessGroupKeyName : list byte) (blockHeight : N)
    (members : list (option AccessGroupMember)) :
  ∀ (prevMembers : list (option AccessGroupMember)) (bav : UtxoView B),
    let bav' :=
      (disconnectAccessGroupMembersLoop groupOwnerPublicKey accessGroupKeyName blockHeight
         members prevMembers bav).1 in
    AccessGroupKeyToAccessGroupEntry bav' = AccessGroupKeyToAccessGroupEntry bav
    ∧ GroupMemberAttributes bav' = GroupMemberAttributes bav
    ∧ GroupEntryAttributes bav' = GroupEntryAttributes bav
    ∧ ∀ k, (∀ member, Some member ∈ members →
              k ≠ NewGroupMembershipKey (GroupMemberPublicKey member)
                    (NewPublicKey groupOwnerPublicKey)
                    (NewGroupKeyName accessGroupKeyName)) →
           GroupMembershipKeyToAccessGroupMember bav' !! k
           = GroupMembershipKeyToAccessGroupMember bav !! k.
Proof.
  induction members as [|t rest IH]; intros prevMembers bav; [done|].
  destruct prevMembers as [|prevMember prevRest]; [done|].
  destruct t as [member|]; [|done].
  cbn [disconnectAccessGroupMembersLoop]. rewrite bind_run.
  destruct (failIf _ _ bav) as [bav0 [[]|e]] eqn:Hlive.
  2:{ by apply failIf_Fail in Hlive as (-> & _). }
  apply failIf_Return in Hlive as [-> _].
  destruct prevMember as [prev|].
  - rewrite bind_run.
    destruct (failIf _ _ bav) as [bav0 [[]|e]] eqn:Hcheck.
    2:{ by apply failIf_Fail in Hcheck as (-> & _). }
    apply failIf_Return in Hcheck as [-> Hcheck].
    apply orb_false_iff in Hcheck as [Hcheck _].
    apply orb_false_iff in Hcheck as [Hcheck _].
    apply negb_false_iff, bool_decide_eq_true in Hcheck.
    rewrite !update_then.
    match goal with
    | |- context [disconnectAccessGroupMembersLoop _ _ _ rest prevRest ?bav1] =>
        destruct (IH prevRest bav1) as (Hregistry & HmemberAttributes & HentryAttributes
                                        & Hmembership)
    end.
    cbn zeta. split; [by rewrite Hregistry|]. split; [by rewrite HmemberAttributes|].
    split; [by rewrite HentryAttributes|].
    intros k Hk. rewrite Hmembership.
    2:{ intros m Hin. apply Hk. by apply list_elem_of_further. }
    simpl. rewrite <- Hcheck.
    rewrite lookup_insert_ne; [|apply not_eq_sym, Hk, list_elem_of_here].
    rewrite lookup_insert_ne; [done|apply not_eq_sym, Hk, list_elem_of_here].
  - rewrite ret_then, update_then, ret_then.
    match goal with
    | |- context [disconnectAccessGroupMembersLoop _ _ _ rest prevRest ?bav1] =>
        destruct (IH prevRest bav1) as (Hregistry & HmemberAttributes & HentryAttributes
                                        & Hmembership)
    end.
    cbn zeta. split; [by rewrite Hregistry|]. split; [by rewrite HmemberAttributes|].
    split; [by rewrite HentryAttributes|].
    intros k Hk. rewrite Hmembership.
    2:{ intros m Hin. apply Hk. by apply list_elem_of_further. }
    simpl. rewrite lookup_insert_ne; [done|apply not_eq_sym, Hk, list_elem_of_here].
Qed.

(** X19: whether it returns or fails, [_disconnectAccessGroupMembers] leaves
    the registry and both attribute indexes as they were, and in the
    membership index it touches no key but those of the members of the
    transaction in the group of the transaction, owner and name: the members
    of every other group, and the other members of this one, are as before.
    The sort is only asked not to make up members. *)
Theorem _disconnectAccessGroupMembers_frame {B} (env : Collaborators B)
    (operationType : OperationType) (currentTxn : MsgDeSoTxn)
    (txMeta : AccessGroupMembersMetadata) (txnHash : list byte)
    (utxoOpsForTxn : list UtxoOperation) (blockHeight : N) (bav : UtxoView B) :
  TxnMeta currentTxn = AccessGroupMembersTxnMeta txMeta →
  (∀ l x, x ∈ sortAccessGroupMembers env l → x ∈ l) →
  let bav' :=
    (_disconnectAccessGroupMembers env operationType currentTxn txnHash utxoOpsForTxn
       blockHeight bav).1 in
  AccessGroupKeyToAccessGroupEntry bav' = AccessGroupKeyToAccessGroupEntry bav
  ∧ GroupMemberAttributes bav' = GroupMemberAttributes bav
  ∧ GroupEntryAttributes bav' = GroupEntryAttributes bav
  ∧ ∀ k, (∀ member, Some member ∈ agmAccessGroupMembers txMeta →
            k ≠ NewGroupMembershipKey (GroupMemberPublicKey member)
                  (NewPublicKey (txnPublicKey currentTxn))
                  (NewGroupKeyName (agmAccessGroupKeyName txMeta))) →
         GroupMembershipKeyToAccessGroupMember bav' !! k
         = GroupMembershipKeyToAccessGroupMember bav !! k.
Proof.
  intros Hmeta Hsort bav'. subst bav'.
  unfold _disconnectAccessGroupMembers. rewrite Hmeta.
  destruct (last utxoOpsForTxn) as [accessGroupMembersOp|]; [|done].
  rewrite bind_run.
  destruct (failIf _ _ bav) as [bav0 [[]|e]] eqn:Hcheck.
  2:{ by apply failIf_Fail in Hcheck as (-> & _). }
  apply failIf_Return in Hcheck as [-> _].
  rewrite bind_run.
  destruct (failWith _ bav) as [bav0 [[]|e]] eqn:Hcheck.
  2:{ by apply failWith_Fail in Hcheck as (-> & _). }
  apply failWith_Return in Hcheck as [-> _].
  rewrite bind_run.
  destruct (failIf _ _ bav) as [bav0 [[]|e]] eqn:Hcheck.
  2:{ by apply failIf_Fail in Hcheck as (-> & _). }
  apply failIf_Return in Hcheck as [-> _].
  rewrite bind_run.
  pose proof (disconnectAccessGroupMembersLoop_frame (txnPublicKey currentTxn)
                (agmAccessGroupKeyName txMeta) blockHeight
                (sortAccessGroupMembers env (agmAccessGroupMembers txMeta))
                (sortAccessGroupMembers env (PrevAccessGroupMembers accessGroupMembersOp))
                bav) as Hloop.
  destruct (disconnectAccessGroupMembersLoop _ _ _ _ _ bav) as [bav1 [[]|e]];
    cbn [fst snd] in Hloop; cbn zeta in Hloop;
    destruct Hloop as (Hregistry & HmemberAttributes & HentryAttributes & Hmembership).
  - pose proof (λ X (field : UtxoView B → X) H,
                  keeps_disconnectBasicTransfer field H env currentTxn txnHash
                    (take (length utxoOpsForTxn - 1) utxoOpsForTxn) blockHeight bav1)
      as Hbasic.
    rewrite (Hbasic _ AccessGroupKeyToAccessGroupEntry (λ _ _, eq_refl)).
    rewrite (Hbasic _ GroupMemberAttributes (λ _ _, eq_refl)).
    rewrite (Hbasic _ GroupEntryAttributes (λ _ _, eq_refl)).
    rewrite (Hbasic _ GroupMembershipKeyToAccessGroupMember (λ _ _, eq_refl)).
    do 3 (split; [done|]). intros k Hk. apply Hmembership.
    intros member Hin. by apply Hk, Hsort.
  - do 3 (split; [done|]). intros k Hk. apply Hmembership.
    intros member Hin. by apply Hk, Hsort.
Qed.

Lemma sortMembers_elem_of (l : list (option AccessGroupMember))
    (x : option AccessGroupMember) :
  x ∈ Example.sortMembers l → x ∈ l.
Proof.
  unfold Example.sortMembers. revert x.
  induction l as [|a l IH]; intros x; simpl; [done|].
  assert (Hinsert : ∀ s, x ∈ Example.insertMember a s → x = a ∨ x ∈ s).
  { induction s as [|b s IHs]; simpl.
    - intros Hx. apply list_elem_of_singleton in Hx. by left.
    - destruct (Example.memberLeb a b).
      + intros Hx. apply elem_of_cons in Hx as [->|Hx]; [by left|by right].
      + intros Hx. apply elem_of_cons in Hx as [->|Hx].
        * right. apply list_elem_of_here.
        * destruct (IHs Hx) as [->|Hin]; [by left|].
          right. by apply list_elem_of_further. }
  intros Hx. destruct (Hinsert _ Hx) as [->|Hin].
  - apply list_elem_of_here.
  - apply list_elem_of_further. by apply IH.
Qed.

Lemma _disconnectAccessGroupMembers_frame_witness :
  let connected :=
    _connectAccessGroupMembers Example.node Example.addBobTxn [] 25 true Example.roomView in
  let bav' :=
    (_disconnectAccessGroupMembers Example.node OperationTypeAccessGroupMembers
       Example.addBobTxn [] (utxoOpsOf connected.2) 25 connected.1).1 in
  AccessGroupKeyToAccessGroupEntry bav' = AccessGroupKeyToAccessGroupEntry connected.1
  ∧ GroupMemberAttributes bav' = GroupMemberAttributes connected.1
  ∧ GroupEntryAttributes bav' = GroupEntryAttributes connected.1
  ∧ ∀ k, (∀ member, Some member ∈ [Some Example.bob] →
            k ≠ NewGroupMembershipKey (GroupMemberPublicKey member)
                  (NewPublicKey Example.alicePK) (NewGroupKeyName Example.roomName)) →
         GroupMembershipKeyToAccessGroupMember bav' !! k
         = GroupMembershipKeyToAccessGroupMember connected.1 !! k.
Proof.
  intros connected.
  apply (_disconnectAccessGroupMembers_frame Example.node OperationTypeAccessGroupMembers
           Example.addBobTxn
           {| agmAccessPublicKey := Example.roomAccessPK;
              agmAccessGroupKeyName := Example.roomName;
              agmAccessGroupMembers := [Some Example.bob];
              AccessGroupMemberOperationType_ := AccessGroupMemberOperationTypeAdd |}
           [] (utxoOpsOf connected.2) 25 connected.1).
  - reflexivity.
  - exact sortMembers_elem_of.
Defined.

(** ** CreateAccessGroup: what the connect touches *)

Section Footprint.
Context {B : Type} (env : Collaborators B) (accessGroupKey : AccessGroupKey).

Lemma createFootprint_clean (bav bav' : UtxoView B) :
  nothingWritten env bav bav' → createFootprint env accessGroupKey bav bav'.
Proof.
  intros (Hregistry & Hmembership & HmemberAttributes & HentryAttributes).
  split; [|split; [done|split; [done|]]].
  - intros k _. apply Hregistry.
  - intros k t _. unfold memberAttribute. by rewrite HmemberAttributes.
Qed.

Lemma createFootprint_after (bav bav1 bav2 : UtxoView B) :
  nothingWritten env bav bav1 →
  createFootprint env accessGroupKey bav1 bav2 →
  createFootprint env accessGroupKey bav bav2.
Proof.
  intros (Hr1 & Hm1 & Ha1 & Hg1) (Hr2 & Hm2 & Hg2 & Ha2).
  split; [|split; [|split; [congruence|]]].
  - intros k Hk. destruct (Hr2 k Hk) as [->|(Hnone & e & Hdb & ->)]; [apply Hr1|].
    right. split; [|by exists e].
    destruct (Hr1 k) as [<-|[? _]]; done.
  - intros k. destruct (Hm2 k) as [->|(Hnone & m & o & n & r & Hk & Hdb & ->)]; [apply Hm1|].
    right. split; [|by exists m, o, n, r].
    destruct (Hm1 k) as [<-|[? _]]; done.
  - intros k t Hkt. rewrite (Ha2 k t Hkt). unfold memberAttribute. by rewrite Ha1.
Qed.

Lemma createFootprint_bind {A A'} (c : View B A) (f : A → View B A') :
  runsClean env c →
  (∀ a bav, createFootprint env accessGroupKey bav (f a bav).1) →
  ∀ bav, createFootprint env accessGroupKey bav ((c ≫= f) bav).1.
Proof.
  intros Hc Hf bav. rewrite bind_run. specialize (Hc bav).
  destruct (c bav) as [bav1 [a|e]]; simpl in Hc |- *.
  - eapply createFootprint_after; [exact Hc|apply Hf].
  - by apply createFootprint_clean.
Qed.

End Footprint.

Lemma setIsMutedMappings_frame {B} (accessGroupEntry : AccessGroupEntry) (isSet : bool)
    (members : list (option AccessGroupMember)) :
  ∀ (bav : UtxoView B) k t,
    (t ≠ AccessGroupMemberAttributeIsMuted
     ∨ gekGroupOwnerPublicKey k ≠ GroupOwnerPublicKey accessGroupEntry
     ∨ gekGroupKeyName k ≠ NewGroupKeyName (AccessGroupKeyName accessGroupEntry)) →
    memberAttribute (setIsMutedMappings accessGroupEntry isSet members bav).1 k t
    = memberAttribute bav k t.
Proof.
  induction members as [|member rest IH]; intros bav k t Hkt; [done|].
  destruct member as [member|]; [|done].
  cbn [setIsMutedMappings deref]. rewrite ret_then, update_then, IH by done.
  rewrite memberAttribute_set, decide_False; [done|].
  intros [<- <-]. simpl in Hkt. by destruct Hkt as [?|[?|?]].
Qed.

Lemma storeAccessGroupEntry_footprint {B} (env : Collaborators B) (txn : MsgDeSoTxn)
    (txMeta : CreateAccessGroupMetadata) (blockHeight : N) (accessGroupKey : AccessGroupKey)
    (accessPublicKey : PublicKey) (existingEntry : option AccessGroupEntry)
    (lists : memberLists) (totalInput totalOutput : N) (utxoOpsForTxn : list UtxoOperation)
    (bav : UtxoView B) :
  agkGroupKeyName accessGroupKey = NewGroupKeyName (cagAccessGroupKeyName txMeta) →
  createFootprint env accessGroupKey bav
    (storeAccessGroupEntry env txn txMeta blockHeight accessGroupKey accessPublicKey
       existingEntry lists totalInput totalOutput utxoOpsForTxn bav).1.
Proof.
  intros Hname. unfold storeAccessGroupEntry.
  destruct (copyOfExistingEntry env blockHeight existingEntry) as [[cause|]|prev];
    try (apply createFootprint_clean, nothingWritten_refl).
  set (accessGroupEntry := NewAccessGroupEntry _ _ _ _ _ _).
  set (mappings := if (DeSoAccessGroupsBlockHeight env <=? blockHeight)%N
                   then setIsMutedMappings accessGroupEntry true (newMuteList lists);;
                        setIsMutedMappings accessGroupEntry false (newUnmuteList lists)
                   else mret tt).
  assert (Hkept : ∀ X (field : UtxoView B → X),
            (∀ m b, field (withGroupMemberAttributes m b) = field b) →
            field (mappings bav).1 = field bav).
  { intros X field Hfield. subst mappings.
    destruct (DeSoAccessGroupsBlockHeight env <=? blockHeight)%N; [|done].
    exact (keeps_bind field _ _
             (keeps_setIsMutedMappings field Hfield _ _ _)
             (λ _, keeps_setIsMutedMappings field Hfield _ _ _) bav). }
  assert (Hattributes : ∀ k t,
            (t ≠ AccessGroupMemberAttributeIsMuted
             ∨ gekGroupOwnerPublicKey k ≠ OwnerPublicKey accessGroupKey
             ∨ gekGroupKeyName k ≠ agkGroupKeyName accessGroupKey) →
            memberAttribute (mappings bav).1 k t = memberAttribute bav k t).
  { intros k t Hkt. subst mappings.
    assert (t ≠ AccessGroupMemberAttributeIsMuted
            ∨ gekGroupOwnerPublicKey k ≠ GroupOwnerPublicKey accessGroupEntry
            ∨ gekGroupKeyName k ≠ NewGroupKeyName (AccessGroupKeyName accessGroupEntry))
      as Hkt'.
    { simpl. by rewrite NewGroupKeyName_idemp, <- Hname. }
    destruct (DeSoAccessGroupsBlockHeight env <=? blockHeight)%N; [|done].
    rewrite bind_run.
    pose proof (setIsMutedMappings_frame accessGroupEntry true (newMuteList lists) bav k t
                  Hkt') as Hmute.
    destruct (setIsMutedMappings accessGroupEntry true (newMuteList lists) bav)
      as [bav1 [[]|e]]; [|done].
    simpl in Hmute. rewrite <- Hmute.
    by apply setIsMutedMappings_frame. }
  rewrite bind_run.
  destruct (mappings bav) as [bav1 [[]|e]]; cbn [fst snd] in Hkept, Hattributes.
  - rewrite update_then. cbn [mret View_ret fst].
    split; [|split; [|split]].
    + intros k Hk. left. simpl.
      rewrite lookup_insert_ne.
      * apply (Hkept _ (λ b, AccessGroupKeyToAccessGroupEntry b !! k)). done.
      * intros <-. apply Hk. destruct accessGroupKey. simpl in *. by rewrite Hname.
    + intros k. left. simpl.
      apply (Hkept _ (λ b, GroupMembershipKeyToAccessGroupMember b !! k)). done.
    + simpl. by apply (Hkept _ GroupEntryAttributes).
    + intros k t Hkt. by rewrite <- (Hattributes k t Hkt).
  - split; [|split; [|split]].
    + intros k Hk. left.
      apply (Hkept _ (λ b, AccessGroupKeyToAccessGroupEntry b !! k)). done.
    + intros k. left.
      apply (Hkept _ (λ b, GroupMembershipKeyToAccessGroupMember b !! k)). done.
    + by apply (Hkept _ GroupEntryAttributes).
    + done.
Qed.

(** X20: however it ends, a [_connectAccessGroupCreate] writes the registry
    at the key of its group only, and of the attributes of members only the
    [IsMuted] attributes of that group; it never writes the membership index
    nor the attributes of groups.  What else differs afterwards in the
    registry or the membership index is an entry of the store cached where
    the view held nothing.  The store is asked to hand back the entry of the
    key, and the record of the member, it was asked for. *)
Theorem _connectAccessGroupCreate_footprint {B} (env : Collaborators B)
    (txn : MsgDeSoTxn) (txMeta : CreateAccessGroupMetadata) (txHash : list byte)
    (blockHeight : N) (verifySignatures : bool) (bav : UtxoView B) :
  TxnMeta txn = CreateAccessGroupTxnMeta txMeta →
  (∀ k stored, DBGetAccessGroupEntry env k = Some stored →
               AccessGroupKeyName stored = agkGroupKeyName k) →
  (∀ m o n record, DBGetMemberFromMembershipIndex env m o n = Some record →
                   GroupMemberPublicKey record = m) →
  createFootprint env
    (accessGroupKeyAndPublicKey env (txnPublicKey txn) (cagAccessPublicKey txMeta)
       (cagAccessGroupKeyName txMeta)).1
    bav (_connectAccessGroupCreate env txn txHash blockHeight verifySignatures bav).1.
Proof.
  intros Hmeta Hentries Hmembers. revert bav.
  pose proof (accessGroupKeyAndPublicKey_name env (txnPublicKey txn)
                (cagAccessPublicKey txMeta) (cagAccessGroupKeyName txMeta)) as Hname.
  unfold _connectAccessGroupCreate. rewrite Hmeta.
  apply createFootprint_bind; [apply runsClean_failIf|intros _].
  apply createFootprint_bind; [apply runsClean_failIf|intros _].
  apply createFootprint_bind; [apply runsClean_failWith|intros _].
  apply createFootprint_bind; [apply runsClean_failOn|intros _].
  apply createFootprint_bind; [apply runsClean_failIf|intros _].
  apply createFootprint_bind;
    [apply runsClean_connectBasicTransfer|intros [[totalInput totalOutput] ops]].
  destruct (accessGroupKeyAndPublicKey _ _ _ _) as [accessGroupKey accessPublicKey].
  simpl in Hname. cbn [fst].
  apply createFootprint_bind; [by apply runsClean_get_entry|intros existingEntry].
  apply createFootprint_bind.
  { destruct (blockHeight <? _)%N; [apply runsClean_ret|].
    destruct (GetAccessGroupOperation env txn); [apply runsClean_fail|apply runsClean_ret]. }
  intros operation.
  apply createFootprint_bind; [apply runsClean_failIf|intros _].
  apply createFootprint_bind; [by apply runsClean_accessGroupOperationSwitch|].
  intros [returned|lists] bav.
  - apply createFootprint_clean, nothingWritten_refl.
  - by apply storeAccessGroupEntry_footprint.
Qed.

Lemma _connectAccessGroupCreate_footprint_witness :
  let connected :=
    _connectAccessGroupCreate Scenario.nodeWithStoredBob Example.muteBobTxn [] 25 true
      Example.emptyView in
  returned connected.2 = true
  ∧ createFootprint Scenario.nodeWithStoredBob
      (accessGroupKeyAndPublicKey Scenario.nodeWithStoredBob Example.alicePK
         Example.roomAccessPK Example.roomName).1
      Example.emptyView connected.1.
Proof.
  split; [vm_compute; reflexivity|].
  apply (_connectAccessGroupCreate_footprint Scenario.nodeWithStoredBob Example.muteBobTxn
           (Example.createMeta Example.roomName [] [Some Example.bob]) [] 25 true
           Example.emptyView).
  - reflexivity.
  - exact nodeWithStoredBob_entries.
  - exact nodeWithStoredBob_members.
Defined.
